(** * Linear-referencing toolbox: station stepping, routes by length,
      cross-sections

    A shallow embedding of the Python scripts under [Scripts/]
    ([createPointEventTable.py], [create_route_by_length.py],
    [stationPointsAndCrossSections.py], [createPointsAlongLine.py]) and the
    properties their specification states about them.

    Numbers.  The scripts compute with Python floats, that is binary64.
    A finite float is embedded by its value, a rational [Q].  Comparisons
    are the exact ones.  An arithmetic operation of a script is the exact
    operation followed by the rounding of its result to a value the format
    holds ([fadd], [fsub], [fmul], [fdiv]); the rounding is the parameter
    [rnd] of the embedding, and [binary64] below is the rounding of the
    format: to nearest, ties to even, with 53 bits and the subnormal range.
    Infinities and NaN are outside the model: a result is held whatever
    its size. *)

From stdpp Require Import gmap strings list fin_maps pretty.
From Stdlib Require Import QArith Qabs Qround Qpower Lqa Lia.
From Stdlib Require Import PrimFloat FloatOps SpecFloat.

Local Open Scope Q_scope.

(** ** Numbers *)

(** Python's [x < y] on numbers. *)
Definition Qlt_bool (x y : Q) : bool := negb (Qle_bool y x).

(** The rounding of the float format: it takes the exact result of an
    operation to the value that is stored. *)
Class Rounding : Type := { rnd : Q -> Q }.

(** Python's [x + y], [x - y], [x * y] and [x / y] on floats. *)
Definition fadd `{Rounding} (x y : Q) : Q := rnd (x + y).
Definition fsub `{Rounding} (x y : Q) : Q := rnd (x - y).
Definition fmul `{Rounding} (x y : Q) : Q := rnd (x * y).
Definition fdiv `{Rounding} (x y : Q) : Q := rnd (x / y).

(** What the theorems below ask of a rounding, where they ask anything: it
    keeps the order, and it leaves a rounded value as it is. *)
Definition monotone (f : Q -> Q) : Prop :=
  forall x y : Q, x <= y -> f x <= f y.

Definition idempotent (f : Q -> Q) : Prop :=
  forall x : Q, f (f x) == f x.

(** A number the format holds: a float. *)
Definition representable `{Rounding} (x : Q) : Prop := rnd x == x.

(** *** binary64

    The integer nearest to [s], the even one of the two when [s] lies
    halfway. *)
Definition nearest_even (s : Q) : Z :=
  let k := Qfloor s in
  match Qcompare (s - inject_Z k) (1 # 2) with
  | Lt => k
  | Gt => (k + 1)%Z
  | Eq => if Z.even k then k else (k + 1)%Z
  end.

(** The multiple of [2^e] nearest to [q]. *)
Definition round_at (e : Z) (q : Q) : Q :=
  inject_Z (nearest_even (q / 2 ^ e)) * 2 ^ e.

(** [floor (log2 |q|)], for [q] other than 0. *)
Definition ilog2 (q : Q) : Z :=
  let k := (Z.log2 (Z.abs (Qnum q)) - Z.log2 (Zpos (Qden q)))%Z in
  if Qle_bool (2 ^ k) (Qabs q) then k else (k - 1)%Z.

(** The exponent of the last of the 53 bits of [q]; subnormal numbers
    share the exponent -1074. *)
Definition ulp_exponent (q : Q) : Z := Z.max (-1074) (ilog2 q - 52).

Definition binary64 (q : Q) : Q := Qred (round_at (ulp_exponent q) q).

#[global] Instance float64 : Rounding := {| rnd := binary64 |}.

(** Arithmetic without rounding, to compare the running sums of the script
    with the spec's [start + k*step]. *)
Definition unrounded : Rounding := {| rnd := fun q : Q => q |}.

(** The value of a machine float ([PrimFloat]), to compare [binary64]
    with the machine's arithmetic; [None] for infinities and NaN. *)
Definition Q_of_float (x : PrimFloat.float) : option Q :=
  match Prim2SF x with
  | S754_zero _ => Some 0
  | S754_finite s m e =>
      Some (Qred ((if s then -1 else 1) * inject_Z (Zpos m) * 2 ^ e))
  | _ => None
  end.

(** The number of a natural, as the spec's [k] in [start + k*step]. *)
Definition Qnat (k : nat) : Q := inject_Z (Z.of_nat k).

(** ** Generators *)

(** A Python generator is embedded by its resumption function: from the
    frame's local state, [next] either yields a value and the state the
    frame is suspended in, or returns [None] when the generator function
    returns (StopIteration). *)
Section Generators.
Context {S A : Type}.
Variable next : S -> option (A * S).

(** [list(gen)]: every value the generator yields, when it finishes within
    [fuel] resumptions; [None] when it is still running after them. *)
Fixpoint collect (fuel : nat) (s : S) : option (list A) :=
  match fuel with
  | O => None
  | Datatypes.S fuel' =>
      match next s with
      | None => Some []
      | Some (a, s') =>
          match collect fuel' s' with
          | Some l => Some (a :: l)
          | None => None
          end
      end
  end.

(** The first [n] values the generator yields (fewer when it finishes
    earlier). *)
Fixpoint first_yields (n : nat) (s : S) : list A :=
  match n with
  | O => []
  | Datatypes.S n' =>
      match next s with
      | None => []
      | Some (a, s') => a :: first_yields n' s'
      end
  end.
End Generators.

(** ** frange (createPointEventTable.py, lines 22-30)

    The generator's only local that changes is [r]; [start] initialises it.
<<
    def frange(start, stop, step):
        r = start
        while r < stop:
            yield r
            if step > 0:
                r += step
            else:
                r -= step
>> *)
Definition frange_next `{Rounding} (stop step : Q) (r : Q)
    : option (Q * Q) :=
  if Qlt_bool r stop then
    Some (r, if Qlt_bool 0 step then fadd r step else fsub r step)
  else None.

(** [list(frange(start, stop, step))], given [fuel] resumptions. *)
Definition frange `{Rounding} (fuel : nat) (start stop step : Q)
    : option (list Q) :=
  collect (frange_next stop step) fuel start.

(** The value of [r] after [k] executions of [r += step]: the running
    sum, each addition rounded. *)
Fixpoint strides `{Rounding} (step : Q) (k : nat) (r : Q) : Q :=
  match k with
  | O => r
  | Datatypes.S k' => strides step k' (fadd r step)
  end.

(** The reading of a negative step as a descent, in the words of the
    specification: [l] starts at [start] and goes down by [|step|] while
    the value stays strictly greater than [stop]. *)
Definition descends (start stop step : Q) (l : list Q) : Prop :=
  (forall k x, l !! k = Some x -> x == start - Qnat k * Qabs step) /\
  (forall k, (k < length l)%nat <-> stop < start - Qnat k * Qabs step).

(** ** Python exceptions and the outcome of a call *)

Inductive exn : Type :=
| IndexError                       (* list index out of range *)
| TypeError                        (* e.g. float(None), unpacking None *)
| AttributeError                   (* e.g. None.firstPoint *)
| IOError (msg : string)           (* arcpy.Describe of a missing dataset *)
| RuntimeError (msg : string)      (* arcpy.da cursor errors *)
| ExecuteError (msg : string).     (* a geoprocessing tool failed *)

Inductive result (A : Type) : Type :=
| Ok (a : A)          (* normal completion *)
| Raised (e : exn)    (* an exception propagates to the caller *)
| Running.            (* still executing when the fuel ran out *)
Arguments Ok {A} a.
Arguments Raised {A} e.
Arguments Running {A}.

(** ** The data the geoprocessing engine stores *)

(** [arcpy.Field]: the attributes the scripts read. *)
Record Field : Type := mkField {
  f_name : string;
  f_type : string;
  f_length : Z
}.

(** A polyline: the (x, y) vertices of each part, and the M values of
    [firstPoint] and [lastPoint], the only measures the scripts read
    ([None] when the geometry carries no measure). *)
Record Polyline : Type := mkPolyline {
  parts : list (list (Q * Q));
  firstM : option Q;
  lastM : option Q
}.

(** The geometry of a record: none (a table row, or a null shape), a
    point, or a polyline. *)
Inductive Geometry : Type :=
| NoShape
| PointShape (x y : Q)
| PolylineShape (p : Polyline).

(** What a cursor hands to Python for one field or token. *)
Inductive value : Type :=
| VNone
| VNum (q : Q)
| VStr (s : string)
| VXY (x y : Q)            (* the tuple of SHAPE@XY *)
| VShape (g : Geometry).   (* the geometry object of SHAPE@ *)

(** A record: its geometry and its attribute values by field name. *)
Record Row : Type := mkRow {
  shape : Geometry;
  attrs : gmap string value
}.

(** A table, feature class or layer: its fields, in order, and its
    records, in order. *)
Record Dataset : Type := mkDataset {
  fields : list Field;
  rows : list Row
}.

(** The workspace: datasets by path (tables, feature classes, layers and
    the [in_memory] ones alike), and [arcpy.env.overwriteOutput]. *)
Record World : Type := mkWorld {
  datasets : gmap string Dataset;
  overwriteOutput : bool
}.

(** ** Stateful, fallible code *)

(** A call runs in a workspace and leaves a workspace, also when it
    raises: what was written before the exception stays written. *)
Definition M (A : Type) : Type := World -> World * result A.

Global Instance M_ret : MRet M := fun A a w => (w, Ok a).
Global Instance M_bind : MBind M := fun A B f m w =>
  match m w with
  | (w', Ok a) => f a w'
  | (w', Raised e) => (w', Raised e)
  | (w', Running) => (w', Running)
  end.

Definition raise {A : Type} (e : exn) : M A := fun w => (w, Raised e).
Definition running {A : Type} : M A := fun w => (w, Running).
Definition get_world : M World := fun w => (w, Ok w).
Definition set_overwriteOutput (b : bool) : M unit :=
  fun w => (mkWorld (datasets w) b, Ok tt).

(** [for x in l: body(x)] *)
Fixpoint for_each {A : Type} (l : list A) (body : A -> M unit) : M unit :=
  match l with
  | [] => mret tt
  | x :: l' => body x ;; for_each l' body
  end.

(** [for x in gen: body(x)], the generator resumed at most [fuel] times:
    the body runs as each value is yielded. *)
Fixpoint for_gen {S A : Type} (next : S -> option (A * S)) (fuel : nat)
    (s : S) (body : A -> M unit) : M unit :=
  match fuel with
  | O => running
  | Datatypes.S fuel' =>
      match next s with
      | None => mret tt
      | Some (a, s') => body a ;; for_gen next fuel' s' body
      end
  end.

(** [l[i]] on a Python list or tuple. *)
Definition index {A : Type} (l : list A) (i : nat) : M A :=
  match l !! i with
  | Some a => mret a
  | None => raise IndexError
  end.

(** [float(x)] for [x] a number or [None]. *)
Definition float (x : option Q) : M Q :=
  match x with
  | Some q => mret q
  | None => raise TypeError
  end.

(** ** Strings *)

(** Python's [needle in hay] on strings: [needle] occurs in [hay]. *)
Fixpoint str_in (needle hay : string) : bool :=
  String.prefix needle hay
  || match hay with
     | EmptyString => false
     | String _ hay' => str_in needle hay'
     end.

(** [needle] is a substring of [hay]. *)
Definition occurs_in (needle hay : string) : Prop :=
  exists pre post : string, hay = pre +:+ needle +:+ post.

(** [f] is the first of the fields [fs], in their order, whose name is a
    substring of [requested]. *)
Definition first_field_in (fs : list Field) (requested : string) (f : Field)
    : Prop :=
  exists before after : list Field,
    fs = before ++ f :: after /\
    occurs_in (f_name f) requested /\
    forall g, g ∈ before -> ~ occurs_in (f_name g) requested.

(** ** Ordering of cursor values (for ORDER BY) *)

(** Nulls first, then numbers by value, then texts. *)
Definition value_compare (a b : value) : comparison :=
  match a, b with
  | VNum x, VNum y => (x ?= y)
  | VStr x, VStr y => String.compare x y
  | VNone, VNone => Eq
  | VNone, _ => Lt
  | _, VNone => Gt
  | VNum _, VStr _ => Lt
  | VStr _, VNum _ => Gt
  | _, _ => Eq
  end.

(** Equality of identifiers, as the engine compares them. *)
Definition value_eqb (a b : value) : bool :=
  match value_compare a b with Eq => true | _ => false end.

(** The value of a field of a record; a field never written is null. *)
Definition attr (r : Row) (k : string) : value := default VNone (attrs r !! k).

(** [r1] sorts no later than [r2] under ORDER BY [keys]. *)
Fixpoint row_leb (keys : list string) (r1 r2 : Row) : bool :=
  match keys with
  | [] => true
  | k :: keys' =>
      match value_compare (attr r1 k) (attr r2 k) with
      | Lt => true
      | Gt => false
      | Eq => row_leb keys' r1 r2
      end
  end.

(** A stable insertion sort. *)
Fixpoint insert_by (leb : Row -> Row -> bool) (r : Row) (l : list Row)
    : list Row :=
  match l with
  | [] => [r]
  | x :: l' => if leb r x then r :: l else x :: insert_by leb r l'
  end.

Definition order_by (keys : list string) (l : list Row) : list Row :=
  fold_right (insert_by (row_leb keys)) [] l.

(** ** The geoprocessing engine (arcpy)

    The engine is the external collaborator of section 6 of the
    specification; the scripts call it as [arcpy].  Its tools are embedded
    with the behaviour the scripts rely on: a tool fails with
    [ExecuteError] when an input dataset or field is missing, or when its
    output exists and [overwriteOutput] is off; a cursor fails with
    [RuntimeError] when its table or one of its fields is missing.  Two
    capabilities stay abstract: the planar distance between two vertices,
    from which the engine derives a line's length, and the locator that
    places a measure on a route. *)
Section Engine.
(** Modelled from the spec: the 2D distance between consecutive vertices
    (section 3, Route), as the engine measures it. *)
Variable dist : Q * Q -> Q * Q -> Q.
(** Modelled from the spec: [locate(route, measure) -> (x, y,
    bearing_degrees)] of section 4.4, the interpolation and angle
    computation done by MakeRouteEventLayer; [None] when the measure
    cannot be placed on the route. *)
Variable locate : Polyline -> Q -> option (Q * Q * Q).

(** The length of one part: the distances between consecutive vertices. *)
Fixpoint part_length (vs : list (Q * Q)) : Q :=
  match vs with
  | a :: ((b :: _) as tl) => dist a b + part_length tl
  | _ => 0
  end.

(** SHAPE@LENGTH: the sum, over the parts, of the distances between
    consecutive vertices. *)
Definition shape_length (p : Polyline) : Q :=
  fold_right Qplus 0 (map part_length (parts p)).

(** Whether the dataset has a field of this name. *)
Definition has_field (d : Dataset) (n : string) : bool :=
  existsb (fun f => String.eqb (f_name f) n) (fields d).

(** The geometry tokens a cursor accepts in place of a field name. *)
Definition is_token (tok : string) : bool :=
  String.eqb tok "SHAPE@" || String.eqb tok "SHAPE@XY"
  || String.eqb tok "SHAPE@LENGTH".

(** A cursor opens on [toks] when each is a token or a field. *)
Definition cursor_fields_ok (d : Dataset) (toks : list string) : bool :=
  forallb (fun t => is_token t || has_field d t) toks.

(** The value a cursor reads from a record for one field or token. *)
Definition read_token (r : Row) (tok : string) : value :=
  if String.eqb tok "SHAPE@" then
    match shape r with NoShape => VNone | g => VShape g end
  else if String.eqb tok "SHAPE@XY" then
    match shape r with PointShape x y => VXY x y | _ => VNone end
  else if String.eqb tok "SHAPE@LENGTH" then
    match shape r with
    | PolylineShape p => VNum (shape_length p)
    | _ => VNone
    end
  else attr r tok.

(** The tuple a cursor yields for a record. *)
Definition read_row (toks : list string) (r : Row) : list value :=
  map (read_token r) toks.

(** The record after a cursor writes one value; SHAPE@XY and SHAPE@LENGTH
    are derived and cannot be written. *)
Definition write_token (r : Row) (tok : string) (v : value) : Row :=
  if String.eqb tok "SHAPE@" then
    match v with VShape g => mkRow g (attrs r) | _ => r end
  else if String.eqb tok "SHAPE@XY" || String.eqb tok "SHAPE@LENGTH" then r
  else mkRow (shape r) (<[tok := v]> (attrs r)).

(** The record after a cursor writes a tuple, field by field. *)
Fixpoint write_row (toks : list string) (vals : list value) (r : Row)
    : Row :=
  match toks, vals with
  | t :: toks', v :: vals' => write_row toks' vals' (write_token r t v)
  | _, _ => r
  end.

(** The dataset at [path]; the exception [e] when there is none. *)
Definition lookup_dataset (path : string) (e : exn) : M Dataset :=
  w ← get_world;
  match datasets w !! path with
  | Some d => mret d
  | None => raise e
  end.

(** The workspace with [d] stored at [path], and with [path] removed. *)
Definition with_dataset (w : World) (path : string) (d : Dataset) : World :=
  mkWorld (<[path := d]> (datasets w)) (overwriteOutput w).

Definition without_dataset (w : World) (path : string) : World :=
  mkWorld (delete path (datasets w)) (overwriteOutput w).

Definition store_dataset (path : string) (d : Dataset) : M unit :=
  fun w => (with_dataset w path d, Ok tt).

Definition remove_dataset (path : string) : M unit :=
  fun w => (without_dataset w path, Ok tt).

(** An output may be written when it does not exist yet, or when
    [arcpy.env.overwriteOutput] is on. *)
Definition writable (w : World) (path : string) : bool :=
  match datasets w !! path with
  | Some _ => overwriteOutput w
  | None => true
  end.

Definition check_output (path : string) : M unit :=
  w ← get_world;
  if writable w path then mret tt
  else raise (ExecuteError "output already exists").

(** Modelled from the spec: whether a dataset exists ([arcpy.Exists]). *)
Definition Exists (path : string) : M bool :=
  w ← get_world;
  mret (match datasets w !! path with Some _ => true | None => false end).

(** Modelled from the spec: [describe_fields(dataset)] of section 6
    ([arcpy.Describe(dataset).fields]). *)
Definition Describe_fields (path : string) : M (list Field) :=
  d ← lookup_dataset path (IOError "dataset does not exist");
  mret (fields d).

(** Modelled from the spec: scratch dataset naming of section 6
    ([arcpy.CreateUniqueName(base, workspace)]): [workspace/base] when that
    path is free, otherwise the first free one of [workspace/base0],
    [workspace/base1], ... *)
Fixpoint unique_suffix (used : string -> bool) (stem : string)
    (fuel n : nat) : string :=
  match fuel with
  | O => stem +:+ pretty n
  | Datatypes.S fuel' =>
      if used (stem +:+ pretty n)
      then unique_suffix used stem fuel' (Datatypes.S n)
      else stem +:+ pretty n
  end.

Definition unique_name (m : gmap string Dataset) (base workspace : string)
    : string :=
  let used p := match m !! p with Some _ => true | None => false end in
  let stem := workspace +:+ "/" +:+ base in
  if used stem then unique_suffix used stem (Datatypes.S (size m)) 0%nat
  else stem.

Definition CreateUniqueName (base workspace : string) : M string :=
  w ← get_world; mret (unique_name (datasets w) base workspace).

(** Modelled from the spec: the copy of a feature set
    ([arcpy.management.CopyFeatures]). *)
Definition CopyFeatures (src dst : string) : M unit :=
  d ← lookup_dataset src (ExecuteError "input does not exist");
  check_output dst;;
  store_dataset dst d.

(** Modelled from the spec: [create_table(location, name)] and
    [create_feature_class(location, name, geometry_type,
    spatial_reference)] of section 6 ([arcpy.management.CreateTable] and
    [arcpy.management.CreateFeatureclass]): [out] is the path that
    [os.path.split] took apart into [(path, name)]. *)
Definition CreateTable (out : string) : M unit :=
  check_output out;;
  store_dataset out (mkDataset [] []).

Definition CreateFeatureclass (out geometry_type spatial_reference : string)
    : M unit :=
  lookup_dataset spatial_reference
    (ExecuteError "spatial reference does not exist");;
  check_output out;;
  store_dataset out (mkDataset [] []).

(** Modelled from the spec: [add_field(table, name, type, length?)] of
    section 6 ([arcpy.management.AddField]): a field that exists already is
    left as it is (the tool only warns); [length] is the optional
    [field_length]. *)
Definition add_field (d : Dataset) (name type : string) (length : option Z)
    : Dataset :=
  if has_field d name then d
  else mkDataset (fields d ++ [mkField name type (default 0%Z length)])
                 (rows d).

Definition AddField (table name type : string) (length : option Z)
    : M unit :=
  d ← lookup_dataset table (ExecuteError "table does not exist");
  store_dataset table (add_field d name type length).

(** Modelled from the spec: scratch dataset deletion of section 6
    ([arcpy.management.Delete]). *)
Definition Delete (path : string) : M unit :=
  lookup_dataset path (ExecuteError "dataset does not exist");;
  remove_dataset path.

(** *** Cursors ([arcpy.da])

    Modelled from the spec: bulk row read ([search_cursor]) and bulk row
    write ([insert_cursor], [update_cursor]) of section 6, over tuples
    that match a requested field list, with an optional ORDER BY. *)

Definition open_cursor (table : string) (toks keys : list string)
    : M Dataset :=
  d ← lookup_dataset table (RuntimeError "cannot open table");
  if cursor_fields_ok d toks && forallb (has_field d) keys then mret d
  else raise (RuntimeError "cannot find field").

(** [SearchCursor(table, toks, sql_clause=(None, 'ORDER BY keys'))]: the
    tuples the cursor yields, in order. *)
Definition SearchCursor (table : string) (toks keys : list string)
    : M (list (list value)) :=
  d ← open_cursor table toks keys;
  mret (map (read_row toks) (order_by keys (rows d))).

Definition InsertCursor (table : string) (toks : list string) : M unit :=
  open_cursor table toks [];; mret tt.

(** [icursor.insertRow(vals)]: a new record at the end of the table. *)
Definition insertRow (table : string) (toks : list string)
    (vals : list value) : M unit :=
  if negb (Nat.eqb (List.length vals) (List.length toks))
  then raise TypeError
  else
    d ← lookup_dataset table (RuntimeError "cannot open table");
    store_dataset table
      (mkDataset (fields d)
                 (rows d ++ [write_row toks vals (mkRow NoShape ∅)])).

(** [UpdateCursor(table, toks)]: the positions of the records the cursor
    will visit. *)
Definition UpdateCursor (table : string) (toks : list string)
    : M (list nat) :=
  d ← open_cursor table toks [];
  mret (seq 0 (List.length (rows d))).

(** The tuple the update cursor yields at record [i]. *)
Definition fetch (table : string) (toks : list string) (i : nat)
    : M (list value) :=
  d ← lookup_dataset table (RuntimeError "cannot open table");
  match rows d !! i with
  | Some r => mret (read_row toks r)
  | None => raise (RuntimeError "no current record")
  end.

(** [cursor.updateRow(vals)] at record [i]. *)
Definition updateRow (table : string) (toks : list string) (i : nat)
    (vals : list value) : M unit :=
  d ← lookup_dataset table (RuntimeError "cannot open table");
  match rows d !! i with
  | Some r =>
      store_dataset table
        (mkDataset (fields d) (<[i := write_row toks vals r]> (rows d)))
  | None => raise (RuntimeError "no current record")
  end.

(** *** Linear referencing tools ([arcpy.lr]) *)

(** Modelled from the spec: [create_routes(lines, id_field, out_routes,
    measure_source="two fixed fields", from_field, to_field)] of section
    6: lines are merged by identifier, and a line's measures run from the
    value of its from-field to the value of its to-field.  A line without
    a polyline geometry or without numeric measure fields makes no route. *)
Definition measured_line (from_field to_field : string) (r : Row)
    : option Polyline :=
  match shape r, attr r from_field, attr r to_field with
  | PolylineShape p, VNum f, VNum t =>
      Some (mkPolyline (parts p) (Some f) (Some t))
  | _, _, _ => None
  end.

(** Merging by identifier: a measured line joins the route that carries
    its identifier, after the lines already there, or starts a new route. *)
Fixpoint add_to_routes (id : value) (line : Polyline)
    (routes : list (value * Polyline)) : list (value * Polyline) :=
  match routes with
  | [] => [(id, line)]
  | (id', p) :: rest =>
      if value_eqb id id'
      then (id', mkPolyline (parts p ++ parts line) (firstM p) (lastM line))
           :: rest
      else (id', p) :: add_to_routes id line rest
  end.

(** The routes of the lines, by identifier, in the order the identifiers
    first appear. *)
Definition build_routes (id_field from_field to_field : string)
    (lines : list Row) : list (value * Polyline) :=
  fold_left
    (fun routes r =>
       match measured_line from_field to_field r with
       | Some line => add_to_routes (attr r id_field) line routes
       | None => routes
       end)
    lines [].

(** The feature stored for a route: its geometry and its identifier. *)
Definition route_row (id_field : string) (route : value * Polyline) : Row :=
  mkRow (PolylineShape (snd route)) {[ id_field := fst route ]}.

(** The route feature class made of the lines [d]. *)
Definition routes_dataset (id_field from_field to_field : string)
    (d : Dataset) : Dataset :=
  mkDataset
    (List.filter (fun f => String.eqb (f_name f) id_field) (fields d))
    (map (route_row id_field)
         (build_routes id_field from_field to_field (rows d))).

(** [arcpy.lr.CreateRoutes(in_lines, id_field, out,
    measure_source='TWO_FIELDS', from_measure_field, to_measure_field)] *)
Definition CreateRoutes (in_lines id_field out from_field to_field : string)
    : M unit :=
  d ← lookup_dataset in_lines (ExecuteError "input does not exist");
  if has_field d id_field && has_field d from_field && has_field d to_field
  then
    check_output out;;
    store_dataset out (routes_dataset id_field from_field to_field d)
  else raise (ExecuteError "field does not exist").

(** Modelled from the spec: [locate_events_along_route(routes, id_field,
    event_table, event_spec, out_layer, angle_mode="NORMAL")] of section
    6: each event of the table is placed on the route that carries its
    identifier, as a point with the angle in LOC_ANGLE; an event that
    cannot be placed makes no feature. *)
Definition find_route (id_field : string) (id : value) (routes : list Row)
    : option Polyline :=
  match List.filter (fun r => value_eqb (attr r id_field) id) routes with
  | r :: _ =>
      match shape r with PolylineShape p => Some p | _ => None end
  | [] => None
  end.

(** The point feature of one event: the event's attributes, its place on
    the route, and the angle there. *)
Definition locate_event (id_field event_id_field measure_field : string)
    (routes : list Row) (ev : Row) : option Row :=
  match attr ev measure_field with
  | VNum m =>
      match find_route id_field (attr ev event_id_field) routes with
      | Some p =>
          match locate p m with
          | Some (x, y, angle) =>
              Some (mkRow (PointShape x y)
                          (<["LOC_ANGLE" := VNum angle]> (attrs ev)))
          | None => None
          end
      | None => None
      end
  | _ => None
  end.

(** [arcpy.lr.MakeRouteEventLayer(in_routes, route_id_field, in_table,
    in_event_properties, out_layer, add_angle_field=True,
    angle_type="NORMAL", point_event_type="POINT")], where
    [in_event_properties] is the text "event_id_field POINT measure_field". *)
Definition MakeRouteEventLayer
    (in_routes route_id_field in_table event_id_field measure_field
     out_layer : string) : M unit :=
  routes ← lookup_dataset in_routes (ExecuteError "routes do not exist");
  events ← lookup_dataset in_table (ExecuteError "table does not exist");
  if has_field routes route_id_field && has_field events event_id_field
     && has_field events measure_field
  then
    check_output out_layer;;
    store_dataset out_layer
      (mkDataset
         (fields events ++ [mkField "LOC_ANGLE" "DOUBLE" 8])
         (omap (locate_event route_id_field event_id_field measure_field
                             (rows routes))
               (rows events)))
  else raise (ExecuteError "field does not exist").

(** ** The scripts *)

(** The rounding of the scripts' float arithmetic. *)
Context {R : Rounding}.

(** [math.cos], [math.sin] and [math.radians]. *)
Variable cos sin radians : Q -> Q.

(** get_field (createPointEventTable.py, lines 16-19; the same text in
    the other scripts):
<<
    return [f for f in arcpy.Describe(dataset).fields
            if f.name in field_name][0]
>> *)
Definition get_field (dataset field_name : string) : M Field :=
  fs ← Describe_fields dataset;
  index (List.filter (fun f => str_in (f_name f) field_name) fs) 0.

(** [line.firstPoint.M] and [line.lastPoint.M], for [line] the value of a
    SHAPE@ token. *)
Definition firstPoint_M (line : value) : M (option Q) :=
  match line with
  | VShape (PolylineShape p) => mret (firstM p)
  | VShape (PointShape _ _) => mret None
  | _ => raise AttributeError
  end.

Definition lastPoint_M (line : value) : M (option Q) :=
  match line with
  | VShape (PolylineShape p) => mret (lastM p)
  | VShape (PointShape _ _) => mret None
  | _ => raise AttributeError
  end.

(** The body of the loop over the routes of create_point_event_table
    (createPointEventTable.py, lines 63-67), for the tuple [row] of the
    search cursor:
<<
        line = row[1]
        first_measure = float(line.firstPoint.M)
        last_measure = float(line.lastPoint.M)
        for measure in frange(first_measure, last_measure, measure_interval):
            icursor.insertRow((row[0], measure))
>>
    [fuel] bounds the resumptions of the [frange] generator. *)
Definition insert_events (fuel : nat) (out_table : string)
    (update_fields : list string) (measure_interval : Q) (row : list value)
    : M unit :=
  line ← index row 1;
  m ← firstPoint_M line;
  first_measure ← float m;
  m ← lastPoint_M line;
  last_measure ← float m;
  for_gen (frange_next last_measure measure_interval) fuel first_measure
    (fun measure =>
       id ← index row 0;
       insertRow out_table update_fields [id; VNum measure]).

(** create_point_event_table (createPointEventTable.py, lines 33-69). *)
Definition create_point_event_table (fuel : nat)
    (in_routes route_id_field_name : string) (measure_interval : Q)
    (out_table : string) : M string :=
  (* get information about the route_id field *)
  route_id_field ← get_field in_routes route_id_field_name;
  let route_id_field_type := f_type route_id_field in
  let route_id_field_length := f_length route_id_field in
  (* create the output table: path, name = os.path.split(out_table) *)
  CreateTable out_table;;
  AddField out_table route_id_field_name route_id_field_type
           (Some route_id_field_length);;
  AddField out_table "Measure" "DOUBLE" None;;
  (* populate the event table using cursors *)
  let search_fields := [route_id_field_name; "SHAPE@"] in
  let update_fields := [route_id_field_name; "Measure"] in
  InsertCursor out_table update_fields;;
  cursor ← SearchCursor in_routes search_fields [];
  for_each cursor
           (insert_events fuel out_table update_fields measure_interval);;
  mret out_table.

(** What create_point_event_table reads from a route: the measures of its
    first and last point, or the exception the reading raises. *)
Definition route_range (route : Row) : result (Q * Q) :=
  match shape route with
  | PolylineShape p =>
      match firstM p, lastM p with
      | Some first_measure, Some last_measure =>
          Ok (first_measure, last_measure)
      | _, _ => Raised TypeError
      end
  | PointShape _ _ => Raised TypeError
  | NoShape => Raised AttributeError
  end.

(** The record [insertRow((row[0], measure))] adds to the event table. *)
Definition event_row (route_id_field_name : string) (id : value) (measure : Q)
    : Row :=
  write_row [route_id_field_name; "Measure"] [id; VNum measure]
            (mkRow NoShape ∅).

(** The records the loops of create_point_event_table add for the
    [routes], in order, and how the loops end. *)
Fixpoint route_events (fuel : nat) (route_id_field_name : string)
    (measure_interval : Q) (routes : list Row) : list Row * result unit :=
  match routes with
  | [] => ([], Ok tt)
  | route :: rest =>
      match route_range route with
      | Ok (first_measure, last_measure) =>
          let next := frange_next last_measure measure_interval in
          let evs :=
            map (event_row route_id_field_name
                           (read_token route route_id_field_name))
                (first_yields next fuel first_measure) in
          match collect next fuel first_measure with
          | Some _ =>
              let rest_evs :=
                route_events fuel route_id_field_name measure_interval rest in
              (evs ++ fst rest_evs, snd rest_evs)
          | None => (evs, Running)
          end
      | Raised e => ([], Raised e)
      | Running => ([], Running)
      end
  end.

(** The event table create_point_event_table sets up before it fills it. *)
Definition event_table (route_id_field_name : string) (route_id_field : Field)
    : Dataset :=
  add_field
    (add_field (mkDataset [] []) route_id_field_name (f_type route_id_field)
               (Some (f_length route_id_field)))
    "Measure" "DOUBLE" None.

(** The fields of the update cursor of create_route_by_length. *)
Definition update_fields : list string :=
  ["FromMeasure"; "ToMeasure"; "SHAPE@LENGTH"].

(** The body of the update loop of create_route_by_length, at the record
    [i] of the cursor:
<<
        row[0] = 0
        row[1] = row[2]
        cursor.updateRow(row)
>> *)
Definition set_measures (the_line : string) (update_fields : list string)
    (i : nat) : M unit :=
  row ← fetch the_line update_fields i;
  let row := <[0%nat := VNum 0]> row in
  v ← index row 2;
  let row := <[1%nat := v]> row in
  updateRow the_line update_fields i row.

(** create_route_by_length (create_route_by_length.py, lines 15-50). *)
Definition create_route_by_length
    (in_features route_id_field route_feature_class : string) : M string :=
  (* create a unique in_memory name *)
  the_line ← CreateUniqueName "theLine" "in_memory";
  (* copy to memory *)
  CopyFeatures in_features the_line;;
  (* add fields (both NULLABLE and NON_REQUIRED) *)
  AddField the_line "FromMeasure" "DOUBLE" None;;
  AddField the_line "ToMeasure" "DOUBLE" None;;
  (* update the in_memory table *)
  cursor ← UpdateCursor the_line update_fields;
  for_each cursor (set_measures the_line update_fields);;
  (* create route *)
  CreateRoutes the_line route_id_field route_feature_class
               "FromMeasure" "ToMeasure";;
  (* delete the in_memory line *)
  Delete the_line;;
  mret route_feature_class.

(** What the update loop leaves in a record: measures from 0 to the length
    of the record's geometry. *)
Definition by_length (r : Row) : Row :=
  mkRow (shape r)
        (<["ToMeasure" := read_token r "SHAPE@LENGTH"]>
           (<["FromMeasure" := VNum 0]> (attrs r))).

(** A route whose measures come from the geometry of the [lines] alone: it
    starts at measure 0 and ends at the length of a line that carries the
    route's identifier. *)
Definition route_by_length (lines : list Row) (id_field : string)
    (id : value) (route : Polyline) : Prop :=
  firstM route = Some 0 /\
  exists (line : Row) (p : Polyline),
    line ∈ lines /\ shape line = PolylineShape p /\
    value_eqb (attr (by_length line) id_field) id = true /\
    lastM route = Some (shape_length p).

(** The in_memory copy of the lines [d] at the call of CreateRoutes. *)
Definition line_copy (d : Dataset) : Dataset :=
  let d1 := add_field d "FromMeasure" "DOUBLE" None in
  let d2 := add_field d1 "ToMeasure" "DOUBLE" None in
  mkDataset (fields d2) (map by_length (rows d)).

Definition unpack_xy (v : value) : M (Q * Q) :=
  match v with
  | VXY x y => mret (x, y)
  | _ => raise TypeError
  end.

Definition number (v : value) : M Q :=
  match v with
  | VNum q => mret q
  | _ => raise TypeError
  end.

(** The geometry built for one station (stationPointsAndCrossSections.py,
    lines 192-205). *)
Definition cross_section_line (distance mid_x mid_y angle : Q) : Polyline :=
  let bearing := radians angle in
  let from_x := fadd mid_x (fmul distance (cos bearing)) in
  let from_y := fadd mid_y (fmul distance (sin bearing)) in
  let to_x := fsub mid_x (fmul distance (cos bearing)) in
  let to_y := fsub mid_y (fmul distance (sin bearing)) in
  let from_point := (from_x, from_y) in
  let to_point := (to_x, to_y) in
  let mid_point := (mid_x, mid_y) in
  (* three point line *)
  mkPolyline [[from_point; mid_point; to_point]] None None.

(** The fields of the two cursors of create_cross_section. *)
Definition search_fields (route_id_field_name : string) : list string :=
  ["SHAPE@XY"; route_id_field_name; "Measure"; "LOC_ANGLE"].

Definition insert_fields (route_id_field_name : string) : list string :=
  ["SHAPE@"; route_id_field_name; "Measure"].

(** The body of the loop over the stations of create_cross_section
    (stationPointsAndCrossSections.py, lines 192-206), for the tuple [row]
    of the search cursor. *)
Definition insert_section (out_cross_section_feature_class : string)
    (insert_fields : list string) (distance : Q) (row : list value)
    : M unit :=
  xy ← index row 0;
  '(mid_x, mid_y) ← unpack_xy xy;
  angle ← index row 3;
  angle ← number angle;
  let polyline := cross_section_line distance mid_x mid_y angle in
  id ← index row 1;
  measure ← index row 2;
  insertRow out_cross_section_feature_class insert_fields
            [VShape (PolylineShape polyline); id; measure].

(** create_cross_section (stationPointsAndCrossSections.py, lines
    165-206). *)
Definition create_cross_section
    (station_feature_class route_id_field_name : string)
    (cross_section_width : Q) (out_cross_section_feature_class : string)
    : M unit :=
  (* create the output feature class:
     path, name = os.path.split(out_cross_section_feature_class) *)
  CreateFeatureclass out_cross_section_feature_class "POLYLINE"
                     station_feature_class;;
  (* get information about the route_id field *)
  route_id_field ← get_field station_feature_class route_id_field_name;
  let route_id_field_type := f_type route_id_field in
  let route_id_field_length := f_length route_id_field in
  AddField out_cross_section_feature_class route_id_field_name
           route_id_field_type (Some route_id_field_length);;
  AddField out_cross_section_feature_class "Measure" "DOUBLE" None;;
  let distance := fdiv cross_section_width 2 in
  let search_fields := search_fields route_id_field_name in
  let insert_fields := insert_fields route_id_field_name in
  InsertCursor out_cross_section_feature_class insert_fields;;
  cursor ← SearchCursor station_feature_class search_fields
             [route_id_field_name; "Measure"];
  for_each cursor
           (insert_section out_cross_section_feature_class insert_fields
                           distance).

(** The record create_cross_section adds for a [station], or the exception
    its tuple raises. *)
Definition station_section (route_id_field_name : string) (distance : Q)
    (station : Row) : result Row :=
  match read_token station "SHAPE@XY" with
  | VXY mid_x mid_y =>
      match read_token station "LOC_ANGLE" with
      | VNum angle =>
          Ok (write_row
                (insert_fields route_id_field_name)
                [VShape (PolylineShape
                           (cross_section_line distance mid_x mid_y angle));
                 read_token station route_id_field_name;
                 read_token station "Measure"]
                (mkRow NoShape ∅))
      | _ => Raised TypeError
      end
  | _ => Raised TypeError
  end.

(** The records the loop of create_cross_section adds for the [stations],
    in order, and how the loop ends. *)
Fixpoint sections (route_id_field_name : string) (distance : Q)
    (stations : list Row) : list Row * result unit :=
  match stations with
  | [] => ([], Ok tt)
  | station :: rest =>
      match station_section route_id_field_name distance station with
      | Ok section =>
          let rest_sections := sections route_id_field_name distance rest in
          (section :: fst rest_sections, snd rest_sections)
      | Raised e => ([], Raised e)
      | Running => ([], Running)
      end
  end.

(** The feature class create_cross_section sets up before it fills it. *)
Definition section_table (route_id_field_name : string)
    (route_id_field : Field) : Dataset :=
  add_field
    (add_field (mkDataset [] []) route_id_field_name (f_type route_id_field)
               (Some (f_length route_id_field)))
    "Measure" "DOUBLE" None.

(** [if arcpy.Exists(p): arcpy.management.Delete(p)] *)
Definition delete_if_exists (p : string) : M unit :=
  Exists p ≫= fun b : bool => if b then Delete p else mret tt.

(** PointsAlongLine.execute (createPointsAlongLine.py, lines 196-235). *)
Definition PointsAlongLine_execute (fuel : nat)
    (in_line_features route_id_field : string) (measure_interval : Q)
    (out_point_feature_class out_route_feature_class : string) : M unit :=
  set_overwriteOutput true;;
  create_route_by_length in_line_features route_id_field
                         out_route_feature_class;;
  event_tbl ← CreateUniqueName "event_table" "in_memory";
  create_point_event_table fuel out_route_feature_class route_id_field
                           measure_interval event_tbl;;
  MakeRouteEventLayer out_route_feature_class route_id_field event_tbl
                      route_id_field "Measure" "Point Events";;
  CopyFeatures "Point Events" out_point_feature_class;;
  (* cleanup *)
  delete_if_exists event_tbl;;
  delete_if_exists "Point Events".

(** StationPointsAndCrossSections.execute
    (stationPointsAndCrossSections.py, lines 316-350). *)
Definition StationPointsAndCrossSections_execute (fuel : nat)
    (in_line_features route_id_field : string)
    (station_interval cross_section_width : Q)
    (out_route_feature_class out_station_feature_class
     out_cross_section_feature_class : string) : M unit :=
  set_overwriteOutput true;;
  create_route_by_length in_line_features route_id_field
                         out_route_feature_class;;
  event_tbl ← CreateUniqueName "event_table" "in_memory";
  create_point_event_table fuel out_route_feature_class route_id_field
                           station_interval event_tbl;;
  MakeRouteEventLayer out_route_feature_class route_id_field event_tbl
                      route_id_field "Measure" "Point Events";;
  CopyFeatures "Point Events" out_station_feature_class;;
  create_cross_section out_station_feature_class route_id_field
                       cross_section_width
                       out_cross_section_feature_class.
End Engine.

(** ** A concrete engine for worked examples

    Distances are exact on axis-parallel segments, the locator walks the
    vertices of a route and interpolates, and the trigonometric functions
    are tabulated at the quarter turns; angles stay in degrees ([radians]
    is the identity and the table is indexed by degrees). *)
Module Demo.
Definition dist (a b : Q * Q) : Q :=
  Qabs (fst b - fst a) + Qabs (snd b - snd a).

Definition quarter (angle : Q) : Z := (Qfloor (angle / 90) mod 4)%Z.

Definition cos (angle : Q) : Q :=
  match quarter angle with
  | 0%Z => 1
  | 2%Z => -1
  | _ => 0
  end.

Definition sin (angle : Q) : Q :=
  match quarter angle with
  | 1%Z => 1
  | 3%Z => -1
  | _ => 0
  end.

Definition radians (angle : Q) : Q := angle.

(** The point at distance [d] from the start of the vertex list, and the
    angle of the normal there: 90 on a segment along x, 0 otherwise. *)
Fixpoint walk (vs : list (Q * Q)) (d : Q) : option (Q * Q * Q) :=
  match vs with
  | a :: ((b :: _) as tl) =>
      let len := dist a b in
      if Qle_bool d len && negb (Qeq_bool len 0) then
        let t := d / len in
        Some (fst a + t * (fst b - fst a), snd a + t * (snd b - snd a),
              if Qeq_bool (snd a) (snd b) then 90 else 0)
      else walk tl (d - len)
  | _ => None
  end.

Definition locate (p : Polyline) (m : Q) : option (Q * Q * Q) :=
  match firstM p with
  | Some f => if Qle_bool f m then walk (concat (parts p)) (m - f) else None
  | None => None
  end.

(** A feature class with one straight line of length 100 from (0,0) to
    (100,0), identifier "A"; it carries stale measure attributes. *)
Definition line_A : Row :=
  mkRow (PolylineShape (mkPolyline [[(0, 0); (100, 0)]] None None))
        {[ "NAME" := VStr "A"; "FromMeasure" := VNum 7;
           "ToMeasure" := VNum 8 ]}.

Definition lines : Dataset :=
  mkDataset [mkField "NAME" "String" 20; mkField "FromMeasure" "Double" 8;
             mkField "ToMeasure" "Double" 8]
            [line_A].

Definition world : World := mkWorld {[ "lines" := lines ]} false.

(** A feature class with one line "B" of two parts, of lengths 10 and 5. *)
Definition line_B : Row :=
  mkRow (PolylineShape
           (mkPolyline [[(0, 0); (10, 0)]; [(20, 0); (20, 5)]] None None))
        {[ "NAME" := VStr "B" ]}.

Definition split_lines : Dataset :=
  mkDataset [mkField "NAME" "String" 20] [line_B].

Definition split_world : World :=
  mkWorld {[ "split_lines" := split_lines ]} false.

(** The routes create_route_by_length makes of [lines]. *)
Definition route_A : Row :=
  mkRow (PolylineShape
           (mkPolyline [[(0, 0); (100, 0)]] (Some 0) (Some 100)))
        {[ "NAME" := VStr "A" ]}.

Definition routes : Dataset :=
  mkDataset [mkField "NAME" "String" 20] [route_A].

Definition routes_world : World :=
  mkWorld {[ "lines" := lines; "routes" := routes ]} false.

(** The stations on that route at every 25 units, as located events. *)
Definition station (m : Q) : Row :=
  mkRow (PointShape m 0)
        {[ "NAME" := VStr "A"; "Measure" := VNum m; "LOC_ANGLE" := VNum 90 ]}.

Definition stations : Dataset :=
  mkDataset [mkField "NAME" "String" 20; mkField "Measure" "DOUBLE" 8;
             mkField "LOC_ANGLE" "DOUBLE" 8]
            [station 50; station 0; station 75; station 25].

Definition stations_world : World :=
  mkWorld {[ "routes" := routes; "stations" := stations ]} false.

(** The workspace after create_cross_section has run on the stations with
    width 10. *)
Definition sections_world : World :=
  fst (create_cross_section dist cos sin radians "stations" "NAME" 10 "xs"
         stations_world).

(** Routes whose identifier field is called "ID". *)
Definition id_routes : Dataset :=
  mkDataset [mkField "ID" "Integer" 4; mkField "NAME" "String" 20]
            [mkRow (PolylineShape
                      (mkPolyline [[(0, 0); (100, 0)]] (Some 0) (Some 100)))
                   {[ "ID" := VNum 1; "NAME" := VStr "A" ]}].

Definition id_world : World := mkWorld {[ "id_routes" := id_routes ]} false.

(** Stations of which the second has no angle. *)
Definition bare_station : Row :=
  mkRow (PointShape 25 0) {[ "NAME" := VStr "A"; "Measure" := VNum 25 ]}.

Definition bare_stations : Dataset :=
  mkDataset [mkField "NAME" "String" 20; mkField "Measure" "DOUBLE" 8;
             mkField "LOC_ANGLE" "DOUBLE" 8]
            [station 0; bare_station; station 50].

Definition bare_world : World :=
  mkWorld {[ "stations" := bare_stations ]} false.
End Demo.

(** ** The remaining tools of the scripts *)

Section Tools.
Variable dist : Q * Q -> Q * Q -> Q.
Context {R : Rounding}.

(** CreatePointEventTable.execute (createPointEventTable.py, lines
    132-140) and CreateRouteByLength.execute (create_route_by_length.py,
    lines 107-114): the parameters are handed to the function, whose
    result is dropped. *)
Definition CreatePointEventTable_execute (fuel : nat)
    (in_routes route_id_field_name : string) (measure_interval : Q)
    (out_table : string) : M unit :=
  create_point_event_table dist fuel in_routes route_id_field_name
                           measure_interval out_table;;
  mret tt.

Definition CreateRouteByLength_execute
    (in_line_features route_id_field out_feature_class : string) : M unit :=
  create_route_by_length dist in_line_features route_id_field
                         out_feature_class;;
  mret tt.

(** The fields of the insert cursor of CreateLineEventTable.execute. *)
Definition line_event_fields (route_id_field_name : string) : list string :=
  [route_id_field_name; "FromMeasure"; "ToMeasure"].

(** The body of the loop over the routes of CreateLineEventTable.execute
    (create_line_event_table.py, lines 102-106), for the tuple [row] of the
    search cursor:
<<
        line = row[1]
        first_measure = float(line.firstPoint.M)
        last_measure = float(line.lastPoint.M)
        icursor.insertRow((row[0], first_measure, last_measure))
>> *)
Definition insert_line_event (out_table : string)
    (update_fields : list string) (row : list value) : M unit :=
  line ← index row 1;
  m ← firstPoint_M line;
  first_measure ← float m;
  m ← lastPoint_M line;
  last_measure ← float m;
  id ← index row 0;
  insertRow out_table update_fields
            [id; VNum first_measure; VNum last_measure].

(** CreateLineEventTable.execute (create_line_event_table.py, lines
    79-107). *)
Definition CreateLineEventTable_execute
    (in_routes route_id_field_name out_table : string) : M unit :=
  (* get information about the route_id field *)
  route_id_field ← get_field in_routes route_id_field_name;
  let route_id_field_type := f_type route_id_field in
  let route_id_field_length := f_length route_id_field in
  (* create the output table: path, name = os.path.split(out_table) *)
  CreateTable out_table;;
  AddField out_table route_id_field_name route_id_field_type
           (Some route_id_field_length);;
  AddField out_table "FromMeasure" "DOUBLE" None;;
  AddField out_table "ToMeasure" "DOUBLE" None;;
  (* populate the event table using cursors *)
  let search_fields := [route_id_field_name; "SHAPE@"] in
  let update_fields := line_event_fields route_id_field_name in
  InsertCursor out_table update_fields;;
  cursor ← SearchCursor dist in_routes search_fields [];
  for_each cursor (insert_line_event out_table update_fields).

(** The record CreateLineEventTable.execute adds for a route. *)
Definition line_event_row (route_id_field_name : string) (id : value)
    (first_measure last_measure : Q) : Row :=
  write_row (line_event_fields route_id_field_name)
            [id; VNum first_measure; VNum last_measure]
            (mkRow NoShape ∅).

(** The records the loop of CreateLineEventTable.execute adds for the
    [routes], in order, and how the loop ends. *)
Fixpoint line_events (route_id_field_name : string) (routes : list Row)
    : list Row * result unit :=
  match routes with
  | [] => ([], Ok tt)
  | route :: rest =>
      match route_range route with
      | Ok (first_measure, last_measure) =>
          let rest_evs := line_events route_id_field_name rest in
          (line_event_row route_id_field_name
                          (read_token dist route route_id_field_name)
                          first_measure last_measure
           :: fst rest_evs,
           snd rest_evs)
      | Raised e => ([], Raised e)
      | Running => ([], Running)
      end
  end.

(** The table CreateLineEventTable.execute sets up before it fills it. *)
Definition line_event_table (route_id_field_name : string)
    (route_id_field : Field) : Dataset :=
  add_field
    (add_field
       (add_field (mkDataset [] []) route_id_field_name
                  (f_type route_id_field) (Some (f_length route_id_field)))
       "FromMeasure" "DOUBLE" None)
    "ToMeasure" "DOUBLE" None.
End Tools.

(** ** Tool parameters

    The toolbox hands [updateParameters] the list of the tool's parameter
    objects; of a parameter the scripts read [value] and [altered] and
    assign [value]. *)
Record Param : Type := mkParam {
  p_value : option string;
  p_altered : bool
}.

Section Parameters.
(** [arcpy.Describe(layer).catalogPath], when the description has that
    attribute; [arcpy.env.scratchGDB]; [os.path.split] and
    [os.path.join]. *)
Variable catalogPath : string -> option string.
Variable scratchGDB : string.
Variable os_path_split : string -> string * string.
Variable os_path_join : string -> string -> string.

(** The truth value of [parameters[0].value], and the layer it names. *)
Definition input_layer (p : Param) : option string :=
  match p_value p with
  | Some "" => None
  | v => v
  end.

(** The folder the default outputs go to. *)
Definition default_folder (layer : string) : string :=
  match catalogPath layer with
  | Some p => fst (os_path_split p)
  | None => scratchGDB
  end.

(** [if not parameters[i].altered: parameters[i].value = v] *)
Definition set_default (i : nat) (v : string) (parameters : list Param)
    : result (list Param) :=
  match parameters !! i with
  | None => Raised IndexError
  | Some p =>
      if p_altered p then Ok parameters
      else Ok (<[i := mkParam (Some v) (p_altered p)]> parameters)
  end.

(** StationPointsAndCrossSections.updateParameters
    (stationPointsAndCrossSections.py, lines 291-309). *)
Definition StationPointsAndCrossSections_updateParameters
    (parameters : list Param) : result (list Param) :=
  match parameters !! 0%nat with
  | None => Raised IndexError
  | Some p0 =>
      match input_layer p0 with
      | None => Ok parameters
      | Some layer =>
          let path := default_folder layer in
          match set_default 4 (os_path_join path "out_route") parameters with
          | Ok parameters =>
              match set_default 5 (os_path_join path "out_points")
                                parameters with
              | Ok parameters =>
                  set_default 6 (os_path_join path "out_xsection") parameters
              | r => r
              end
          | r => r
          end
      end
  end.

(** PointsAlongLine.updateParameters (createPointsAlongLine.py, lines
    173-189). *)
Definition PointsAlongLine_updateParameters
    (parameters : list Param) : result (list Param) :=
  match parameters !! 0%nat with
  | None => Raised IndexError
  | Some p0 =>
      match input_layer p0 with
      | None => Ok parameters
      | Some layer =>
          let path := default_folder layer in
          match set_default 3 (os_path_join path "out_points") parameters with
          | Ok parameters =>
              set_default 4 (os_path_join path "out_route") parameters
          | r => r
          end
      end
  end.
End Parameters.

(** The parameter [p] after [if not p.altered: p.value = v]. *)
Definition default_value (v : string) (p : Param) : Param :=
  if p_altered p then p else mkParam (Some v) (p_altered p).

(** What [updateParameters] may do to the parameters [ps], giving [ps']:
    the list keeps its length, every parameter keeps its [altered] flag,
    and a parameter that the user has altered, or that is not one of the
    [outputs], is as it was. *)
Definition keeps_user_values (outputs : list nat) (ps ps' : list Param)
    : Prop :=
  length ps' = length ps /\
  forall i p,
    ps !! i = Some p ->
    exists p',
      ps' !! i = Some p' /\ p_altered p' = p_altered p /\
      (p_altered p = true \/ i ∉ outputs -> p' = p).

(** A concrete toolbox for worked examples: the layer "lines" lies in
    the folder "data.gdb", other layers have no catalog path. *)
Module DemoTool.
Definition catalogPath (layer : string) : option string :=
  if String.eqb layer "lines" then Some "data.gdb/lines" else None.

Definition scratchGDB : string := "scratch.gdb".

Definition os_path_split (p : string) : string * string :=
  if String.eqb p "data.gdb/lines" then ("data.gdb", "lines") else ("", p).

Definition os_path_join (a b : string) : string := a +:+ "/" +:+ b.

Definition unset : Param := mkParam None false.

(** The parameters of StationPointsAndCrossSections after the user has
    picked the lines and typed an own name for the stations. *)
Definition station_parameters : list Param :=
  [mkParam (Some "lines") true; unset; unset; unset; unset;
   mkParam (Some "my_stations") true; unset].

(** The parameters of PointsAlongLine after the user has picked a layer
    without catalog path. *)
Definition point_parameters : list Param :=
  [mkParam (Some "sketch") true; unset; unset; unset; unset].
End DemoTool.

(** ** Side conditions of the tools

    A call that leaves [arcpy.env.overwriteOutput] as it found it, however
    it ends. *)
Definition keeps_overwriteOutput {A : Type} (m : M A) : Prop :=
  forall w : World, overwriteOutput (fst (m w)) = overwriteOutput w.

(** A dataset is there. *)
Definition exists_in (w : World) (p : string) : Prop :=
  is_Some (datasets w !! p).

(** * Properties *)

(** ** Numbers *)

Lemma Qlt_bool_iff (x y : Q) : Qlt_bool x y = true <-> x < y.
Proof.
  unfold Qlt_bool. rewrite negb_true_iff. split.
  - intros H. apply Qnot_le_lt. intros Hle.
    apply Qle_bool_iff in Hle. congruence.
  - intros H. destruct (Qle_bool y x) eqn:E; [|reflexivity].
    apply Qle_bool_iff in E. exfalso. exact (Qlt_not_le _ _ H E).
Qed.

Lemma Qlt_bool_false_iff (x y : Q) : Qlt_bool x y = false <-> y <= x.
Proof.
  unfold Qlt_bool. rewrite negb_false_iff. apply Qle_bool_iff.
Qed.

Lemma Qnat_0 : Qnat 0 == 0.
Proof. reflexivity. Qed.

Lemma Qnat_S (k : nat) : Qnat (S k) == Qnat k + 1.
Proof.
  unfold Qnat. rewrite Nat2Z.inj_succ. unfold Z.succ.
  rewrite inject_Z_plus. reflexivity.
Qed.

Lemma Qnat_nonneg (k : nat) : 0 <= Qnat k.
Proof.
  unfold Qnat. change 0 with (inject_Z 0). rewrite <- Zle_Qle. lia.
Qed.

Lemma Qnat_step_nonneg (k : nat) (step : Q) : 0 < step -> 0 <= Qnat k * step.
Proof.
  intros H. apply Qmult_le_0_compat; [apply Qnat_nonneg|].
  apply Qlt_le_weak, H.
Qed.

(** ** Generators *)

Lemma collect_mono {S A : Type} (next : S -> option (A * S)) (fuel : nat) :
  forall s l, collect next fuel s = Some l ->
  forall fuel', (fuel <= fuel')%nat -> collect next fuel' s = Some l.
Proof.
  induction fuel as [|fuel IH]; intros s l H fuel' Hle; [discriminate|].
  destruct fuel' as [|fuel']; [lia|].
  simpl in *. destruct (next s) as [[a s']|]; [|assumption].
  destruct (collect next fuel s') as [l'|] eqn:E; [|discriminate].
  rewrite (IH _ _ E fuel') by lia. assumption.
Qed.

Lemma collect_S {S A : Type} (next : S -> option (A * S)) (fuel : nat)
    (s : S) :
  collect next (Datatypes.S fuel) s
  = match next s with
    | None => Some []
    | Some (a, s') =>
        match collect next fuel s' with
        | Some l => Some (a :: l)
        | None => None
        end
    end.
Proof. reflexivity. Qed.

(** ** Rounding *)

Lemma monotone_comp (f : Q -> Q) :
  monotone f -> forall x y : Q, x == y -> f x == f y.
Proof.
  intros Hf x y Hxy. apply Qle_antisym; apply Hf; rewrite Hxy; apply Qle_refl.
Qed.

Lemma pow2_pos (e : Z) : 0 < 2 ^ e.
Proof. apply Qpower_0_lt. reflexivity. Qed.

Lemma pow2_plus (a b : Z) : 2 ^ (a + b) == 2 ^ a * 2 ^ b.
Proof. apply Qpower_plus. discriminate. Qed.

Lemma pow2_le (a b : Z) : (a <= b)%Z -> 2 ^ a <= 2 ^ b.
Proof. intros H. apply Qpower_le_compat_l; [exact H|discriminate]. Qed.

Lemma pow2_lt (a b : Z) : (a < b)%Z -> 2 ^ a < 2 ^ b.
Proof. intros H. apply Qpower_lt_compat_l; [exact H|reflexivity]. Qed.

Lemma pow2_lt_inv (a b : Z) : 2 ^ a < 2 ^ b -> (a < b)%Z.
Proof. intros H. apply (Qpower_lt_compat_l_inv 2); [exact H|reflexivity]. Qed.

Lemma pow2_Z (k : Z) : (0 <= k)%Z -> inject_Z (2 ^ k) == 2 ^ k.
Proof. intros H. apply (Zpower_Qpower 2 k H). Qed.

(** Rounding to the nearest integer keeps the order and fixes the
    integers. *)
Lemma nearest_even_Z (z : Z) : nearest_even (inject_Z z) = z.
Proof.
  unfold nearest_even. rewrite Qfloor_Z.
  destruct (Qcompare_spec (inject_Z z - inject_Z z) (1 # 2)) as [H|H|H];
    [exfalso; lra|reflexivity|exfalso; lra].
Qed.

Lemma nearest_even_cases (s : Q) :
  let k := Qfloor s in
  (s - inject_Z k < 1 # 2 /\ nearest_even s = k) \/
  (s - inject_Z k == 1 # 2 /\
   nearest_even s = if Z.even k then k else (k + 1)%Z) \/
  (1 # 2 < s - inject_Z k /\ nearest_even s = (k + 1)%Z).
Proof.
  cbv zeta. unfold nearest_even.
  destruct (Qcompare_spec (s - inject_Z (Qfloor s)) (1 # 2)) as [H|H|H]; auto.
Qed.

Lemma nearest_even_mono (s t : Q) :
  s <= t -> (nearest_even s <= nearest_even t)%Z.
Proof.
  intros Hst.
  pose proof (Qfloor_resp_le s t Hst) as Hk.
  pose proof (Qfloor_le s) as Hs1. pose proof (Qlt_floor s) as Hs2.
  pose proof (Qfloor_le t) as Ht1. pose proof (Qlt_floor t) as Ht2.
  destruct (nearest_even_cases s) as [[Hs ->]|[[Hs ->]|[Hs ->]]];
  destruct (nearest_even_cases t) as [[Ht ->]|[[Ht ->]|[Ht ->]]];
  destruct (Z.eq_dec (Qfloor s) (Qfloor t)) as [E|E];
  try rewrite E in *;
  try (destruct (Z.even (Qfloor s))); try (destruct (Z.even (Qfloor t)));
  try lia; exfalso; lra.
Qed.

Lemma nearest_even_comp (s t : Q) : s == t -> nearest_even s = nearest_even t.
Proof.
  intros H. apply Z.le_antisymm; apply nearest_even_mono; lra.
Qed.

(** So does rounding to a multiple of [2^e]. *)
Lemma round_at_mono (e : Z) (x y : Q) :
  x <= y -> round_at e x <= round_at e y.
Proof.
  intros H. unfold round_at. pose proof (pow2_pos e) as Hp.
  apply Qmult_le_compat_r; [|lra].
  rewrite <- Zle_Qle. apply nearest_even_mono.
  apply Qmult_le_compat_r; [exact H|].
  apply Qlt_le_weak, Qinv_lt_0_compat, Hp.
Qed.

Lemma round_at_comp (e : Z) (x y : Q) : x == y -> round_at e x == round_at e y.
Proof. intros H. apply Qle_antisym; apply round_at_mono; lra. Qed.

Lemma round_at_fix (e : Z) (z : Z) :
  round_at e (inject_Z z * 2 ^ e) == inject_Z z * 2 ^ e.
Proof.
  unfold round_at. pose proof (pow2_pos e) as Hp.
  assert (H : inject_Z z * 2 ^ e / 2 ^ e == inject_Z z) by (field; lra).
  rewrite (nearest_even_comp _ _ H), nearest_even_Z. reflexivity.
Qed.

Lemma round_at_0 (e : Z) : round_at e 0 == 0.
Proof.
  rewrite (round_at_comp e 0 (inject_Z 0 * 2 ^ e)) by ring.
  rewrite round_at_fix. ring.
Qed.

Lemma round_at_pow2 (e k : Z) :
  (0 <= k)%Z -> round_at e (2 ^ (e + k)) == 2 ^ (e + k).
Proof.
  intros Hk.
  assert (H : 2 ^ (e + k) == inject_Z (2 ^ k) * 2 ^ e).
  { rewrite pow2_plus, pow2_Z by exact Hk. ring. }
  rewrite (round_at_comp _ _ _ H), round_at_fix. symmetry. exact H.
Qed.

Lemma round_at_opp_pow2 (e k : Z) :
  (0 <= k)%Z -> round_at e (- 2 ^ (e + k)) == - 2 ^ (e + k).
Proof.
  intros Hk.
  assert (H : - 2 ^ (e + k) == inject_Z (- 2 ^ k) * 2 ^ e).
  { rewrite pow2_plus, inject_Z_opp, pow2_Z by exact Hk. ring. }
  rewrite (round_at_comp _ _ _ H), round_at_fix. symmetry. exact H.
Qed.

(** [ilog2 q] is the exponent of the power of two at or below [|q|]. *)
Lemma Qabs_num_den (q : Q) :
  Qabs q == inject_Z (Z.abs (Qnum q)) / inject_Z (Zpos (Qden q)).
Proof.
  destruct q as [n d]. unfold Qabs. cbn [Qnum Qden].
  apply Qmake_Qdiv.
Qed.

Lemma ilog2_bounds (q : Q) :
  ~ q == 0 -> 2 ^ ilog2 q <= Qabs q /\ Qabs q < 2 ^ (ilog2 q + 1).
Proof.
  intros Hq.
  set (n := Z.abs (Qnum q)). set (d := Zpos (Qden q)).
  assert (Hn : (0 < n)%Z).
  { unfold n. destruct q as [[|p|p] dq]; cbn; try lia.
    exfalso. apply Hq. reflexivity. }
  assert (Hd : (0 < d)%Z) by (unfold d; lia).
  pose proof (Z.log2_spec n Hn) as [Hn1 Hn2].
  pose proof (Z.log2_spec d Hd) as [Hd1 Hd2].
  pose proof (Z.log2_nonneg n) as Hln. pose proof (Z.log2_nonneg d) as Hld.
  rewrite Zle_Qle, pow2_Z in Hn1, Hd1 by assumption.
  rewrite Zlt_Qlt, pow2_Z in Hn2, Hd2 by lia.
  assert (Habs : Qabs q == inject_Z n / inject_Z d) by apply Qabs_num_den.
  assert (Hdq : 0 < inject_Z d) by (rewrite Zlt_Qlt in Hd; exact Hd).
  set (k := (Z.log2 n - Z.log2 d)%Z).
  assert (Hup : Qabs q < 2 ^ (k + 1)).
  { rewrite Habs. apply Qlt_shift_div_r; [exact Hdq|].
    assert (HP : 2 ^ (k + 1) * 2 ^ Z.log2 d == 2 ^ Z.succ (Z.log2 n)).
    { rewrite <- pow2_plus. replace (k + 1 + Z.log2 d)%Z
        with (Z.succ (Z.log2 n)) by (unfold k; lia). reflexivity. }
    apply Qlt_le_trans with (2 ^ (k + 1) * 2 ^ Z.log2 d);
      [rewrite HP; exact Hn2|].
    apply Qmult_le_l; [apply pow2_pos|exact Hd1]. }
  assert (Hlow : 2 ^ (k - 1) <= Qabs q).
  { rewrite Habs. apply Qle_shift_div_l; [exact Hdq|].
    assert (HP : 2 ^ (k - 1) * 2 ^ Z.succ (Z.log2 d) == 2 ^ Z.log2 n).
    { rewrite <- pow2_plus. replace (k - 1 + Z.succ (Z.log2 d))%Z
        with (Z.log2 n) by (unfold k; lia). reflexivity. }
    apply Qle_trans with (2 ^ (k - 1) * 2 ^ Z.succ (Z.log2 d));
      [|rewrite HP; exact Hn1].
    apply Qmult_le_l; [apply pow2_pos|]. apply Qlt_le_weak, Hd2. }
  unfold ilog2. fold n d k.
  destruct (Qle_bool (2 ^ k) (Qabs q)) eqn:E.
  - apply Qle_bool_iff in E. split; assumption.
  - assert (Hlt : Qabs q < 2 ^ k).
    { apply Qnot_le_lt. intros H. apply Qle_bool_iff in H. congruence. }
    replace (k - 1 + 1)%Z with k by lia. split; assumption.
Qed.

Lemma ilog2_unique (q : Q) (k : Z) :
  2 ^ k <= Qabs q -> Qabs q < 2 ^ (k + 1) -> ilog2 q = k.
Proof.
  intros H1 H2.
  assert (Hq : ~ q == 0).
  { intros H. pose proof (pow2_pos k).
    assert (Qabs q == 0) by (rewrite H; reflexivity). lra. }
  destruct (ilog2_bounds q Hq) as [B1 B2].
  assert (k < ilog2 q + 1)%Z by (apply pow2_lt_inv; lra).
  assert (ilog2 q < k + 1)%Z by (apply pow2_lt_inv; lra).
  lia.
Qed.

Lemma ilog2_comp (x y : Q) : x == y -> ~ x == 0 -> ilog2 x = ilog2 y.
Proof.
  intros H Hx. destruct (ilog2_bounds x Hx) as [B1 B2].
  symmetry. apply ilog2_unique; rewrite <- H; assumption.
Qed.

Lemma ilog2_mono (x y : Q) :
  ~ x == 0 -> ~ y == 0 -> Qabs x <= Qabs y -> (ilog2 x <= ilog2 y)%Z.
Proof.
  intros Hx Hy H.
  destruct (ilog2_bounds x Hx) as [X1 X2].
  destruct (ilog2_bounds y Hy) as [Y1 Y2].
  assert (ilog2 x < ilog2 y + 1)%Z by (apply pow2_lt_inv; lra).
  lia.
Qed.

(** The 53 bits of [q] start at [ulp_exponent q]. *)
Lemma ulp_exponent_upper (q : Q) :
  ~ q == 0 -> Qabs q < 2 ^ (ulp_exponent q + 53).
Proof.
  intros Hq. destruct (ilog2_bounds q Hq) as [_ B].
  apply Qlt_le_trans with (2 ^ (ilog2 q + 1)); [exact B|].
  apply pow2_le. unfold ulp_exponent. lia.
Qed.

Lemma ulp_exponent_lower (q : Q) :
  ~ q == 0 -> (-1074 < ulp_exponent q)%Z -> 2 ^ (ulp_exponent q + 52) <= Qabs q.
Proof.
  intros Hq He. destruct (ilog2_bounds q Hq) as [B _].
  replace (ulp_exponent q + 52)%Z with (ilog2 q); [exact B|].
  unfold ulp_exponent in *. lia.
Qed.

Lemma ulp_exponent_mono (x y : Q) :
  ~ x == 0 -> ~ y == 0 -> Qabs x <= Qabs y ->
  (ulp_exponent x <= ulp_exponent y)%Z.
Proof.
  intros Hx Hy H. pose proof (ilog2_mono x y Hx Hy H).
  unfold ulp_exponent. lia.
Qed.

(** [binary64] keeps the order: within one exponent as [round_at] does,
    and across exponents because a power of two between the two numbers
    is held by both. *)
Lemma binary64_mono (x y : Q) : x <= y -> binary64 x <= binary64 y.
Proof.
  intros Hxy. unfold binary64. rewrite !Qred_correct.
  set (ex := ulp_exponent x). set (ey := ulp_exponent y).
  destruct (Qlt_le_dec 0 x) as [Hx|Hx].
  - (* 0 < x <= y *)
    assert (Hy : 0 < y) by lra.
    assert (Hx0 : ~ x == 0) by lra. assert (Hy0 : ~ y == 0) by lra.
    assert (Ax : Qabs x == x) by (apply Qabs_pos; lra).
    assert (Ay : Qabs y == y) by (apply Qabs_pos; lra).
    assert (He : (ex <= ey)%Z).
    { apply ulp_exponent_mono; try assumption. rewrite Ax, Ay. exact Hxy. }
    destruct (Z.eq_dec ex ey) as [E|E].
    { rewrite E. apply round_at_mono, Hxy. }
    pose proof (ulp_exponent_upper x Hx0) as U. fold ex in U. rewrite Ax in U.
    assert (L : 2 ^ (ey + 52) <= y).
    { rewrite <- Ay. apply ulp_exponent_lower; [exact Hy0|].
      fold ey. assert (-1074 <= ex)%Z by (unfold ex, ulp_exponent; lia). lia. }
    apply Qle_trans with (round_at ex (2 ^ (ex + 53)));
      [apply round_at_mono; lra|].
    rewrite round_at_pow2 by lia.
    apply Qle_trans with (2 ^ (ey + 52)); [apply pow2_le; lia|].
    rewrite <- (round_at_pow2 ey 52) by lia.
    apply round_at_mono, L.
  - destruct (Qlt_le_dec y 0) as [Hy|Hy].
    + (* x <= y < 0 *)
      assert (Hx' : x < 0) by lra.
      assert (Hx0 : ~ x == 0) by lra. assert (Hy0 : ~ y == 0) by lra.
      assert (Ax : Qabs x == - x) by (apply Qabs_neg; lra).
      assert (Ay : Qabs y == - y) by (apply Qabs_neg; lra).
      assert (He : (ey <= ex)%Z).
      { apply ulp_exponent_mono; try assumption. rewrite Ax, Ay. lra. }
      destruct (Z.eq_dec ex ey) as [E|E].
      { rewrite E. apply round_at_mono, Hxy. }
      pose proof (ulp_exponent_upper y Hy0) as U. fold ey in U. rewrite Ay in U.
      assert (L : 2 ^ (ex + 52) <= - x).
      { rewrite <- Ax. apply ulp_exponent_lower; [exact Hx0|].
        fold ex. assert (-1074 <= ey)%Z by (unfold ey, ulp_exponent; lia). lia. }
      apply Qle_trans with (round_at ex (- 2 ^ (ex + 52)));
        [apply round_at_mono; lra|].
      rewrite round_at_opp_pow2 by lia.
      apply Qle_trans with (- 2 ^ (ey + 53)).
      { assert (2 ^ (ey + 53) <= 2 ^ (ex + 52)) by (apply pow2_le; lia). lra. }
      rewrite <- (round_at_opp_pow2 ey 53) by lia.
      apply round_at_mono. lra.
    + (* x <= 0 <= y *)
      apply Qle_trans with 0.
      * rewrite <- (round_at_0 ex). apply round_at_mono, Hx.
      * rewrite <- (round_at_0 ey). apply round_at_mono, Hy.
Qed.

Lemma binary64_fix (w : Q) (e m : Z) :
  w == inject_Z m * 2 ^ e -> (-1074 <= e)%Z -> Qabs w <= 2 ^ (e + 53) ->
  binary64 w == w.
Proof.
  intros Hw He Hb. unfold binary64. rewrite Qred_correct.
  destruct (Qeq_dec w 0) as [H0|H0].
  { rewrite (round_at_comp _ _ _ H0), round_at_0. symmetry. exact H0. }
  set (e' := ulp_exponent w).
  destruct (Qlt_le_dec (Qabs w) (2 ^ (e + 53))) as [Hlt|Hge].
  - assert (Hil : (ilog2 w < e + 53)%Z).
    { destruct (ilog2_bounds w H0) as [B _]. apply pow2_lt_inv. lra. }
    assert (He' : (e' <= e)%Z) by (unfold e', ulp_exponent; lia).
    assert (H : w == inject_Z (m * 2 ^ (e - e')) * 2 ^ e').
    { rewrite Hw, inject_Z_mult, pow2_Z by lia.
      replace e with ((e - e') + e')%Z at 1 by lia.
      rewrite pow2_plus. ring. }
    rewrite (round_at_comp _ _ _ H), round_at_fix. symmetry. exact H.
  - assert (Heq : Qabs w == 2 ^ (e + 53)) by lra.
    assert (Hil : ilog2 w = (e + 53)%Z).
    { apply ilog2_unique; [lra|]. rewrite Heq. apply pow2_lt. lia. }
    assert (He' : e' = (e + 1)%Z) by (unfold e', ulp_exponent; lia).
    rewrite He'.
    destruct (Qlt_le_dec w 0) as [Hn|Hp].
    + assert (H : w == - 2 ^ (e + 1 + 52)).
      { rewrite Qabs_neg in Heq by lra.
        replace (e + 1 + 52)%Z with (e + 53)%Z by lia. lra. }
      rewrite (round_at_comp _ _ _ H), round_at_opp_pow2 by lia.
      symmetry. exact H.
    + assert (H : w == 2 ^ (e + 1 + 52)).
      { rewrite Qabs_pos in Heq by lra.
        replace (e + 1 + 52)%Z with (e + 53)%Z by lia. lra. }
      rewrite (round_at_comp _ _ _ H), round_at_pow2 by lia.
      symmetry. exact H.
Qed.

Lemma binary64_idem (q : Q) : binary64 (binary64 q) == binary64 q.
Proof.
  set (e := ulp_exponent q).
  apply (binary64_fix _ e (nearest_even (q / 2 ^ e))).
  - unfold binary64. rewrite Qred_correct. reflexivity.
  - unfold e, ulp_exponent. lia.
  - unfold binary64. rewrite Qred_correct. fold e.
    apply Qabs_Qle_condition.
    destruct (Qeq_dec q 0) as [H0|H0].
    { rewrite (round_at_comp _ _ _ H0), round_at_0.
      pose proof (pow2_pos (e + 53)). lra. }
    pose proof (ulp_exponent_upper q H0) as U. fold e in U.
    apply Qabs_Qlt_condition in U. destruct U as [U1 U2].
    split.
    + rewrite <- (round_at_opp_pow2 e 53) by lia. apply round_at_mono. lra.
    + rewrite <- (round_at_pow2 e 53) by lia. apply round_at_mono. lra.
Qed.

(** [binary64] is a rounding as the theorems below ask for one. *)
Lemma float64_monotone : monotone (rnd (Rounding := float64)).
Proof. intros x y. apply binary64_mono. Qed.

Lemma float64_idempotent : idempotent (rnd (Rounding := float64)).
Proof. intros x. apply binary64_idem. Qed.

(** [binary64] against the machine's binary64 arithmetic: the quotient
    1/10, the sums 0.1 + 0.2 and 1e16 + 1, and a product are rounded as
    the machine rounds them. *)
Example binary64_as_the_machine :
  let tenth := PrimFloat.div 1%float 10%float in
  let fifth := PrimFloat.add tenth tenth in
  let large := 10000000000000000%float in
  Q_of_float tenth = Some (fdiv 1 10) /\
  Q_of_float fifth = Some (fadd (fdiv 1 10) (fdiv 1 10)) /\
  Q_of_float (PrimFloat.add tenth fifth)
  = Some (fadd (fdiv 1 10) (fadd (fdiv 1 10) (fdiv 1 10))) /\
  Q_of_float (PrimFloat.sub fifth tenth)
  = Some (fsub (fadd (fdiv 1 10) (fdiv 1 10)) (fdiv 1 10)) /\
  Q_of_float (PrimFloat.mul tenth (PrimFloat.add tenth fifth))
  = Some (fmul (fdiv 1 10)
               (fadd (fdiv 1 10) (fadd (fdiv 1 10) (fdiv 1 10)))) /\
  Q_of_float (PrimFloat.add large 1%float)
  = Some (fadd 10000000000000000 1) /\
  fadd 10000000000000000 1 = 10000000000000000.
Proof. vm_compute. repeat split. Qed.

(** ** frange *)

Lemma collect_ext {S A : Type} (next1 next2 : S -> option (A * S)) :
  (forall s, next1 s = next2 s) ->
  forall fuel s, collect next1 fuel s = collect next2 fuel s.
Proof.
  intros Hext. induction fuel as [|fuel IH]; intros s; [reflexivity|].
  rewrite !collect_S, Hext. destruct (next2 s) as [[a s']|]; [|reflexivity].
  rewrite IH. reflexivity.
Qed.

Lemma first_yields_ext {S A : Type} (next1 next2 : S -> option (A * S)) :
  (forall s, next1 s = next2 s) ->
  forall n s, first_yields next1 n s = first_yields next2 n s.
Proof.
  intros Hext. induction n as [|n IH]; intros s; [reflexivity|].
  simpl. rewrite Hext. destruct (next2 s) as [[a s']|]; [|reflexivity].
  rewrite IH. reflexivity.
Qed.


Section Stride.
Context {R : Rounding}.
Variables stop step : Q.
Hypothesis step_pos : 0 < step.

Lemma frange_next_pos (r : Q) :
  frange_next stop step r
  = if Qlt_bool r stop then Some (r, fadd r step) else None.
Proof.
  unfold frange_next.
  apply Qlt_bool_iff in step_pos. rewrite step_pos. reflexivity.
Qed.

(** Every value yielded so far is the running sum of its index, and is
    below [stop]. *)
Lemma first_yields_frange (n : nat) :
  forall (r : Q) (k : nat) (x : Q),
  first_yields (frange_next stop step) n r !! k = Some x ->
  x = strides step k r /\ x < stop.
Proof.
  induction n as [|n IH]; intros r k x Hx; [discriminate|].
  simpl in Hx. rewrite frange_next_pos in Hx.
  destruct (Qlt_bool r stop) eqn:Hlt; [|discriminate].
  apply Qlt_bool_iff in Hlt. destruct k as [|k]; simpl in Hx.
  - injection Hx as <-. split; [reflexivity|exact Hlt].
  - exact (IH _ _ _ Hx).
Qed.

(** The run returns once a running sum has reached [stop]. *)
Lemma collect_frange_returns (k : nat) :
  forall r : Q, stop <= strides step k r ->
  exists l, collect (frange_next stop step) (S k) r = Some l.
Proof.
  induction k as [|k IH]; intros r Hr;
    rewrite collect_S, frange_next_pos.
  - destruct (Qlt_bool r stop) eqn:Hlt; [|eauto].
    apply Qlt_bool_iff in Hlt. simpl in Hr. lra.
  - destruct (Qlt_bool r stop) eqn:Hlt; [|eauto].
    destruct (IH (fadd r step) Hr) as [l Hl]. rewrite Hl. eauto.
Qed.


Hypothesis rnd_monotone : monotone rnd.
Hypothesis rnd_idempotent : idempotent rnd.

Lemma representable_fadd (x y : Q) : representable (fadd x y).
Proof. apply rnd_idempotent. Qed.

(** Adding a positive step to a float never gives less. *)
Lemma fadd_step_le (r : Q) : representable r -> r <= fadd r step.
Proof.
  intros Hr. unfold representable in Hr. unfold fadd.
  apply Qle_trans with (rnd r); [lra|]. apply rnd_monotone. lra.
Qed.

Lemma strides_ascend (k : nat) :
  forall r : Q, representable r ->
  r <= strides step k r /\ strides step k r <= strides step (S k) r.
Proof.
  induction k as [|k IH]; intros r Hr.
  - simpl. split; [apply Qle_refl|apply fadd_step_le, Hr].
  - destruct (IH (fadd r step) (representable_fadd r step)) as [H1 H2].
    pose proof (fadd_step_le r Hr). split; [|exact H2].
    change (strides step (S k) r) with (strides step k (fadd r step)).
    lra.
Qed.

Lemma strides_le (r : Q) (i j : nat) :
  representable r -> (i <= j)%nat -> strides step i r <= strides step j r.
Proof.
  intros Hr Hij. induction Hij as [|j Hij IH]; [apply Qle_refl|].
  destruct (strides_ascend j r Hr) as [_ H]. lra.
Qed.

End Stride.

(** Without rounding, the running sums are the spec's [start + k*step]. *)
Lemma strides_unrounded (step : Q) (k : nat) :
  forall r : Q, @strides unrounded step k r == r + Qnat k * step.
Proof.
  induction k as [|k IH]; intros r.
  - cbn [strides]. rewrite Qnat_0. ring.
  - cbn [strides]. rewrite IH, Qnat_S. unfold fadd. cbn [rnd unrounded]. ring.
Qed.

(** The laws of rounding hold of arithmetic without rounding. *)
Lemma unrounded_laws :
  monotone (rnd (Rounding := unrounded)) /\
  idempotent (rnd (Rounding := unrounded)) /\
  forall x : Q, @representable unrounded x.
Proof.
  split; [intros x y Hxy; exact Hxy|].
  split; intros x; apply Qeq_refl.
Qed.



(** The examples of the specification: the end point is left out, also when
    it is a whole number of steps away. *)
Example frange_0_9_3 : frange 4 0 9 3 = Some [0; 3; 6].
Proof. vm_compute. reflexivity. Qed.

Example frange_0_10_3 : frange 5 0 10 3 = Some [0; 3; 6; 9].
Proof. vm_compute. reflexivity. Qed.

(** What the rounding shows.  With the float nearest to 0.1 as step,
    [frange(0.0, 1.0, 0.1)] yields eleven values: the tenth running sum
    is just below 1. *)
Example frange_tenths :
  exists l,
    frange 12 0 1 (fdiv 1 10) = Some l /\
    length l = 11%nat /\
    last l = Some (strides (fdiv 1 10) 10 0) /\
    strides (fdiv 1 10) 10 0 = 1 - (1 # 9007199254740992).
Proof.
  eexists. split; [vm_compute; reflexivity|].
  split; [reflexivity|]. split; vm_compute; reflexivity.
Qed.

(** And [frange(1e16, 1e16 + 4, 1)] never returns: the sum 1e16 + 1 is
    rounded to 1e16. *)
Example frange_large_start :
  forall fuel, frange fuel 10000000000000000 10000000000000004 1 = None.
Proof.
  assert (Hnext : frange_next 10000000000000004 1 10000000000000000
                  = Some (10000000000000000, 10000000000000000))
    by (vm_compute; reflexivity).
  unfold frange. induction fuel as [|fuel IH]; [reflexivity|].
  rewrite collect_S, Hnext, IH. reflexivity.
Qed.

(** A step of zero never leaves the loop when [start < stop]. *)
Lemma frange_zero_step_runs_forever `{Rounding} (start stop : Q) :
  monotone rnd -> representable start ->
  start < stop -> forall fuel, frange fuel start stop 0 = None.
Proof.
  intros Hmono Hstart Hlt fuel. unfold frange.
  assert (Hgen : forall r, r == start ->
             collect (frange_next stop 0) fuel r = None).
  { induction fuel as [|fuel IH]; intros r Hr; [reflexivity|].
    rewrite collect_S. unfold frange_next.
    assert (Hb : Qlt_bool r stop = true).
    { apply Qlt_bool_iff. rewrite Hr. exact Hlt. }
    rewrite Hb. change (Qlt_bool 0 0) with false. cbv iota.
    rewrite IH; [reflexivity|].
    unfold fsub. unfold representable in Hstart.
    rewrite <- Hstart. apply (monotone_comp _ Hmono). rewrite Hr. ring. }
  apply Hgen. reflexivity.
Qed.

(** With a negative step the branch [r -= step] adds [|step|]: one
    resumption does what it does for the step [-step]. *)
Lemma frange_next_neg `{Rounding} (stop step r : Q) :
  step < 0 -> frange_next stop step r = frange_next stop (- step) r.
Proof.
  intros Hneg. unfold frange_next.
  assert (H1 : Qlt_bool 0 step = false) by (apply Qlt_bool_false_iff; lra).
  assert (H2 : Qlt_bool 0 (- step) = true) by (apply Qlt_bool_iff; lra).
  rewrite H1, H2. reflexivity.
Qed.

(** C2, as stated, fails: [frange(9, 0, -3)] yields nothing, although
    [start = 9] is strictly greater than [stop = 0], and no descent from 9
    is an empty sequence; [frange(0, 9, -3)] ascends. *)
Lemma frange_negative_step_counterexample :
  frange 4 9 0 (-3) = Some [] /\
  ~ descends 9 0 (-3) [] /\
  frange 4 0 9 (-3) = Some [0; 3; 6].
Proof.
  split; [vm_compute; reflexivity|]. split; [|vm_compute; reflexivity].
  intros [_ Hlen]. specialize (Hlen 0%nat). simpl in Hlen.
  assert (H0 : 0 < 9 - Qnat 0 * Qabs (-3)) by reflexivity.
  apply Hlen in H0. lia.
Qed.

(** C2, amended.  For a step < 0, [frange(start, stop, step)] yields what
    [frange(start, stop, |step|)] yields, at every resumption: [start] and
    then the running sums obtained by repeatedly adding [|step| = -step],
    each of them strictly less than [stop]; the values never descend;
    nothing is yielded when [start >= stop]. *)
Theorem frange_negative_step `{Rounding} (start stop step : Q) :
  step < 0 ->
  (forall fuel, frange fuel start stop step = frange fuel start stop (- step))
  /\
  (forall n,
      first_yields (frange_next stop step) n start
      = first_yields (frange_next stop (- step)) n start) /\
  Qabs step == - step /\
  (forall (n k : nat) (x : Q),
      first_yields (frange_next stop step) n start !! k = Some x ->
      x = strides (- step) k start /\ x < stop) /\
  (monotone rnd -> idempotent rnd -> representable start ->
   forall i j : nat,
     (i <= j)%nat -> strides (- step) i start <= strides (- step) j start) /\
  (stop <= start -> forall fuel, frange (S fuel) start stop step = Some []).
Proof.
  intros Hneg.
  assert (Hpos : 0 < - step) by lra.
  assert (Hsame : forall fuel,
             frange fuel start stop step = frange fuel start stop (- step)).
  { intros fuel. apply collect_ext. intros r. apply frange_next_neg, Hneg. }
  assert (Hyields : forall n,
             first_yields (frange_next stop step) n start
             = first_yields (frange_next stop (- step)) n start).
  { intros n. apply first_yields_ext. intros r. apply frange_next_neg, Hneg. }
  split; [exact Hsame|]. split; [exact Hyields|].
  split; [apply Qabs_neg; lra|]. split; [|split].
  - intros n k x. rewrite Hyields. apply first_yields_frange, Hpos.
  - intros Hmono Hidem Hstart i j. apply strides_le; assumption.
  - intros Hle fuel. rewrite Hsame. unfold frange.
    rewrite collect_S, frange_next_pos by exact Hpos.
    assert (Hb : Qlt_bool start stop = false)
      by (apply Qlt_bool_false_iff, Hle).
    rewrite Hb. reflexivity.
Qed.

Lemma frange_negative_step_witness :
  -3 < 0 /\
  ((forall fuel, frange fuel 0 9 (-3) = frange fuel 0 9 (- -3))
   /\
   (forall n,
       first_yields (frange_next 9 (-3)) n 0
       = first_yields (frange_next 9 (- -3)) n 0) /\
   Qabs (-3) == - -3 /\
   (forall (n k : nat) (x : Q),
       first_yields (frange_next 9 (-3)) n 0 !! k = Some x ->
       x = strides (- -3) k 0 /\ x < 9) /\
   (monotone (rnd (Rounding := float64)) ->
    idempotent (rnd (Rounding := float64)) -> representable 0 ->
    forall i j : nat,
      (i <= j)%nat -> strides (- -3) i 0 <= strides (- -3) j 0) /\
   (9 <= 0 -> forall fuel, frange (S fuel) 0 9 (-3) = Some [])).
Proof.
  split; [reflexivity|apply (frange_negative_step 0 9 (-3)); reflexivity].
Defined.

(** ** Strings *)

Lemma prefix_spec (a : string) :
  forall b, String.prefix a b = true <-> exists post, b = a +:+ post.
Proof.
  induction a as [|c a IH]; intros b.
  - destruct b; simpl; split; eauto.
  - destruct b as [|c' b]; simpl.
    + split; [discriminate|]. intros [post H]. discriminate.
    + destruct (Ascii.ascii_dec c c') as [->|Hne].
      * rewrite IH. split; intros [post H]; exists post.
        -- rewrite H. reflexivity.
        -- injection H as H. exact H.
      * split; [discriminate|]. intros [post H]. injection H as H1 H2.
        congruence.
Qed.

Lemma str_in_unfold (needle hay : string) :
  str_in needle hay
  = String.prefix needle hay
    || match hay with
       | EmptyString => false
       | String _ hay' => str_in needle hay'
       end.
Proof. destruct hay; reflexivity. Qed.

Lemma str_in_spec (needle : string) :
  forall hay, str_in needle hay = true <-> occurs_in needle hay.
Proof.
  unfold occurs_in. induction hay as [|c hay IH]; rewrite str_in_unfold.
  - rewrite orb_false_r, prefix_spec. split.
    + intros [post H]. exists "", post. exact H.
    + intros (pre & post & H). destruct pre; [eauto|discriminate].
  - rewrite orb_true_iff, prefix_spec, IH. split.
    + intros [[post H]|(pre & post & H)].
      * exists "", post. exact H.
      * exists (String c pre), post. simpl. rewrite H. reflexivity.
    + intros (pre & post & H). destruct pre as [|c' pre]; simpl in H.
      * left. eauto.
      * right. injection H as _ H. eauto.
Qed.

Lemma str_in_false (needle hay : string) :
  str_in needle hay = false <-> ~ occurs_in needle hay.
Proof.
  rewrite <- str_in_spec. destruct (str_in needle hay); split; congruence.
Qed.

(** ** Lists *)

(** The head of a filtered list is the first element that passes. *)
Lemma filter_head {A : Type} (p : A -> bool) (l : list A) :
  match List.filter p l with
  | [] => forall g, g ∈ l -> p g = false
  | f :: _ =>
      exists before after,
        l = before ++ f :: after /\ p f = true /\
        forall g, g ∈ before -> p g = false
  end.
Proof.
  induction l as [|x l IH]; simpl.
  - intros g Hg. inversion Hg.
  - destruct (p x) eqn:Hx.
    + exists [], l. split; [reflexivity|]. split; [exact Hx|].
      intros g Hg. inversion Hg.
    + destruct (List.filter p l) as [|f rest].
      * intros g Hg. apply elem_of_cons in Hg as [->|Hg]; auto.
      * destruct IH as (before & after & -> & Hf & Hb).
        exists (x :: before), after. split; [reflexivity|].
        split; [exact Hf|].
        intros g Hg. apply elem_of_cons in Hg as [->|Hg]; auto.
Qed.

Lemma filter_skip {A : Type} (p : A -> bool) (before : list A) (l : list A) :
  (forall g, g ∈ before -> p g = false) ->
  List.filter p (before ++ l) = List.filter p l.
Proof.
  induction before as [|x before IH]; intros H; [reflexivity|].
  simpl. rewrite (H x) by (apply elem_of_cons; left; reflexivity).
  apply IH. intros g Hg. apply H, elem_of_cons. right. exact Hg.
Qed.

(** ** Running monadic code *)

Lemma bind_run {A B : Type} (m : M A) (f : A -> M B) (w : World) :
  (m ≫= f) w
  = match m w with
    | (w', Ok a) => f a w'
    | (w', Raised e) => (w', Raised e)
    | (w', Running) => (w', Running)
    end.
Proof. reflexivity. Qed.

(** Expose the next call of a sequence once the previous one has run. *)
Ltac mstep := cbv beta iota zeta; rewrite bind_run.

Lemma lookup_dataset_run (path : string) (e : exn) (w : World) :
  lookup_dataset path e w
  = match datasets w !! path with
    | Some d => (w, Ok d)
    | None => (w, Raised e)
    end.
Proof.
  unfold lookup_dataset. rewrite bind_run. unfold get_world.
  destruct (datasets w !! path); reflexivity.
Qed.

Lemma Describe_fields_run (path : string) (w : World) :
  Describe_fields path w
  = match datasets w !! path with
    | Some d => (w, Ok (fields d))
    | None => (w, Raised (IOError "dataset does not exist"))
    end.
Proof.
  unfold Describe_fields. rewrite bind_run, lookup_dataset_run.
  destruct (datasets w !! path); reflexivity.
Qed.

Lemma index_run {A : Type} (l : list A) (i : nat) (w : World) :
  index l i w
  = match l !! i with
    | Some a => (w, Ok a)
    | None => (w, Raised IndexError)
    end.
Proof. unfold index. destruct (l !! i); reflexivity. Qed.

(** ** get_field *)

Lemma get_field_run (dataset requested : string) (w : World) (d : Dataset) :
  datasets w !! dataset = Some d ->
  get_field dataset requested w
  = match List.filter (fun f => str_in (f_name f) requested) (fields d) with
    | f :: _ => (w, Ok f)
    | [] => (w, Raised IndexError)
    end.
Proof.
  intros Hd. unfold get_field.
  rewrite bind_run, Describe_fields_run, Hd, index_run.
  destruct (List.filter _ (fields d)); reflexivity.
Qed.

Lemma first_field_in_filter (fs : list Field) (requested : string) (f : Field) :
  first_field_in fs requested f <->
  exists rest,
    List.filter (fun f => str_in (f_name f) requested) fs = f :: rest.
Proof.
  split.
  - intros (before & after & -> & Hf & Hb).
    rewrite filter_skip.
    + simpl. apply str_in_spec in Hf. rewrite Hf. eauto.
    + intros g Hg. apply str_in_false, Hb, Hg.
  - intros [rest Hrest].
    pose proof (filter_head (fun f => str_in (f_name f) requested) fs) as H.
    rewrite Hrest in H. destruct H as (before & after & -> & Hf & Hb).
    exists before, after. split; [reflexivity|].
    split; [apply str_in_spec, Hf|].
    intros g Hg. apply str_in_false, Hb, Hg.
Qed.

(** C10.  On a dataset, [get_field] returns the first field, in the
    dataset's field order, whose name is a substring of the requested name,
    and it raises IndexError exactly when no field's name is a substring of
    the requested name.  Neither outcome changes the workspace. *)
Theorem get_field_first_substring_match
    (w : World) (dataset requested : string) (d : Dataset) :
  datasets w !! dataset = Some d ->
  (forall f, get_field dataset requested w = (w, Ok f)
             <-> first_field_in (fields d) requested f) /\
  (get_field dataset requested w = (w, Raised IndexError)
   <-> forall g, g ∈ fields d -> ~ occurs_in (f_name g) requested).
Proof.
  intros Hd. rewrite (get_field_run _ _ _ _ Hd).
  pose proof (filter_head (fun f => str_in (f_name f) requested) (fields d))
    as Hhead.
  split.
  - intros f. rewrite first_field_in_filter.
    destruct (List.filter _ (fields d)) as [|f' rest]; split.
    + discriminate.
    + intros [rest' H]. discriminate.
    + intros H. injection H as ->. eauto.
    + intros [rest' H]. injection H as -> _. reflexivity.
  - destruct (List.filter _ (fields d)) as [|f' rest]; split.
    + intros _ g Hg. apply str_in_false, Hhead, Hg.
    + reflexivity.
    + discriminate.
    + intros Hnone. exfalso.
      destruct Hhead as (before & after & Heq & Hf & _).
      apply (Hnone f').
      * rewrite Heq. apply elem_of_app. right. apply elem_of_cons. left.
        reflexivity.
      * apply str_in_spec, Hf.
Qed.

Lemma get_field_first_substring_match_witness :
  datasets Demo.id_world !! "id_routes" = Some Demo.id_routes /\
  ((forall f, get_field "id_routes" "ROUTE_ID" Demo.id_world
              = (Demo.id_world, Ok f)
              <-> first_field_in (fields Demo.id_routes) "ROUTE_ID" f) /\
   (get_field "id_routes" "ROUTE_ID" Demo.id_world
    = (Demo.id_world, Raised IndexError)
    <-> forall g, g ∈ fields Demo.id_routes
                  -> ~ occurs_in (f_name g) "ROUTE_ID")).
Proof.
  split; [reflexivity|].
  apply (get_field_first_substring_match Demo.id_world "id_routes" "ROUTE_ID"
           Demo.id_routes).
  reflexivity.
Defined.

(** The field returned need not be the one named: asked for "ROUTE_ID" on
    a dataset that has no such field, [get_field] answers with the field
    "ID". *)
Example get_field_other_field :
  get_field "id_routes" "ROUTE_ID" Demo.id_world
  = (Demo.id_world, Ok (mkField "ID" "Integer" 4)).
Proof. reflexivity. Qed.

(** ** The engine's tools, run *)

Lemma check_output_run (path : string) (w : World) :
  check_output path w
  = if writable w path then (w, Ok tt)
    else (w, Raised (ExecuteError "output already exists")).
Proof.
  unfold check_output. rewrite bind_run. unfold get_world.
  destruct (writable w path); reflexivity.
Qed.

Lemma CreateUniqueName_run (base workspace : string) (w : World) :
  CreateUniqueName base workspace w
  = (w, Ok (unique_name (datasets w) base workspace)).
Proof. reflexivity. Qed.

Lemma CopyFeatures_run (src dst : string) (w : World) :
  CopyFeatures src dst w
  = match datasets w !! src with
    | Some d =>
        if writable w dst then (with_dataset w dst d, Ok tt)
        else (w, Raised (ExecuteError "output already exists"))
    | None => (w, Raised (ExecuteError "input does not exist"))
    end.
Proof.
  unfold CopyFeatures. rewrite bind_run, lookup_dataset_run.
  destruct (datasets w !! src); [|reflexivity].
  rewrite bind_run, check_output_run.
  destruct (writable w dst); reflexivity.
Qed.

Lemma CreateTable_run (out : string) (w : World) :
  CreateTable out w
  = if writable w out then (with_dataset w out (mkDataset [] []), Ok tt)
    else (w, Raised (ExecuteError "output already exists")).
Proof.
  unfold CreateTable. rewrite bind_run, check_output_run.
  destruct (writable w out); reflexivity.
Qed.

Lemma CreateFeatureclass_run (out gt sr : string) (w : World) :
  CreateFeatureclass out gt sr w
  = match datasets w !! sr with
    | Some _ =>
        if writable w out then (with_dataset w out (mkDataset [] []), Ok tt)
        else (w, Raised (ExecuteError "output already exists"))
    | None => (w, Raised (ExecuteError "spatial reference does not exist"))
    end.
Proof.
  unfold CreateFeatureclass. rewrite bind_run, lookup_dataset_run.
  destruct (datasets w !! sr); [|reflexivity].
  rewrite bind_run, check_output_run.
  destruct (writable w out); reflexivity.
Qed.

Lemma AddField_run (table name type : string) (len : option Z) (w : World) :
  AddField table name type len w
  = match datasets w !! table with
    | Some d => (with_dataset w table (add_field d name type len), Ok tt)
    | None => (w, Raised (ExecuteError "table does not exist"))
    end.
Proof.
  unfold AddField. rewrite bind_run, lookup_dataset_run.
  destruct (datasets w !! table) as [d|]; reflexivity.
Qed.

Lemma CreateRoutes_run (in_lines id_field out from_field to_field : string)
    (w : World) :
  CreateRoutes in_lines id_field out from_field to_field w
  = match datasets w !! in_lines with
    | Some d =>
        if has_field d id_field && has_field d from_field
           && has_field d to_field
        then
          if writable w out
          then (with_dataset w out
                  (routes_dataset id_field from_field to_field d), Ok tt)
          else (w, Raised (ExecuteError "output already exists"))
        else (w, Raised (ExecuteError "field does not exist"))
    | None => (w, Raised (ExecuteError "input does not exist"))
    end.
Proof.
  unfold CreateRoutes. rewrite bind_run, lookup_dataset_run.
  destruct (datasets w !! in_lines) as [d|]; [|reflexivity].
  destruct (has_field d id_field && has_field d from_field
            && has_field d to_field); [|reflexivity].
  rewrite bind_run, check_output_run.
  destruct (writable w out); reflexivity.
Qed.

Lemma Delete_run (path : string) (w : World) :
  Delete path w
  = match datasets w !! path with
    | Some _ => (without_dataset w path, Ok tt)
    | None => (w, Raised (ExecuteError "dataset does not exist"))
    end.
Proof.
  unfold Delete. rewrite bind_run, lookup_dataset_run.
  destruct (datasets w !! path); reflexivity.
Qed.

Lemma Exists_run (path : string) (w : World) :
  Exists path w
  = (w, Ok (match datasets w !! path with Some _ => true | None => false end)).
Proof. reflexivity. Qed.

Section EngineRuns.
Variable dist : Q * Q -> Q * Q -> Q.
Context {R : Rounding}.

Lemma open_cursor_run (table : string) (toks keys : list string) (w : World) :
  open_cursor table toks keys w
  = match datasets w !! table with
    | Some d =>
        if cursor_fields_ok d toks && forallb (has_field d) keys
        then (w, Ok d)
        else (w, Raised (RuntimeError "cannot find field"))
    | None => (w, Raised (RuntimeError "cannot open table"))
    end.
Proof.
  unfold open_cursor. rewrite bind_run, lookup_dataset_run.
  destruct (datasets w !! table) as [d|]; [|reflexivity].
  destruct (cursor_fields_ok d toks && forallb (has_field d) keys);
    reflexivity.
Qed.

Lemma SearchCursor_run (table : string) (toks keys : list string)
    (w : World) :
  SearchCursor dist table toks keys w
  = match datasets w !! table with
    | Some d =>
        if cursor_fields_ok d toks && forallb (has_field d) keys
        then (w, Ok (map (read_row dist toks) (order_by keys (rows d))))
        else (w, Raised (RuntimeError "cannot find field"))
    | None => (w, Raised (RuntimeError "cannot open table"))
    end.
Proof.
  unfold SearchCursor. rewrite bind_run, open_cursor_run.
  destruct (datasets w !! table) as [d|]; [|reflexivity].
  destruct (cursor_fields_ok d toks && forallb (has_field d) keys);
    reflexivity.
Qed.

Lemma InsertCursor_run (table : string) (toks : list string) (w : World) :
  InsertCursor table toks w
  = match datasets w !! table with
    | Some d =>
        if cursor_fields_ok d toks then (w, Ok tt)
        else (w, Raised (RuntimeError "cannot find field"))
    | None => (w, Raised (RuntimeError "cannot open table"))
    end.
Proof.
  unfold InsertCursor. rewrite bind_run, open_cursor_run.
  destruct (datasets w !! table) as [d|]; [|reflexivity].
  simpl. rewrite andb_true_r.
  destruct (cursor_fields_ok d toks); reflexivity.
Qed.

Lemma UpdateCursor_run (table : string) (toks : list string) (w : World) :
  UpdateCursor table toks w
  = match datasets w !! table with
    | Some d =>
        if cursor_fields_ok d toks
        then (w, Ok (seq 0 (length (rows d))))
        else (w, Raised (RuntimeError "cannot find field"))
    | None => (w, Raised (RuntimeError "cannot open table"))
    end.
Proof.
  unfold UpdateCursor. rewrite bind_run, open_cursor_run.
  destruct (datasets w !! table) as [d|]; [|reflexivity].
  simpl. rewrite andb_true_r.
  destruct (cursor_fields_ok d toks); reflexivity.
Qed.

Lemma insertRow_run (table : string) (toks : list string)
    (vals : list value) (w : World) (d : Dataset) :
  length vals = length toks ->
  datasets w !! table = Some d ->
  insertRow table toks vals w
  = (with_dataset w table
       (mkDataset (fields d)
                  (rows d ++ [write_row toks vals (mkRow NoShape ∅)])),
     Ok tt).
Proof.
  intros Hlen Hd. unfold insertRow.
  rewrite Hlen, Nat.eqb_refl. simpl.
  rewrite bind_run, lookup_dataset_run, Hd. reflexivity.
Qed.
End EngineRuns.

(** ** create_route_by_length *)

Section RouteByLength.
Variable dist : Q * Q -> Q * Q -> Q.
Context {R : Rounding}.

Lemma with_dataset_twice (w : World) (p : string) (d1 d2 : Dataset) :
  with_dataset (with_dataset w p d1) p d2 = with_dataset w p d2.
Proof.
  unfold with_dataset. simpl. rewrite insert_insert_eq. reflexivity.
Qed.

Lemma with_dataset_same (w : World) (p : string) (d : Dataset) :
  datasets w !! p = Some d -> with_dataset w p d = w.
Proof.
  intros H. unfold with_dataset. rewrite (insert_id _ _ _ H).
  destruct w; reflexivity.
Qed.

Lemma lookup_with_dataset (w : World) (p q : string) (d : Dataset) :
  datasets (with_dataset w p d) !! q
  = if decide (p = q) then Some d else datasets w !! q.
Proof. unfold with_dataset. simpl. apply lookup_insert. Qed.

Lemma ret_run {A : Type} (a : A) (w : World) :
  (mret a : M A) w = (w, Ok a).
Proof. reflexivity. Qed.

Lemma fetch_run (table : string) (toks : list string) (i : nat) (w : World)
    (d : Dataset) (r : Row) :
  datasets w !! table = Some d ->
  rows d !! i = Some r ->
  fetch dist table toks i w = (w, Ok (read_row dist toks r)).
Proof.
  intros Hd Hr. unfold fetch.
  rewrite bind_run, lookup_dataset_run, Hd, Hr. reflexivity.
Qed.

Lemma updateRow_run (table : string) (toks : list string) (i : nat)
    (vals : list value) (w : World) (d : Dataset) (r : Row) :
  datasets w !! table = Some d ->
  rows d !! i = Some r ->
  updateRow table toks i vals w
  = (with_dataset w table
       (mkDataset (fields d) (<[i := write_row toks vals r]> (rows d))),
     Ok tt).
Proof.
  intros Hd Hr. unfold updateRow.
  rewrite bind_run, lookup_dataset_run, Hd, Hr. reflexivity.
Qed.

(** One pass of the loop body rewrites the record with [by_length]. *)
Lemma set_measures_run (the_line : string) (i : nat) (w : World)
    (fs : list Field) (rs : list Row) (r : Row) :
  datasets w !! the_line = Some (mkDataset fs rs) ->
  rs !! i = Some r ->
  set_measures dist the_line update_fields i w
  = (with_dataset w the_line (mkDataset fs (<[i := by_length dist r]> rs)),
     Ok tt).
Proof.
  intros Hd Hr. unfold set_measures.
  rewrite bind_run, (fetch_run _ _ _ _ _ _ Hd Hr).
  rewrite bind_run, index_run.
  change (<[0%nat:=VNum 0]> (read_row dist update_fields r) !! 2%nat)
    with (Some (read_token dist r "SHAPE@LENGTH")).
  cbv beta iota zeta.
  rewrite (updateRow_run _ _ _ _ _ _ _ Hd Hr).
  reflexivity.
Qed.

(** The loop over the records from position [i] on. *)
Lemma set_measures_loop (the_line : string) (k : nat) :
  forall (i : nat) (w : World) (fs : list Field) (rs : list Row),
  datasets w !! the_line = Some (mkDataset fs rs) ->
  (i + k = length rs)%nat ->
  for_each (seq i k) (set_measures dist the_line update_fields) w
  = (with_dataset w the_line
       (mkDataset fs (take i rs ++ map (by_length dist) (drop i rs))),
     Ok tt).
Proof.
  induction k as [|k IH]; intros i w fs rs Hd Hlen.
  - simpl. rewrite ret_run.
    rewrite drop_ge, take_ge, app_nil_r by lia.
    rewrite (with_dataset_same _ _ _ Hd). reflexivity.
  - destruct (lookup_lt_is_Some_2 rs i) as [r Hr]; [lia|].
    simpl. rewrite bind_run, (set_measures_run _ _ _ _ _ _ Hd Hr).
    rewrite (IH (S i) _ fs (<[i := by_length dist r]> rs)).
    + rewrite with_dataset_twice. f_equal. f_equal. f_equal.
      rewrite (take_S_r _ _ (by_length dist r)).
      * rewrite take_insert_ge, drop_insert_lt by lia.
        rewrite (drop_S _ _ _ Hr). simpl. rewrite <- app_assoc. reflexivity.
      * apply list_lookup_insert_eq. lia.
    + rewrite lookup_with_dataset. rewrite decide_True by reflexivity.
      reflexivity.
    + rewrite length_insert. lia.
Qed.
Lemma has_field_app (d : Dataset) (f : Field) (n : string) :
  has_field (mkDataset (fields d ++ [f]) (rows d)) n
  = has_field d n || String.eqb (f_name f) n.
Proof.
  unfold has_field. simpl. rewrite existsb_app. simpl.
  rewrite orb_false_r. reflexivity.
Qed.

Lemma has_field_add_field (d : Dataset) (name type : string)
    (len : option Z) (n : string) :
  has_field (add_field d name type len) n
  = has_field d n || String.eqb name n.
Proof.
  unfold add_field. destruct (has_field d name) eqn:E.
  - destruct (String.eqb_spec name n) as [->|_].
    + rewrite E. reflexivity.
    + rewrite orb_false_r. reflexivity.
  - rewrite has_field_app. reflexivity.
Qed.

Lemma rows_add_field (d : Dataset) (name type : string) (len : option Z) :
  rows (add_field d name type len) = rows d.
Proof. unfold add_field. destruct (has_field d name); reflexivity. Qed.

Lemma has_field_line_copy (d : Dataset) (n : string) :
  has_field (line_copy dist d) n
  = has_field d n || String.eqb "FromMeasure" n || String.eqb "ToMeasure" n.
Proof.
  unfold line_copy. cbv zeta.
  change (has_field (mkDataset ?fs ?rs) n)
    with (existsb (fun f => String.eqb (f_name f) n) fs).
  change (existsb (fun f => String.eqb (f_name f) n) (fields ?d))
    with (has_field d n).
  rewrite !has_field_add_field. reflexivity.
Qed.

(** The whole run, on every path. *)
Lemma create_route_by_length_run
    (in_features route_id_field route_feature_class : string) (w : World) :
  let the_line := unique_name (datasets w) "theLine" "in_memory" in
  create_route_by_length dist in_features route_id_field route_feature_class w
  = match datasets w !! in_features with
    | None => (w, Raised (ExecuteError "input does not exist"))
    | Some d =>
        if writable w the_line then
          let w1 := with_dataset w the_line (line_copy dist d) in
          if has_field (line_copy dist d) route_id_field then
            if writable w1 route_feature_class then
              (without_dataset
                 (with_dataset w1 route_feature_class
                    (routes_dataset route_id_field "FromMeasure" "ToMeasure"
                                    (line_copy dist d)))
                 the_line,
               Ok route_feature_class)
            else (w1, Raised (ExecuteError "output already exists"))
          else (w1, Raised (ExecuteError "field does not exist"))
        else (w, Raised (ExecuteError "output already exists"))
    end.
Proof.
  intros the_line. unfold create_route_by_length.
  mstep; rewrite CreateUniqueName_run. fold the_line.
  mstep; rewrite CopyFeatures_run.
  destruct (datasets w !! in_features) as [d|]; [|reflexivity].
  destruct (writable w the_line); [|reflexivity].
  (* the two fields *)
  mstep; rewrite AddField_run, lookup_with_dataset.
  rewrite decide_True by reflexivity. rewrite with_dataset_twice.
  mstep; rewrite AddField_run, lookup_with_dataset.
  rewrite decide_True by reflexivity. rewrite with_dataset_twice.
  set (d2 := add_field (add_field d "FromMeasure" "DOUBLE" None)
                       "ToMeasure" "DOUBLE" None).
  assert (Hrows : rows d2 = rows d).
  { unfold d2. rewrite !rows_add_field. reflexivity. }
  (* the cursor and its loop *)
  mstep; rewrite UpdateCursor_run, lookup_with_dataset.
  rewrite decide_True by reflexivity.
  assert (Hok : cursor_fields_ok d2 update_fields = true).
  { unfold cursor_fields_ok, update_fields, d2. simpl.
    rewrite !has_field_add_field. simpl.
    rewrite !orb_true_r. reflexivity. }
  rewrite Hok. mstep.
  rewrite (set_measures_loop the_line _ 0 _ (fields d2) (rows d2)).
  2:{ rewrite lookup_with_dataset, decide_True by reflexivity.
      destruct d2; reflexivity. }
  2:{ reflexivity. }
  rewrite with_dataset_twice, take_0, drop_0, Hrows. simpl app.
  change (mkDataset (fields d2) (map (by_length dist) (rows d)))
    with (line_copy dist d).
  (* the routes *)
  mstep; rewrite CreateRoutes_run, lookup_with_dataset.
  rewrite decide_True by reflexivity.
  destruct (has_field (line_copy dist d) route_id_field); [|reflexivity].
  rewrite !has_field_line_copy. simpl (String.eqb _ _).
  rewrite ?orb_true_r. cbn [andb orb].
  destruct (writable _ route_feature_class); [|reflexivity].
  (* the deletion *)
  mstep; rewrite Delete_run.
  destruct (datasets _ !! the_line) eqn:E; [reflexivity|].
  exfalso. rewrite !lookup_with_dataset in E.
  destruct (decide (route_feature_class = the_line)); [discriminate|].
  rewrite decide_True in E by reflexivity. discriminate.
Qed.
End RouteByLength.

(** ** Unique names *)

Lemma unique_suffix_fresh (m : gmap string Dataset) (stem : string)
    (fuel : nat) :
  let used p := match m !! p with Some _ => true | None => false end in
  forall (n : nat) (X : gset string),
  X ⊆ dom m ->
  size X = n ->
  (forall k, (n <= k)%nat -> stem +:+ pretty k ∉ X) ->
  (n + fuel = S (size m))%nat ->
  used (unique_suffix used stem fuel n) = false.
Proof.
  intros used. induction fuel as [|fuel IH]; intros n X Hsub Hsize Hnew Hn.
  - exfalso. apply subseteq_size in Hsub. rewrite size_dom in Hsub. lia.
  - simpl. destruct (used (stem +:+ pretty n)) eqn:Hused; [|exact Hused].
    apply (IH (S n) (X ∪ {[ stem +:+ pretty n ]})).
    + apply union_subseteq. split; [exact Hsub|].
      apply singleton_subseteq_l, elem_of_dom.
      unfold used in Hused. destruct (m !! (stem +:+ pretty n)); [eauto|].
      discriminate.
    + rewrite size_union, size_singleton; [lia|].
      apply disjoint_singleton_r, Hnew. lia.
    + intros k Hk. apply not_elem_of_union. split; [apply Hnew; lia|].
      apply not_elem_of_singleton. intros Heq.
      apply (inj (String.append stem)) in Heq.
      apply (inj pretty) in Heq. lia.
    + lia.
Qed.

(** The name [CreateUniqueName] answers with is not in use. *)
Lemma unique_name_fresh (m : gmap string Dataset) (base workspace : string) :
  m !! unique_name m base workspace = None.
Proof.
  unfold unique_name. cbv zeta.
  destruct (m !! (workspace +:+ "/" +:+ base)) eqn:Hstem; [|exact Hstem].
  assert (H := unique_suffix_fresh m (workspace +:+ "/" +:+ base)
                 (S (size m)) 0 ∅).
  cbv beta zeta in H.
  destruct (m !! unique_suffix _ _ _ _); [|reflexivity].
  discriminate H.
  - apply empty_subseteq.
  - apply size_empty.
  - intros k _. apply not_elem_of_empty.
  - reflexivity.
Qed.

Lemma writable_unique_name (w : World) (base workspace : string) :
  writable w (unique_name (datasets w) base workspace) = true.
Proof. unfold writable. rewrite unique_name_fresh. reflexivity. Qed.

(** ** Routes built from lengths *)

Lemma value_compare_refl (v : value) : value_compare v v = Eq.
Proof.
  destruct v; simpl; try reflexivity.
  - apply Qeq_alt. reflexivity.
  - pose proof (String.compare_antisym s s) as H.
    destruct (String.compare s s); simpl in H; congruence.
Qed.

Lemma value_eqb_refl (v : value) : value_eqb v v = true.
Proof. unfold value_eqb. rewrite value_compare_refl. reflexivity. Qed.

Section Routes.
Variable dist : Q * Q -> Q * Q -> Q.
Context {R : Rounding}.

Lemma attr_by_length_from (r : Row) :
  attr (by_length dist r) "FromMeasure" = VNum 0.
Proof.
  unfold attr, by_length. simpl.
  rewrite lookup_insert_ne by discriminate.
  rewrite lookup_insert_eq. reflexivity.
Qed.

Lemma attr_by_length_to (r : Row) :
  attr (by_length dist r) "ToMeasure" = read_token dist r "SHAPE@LENGTH".
Proof. unfold attr, by_length. simpl. rewrite lookup_insert_eq. reflexivity. Qed.

(** The measures CreateRoutes reads from a record the loop has updated. *)
Lemma measured_line_by_length (r : Row) :
  measured_line "FromMeasure" "ToMeasure" (by_length dist r)
  = match shape r with
    | PolylineShape p =>
        Some (mkPolyline (parts p) (Some 0) (Some (shape_length dist p)))
    | _ => None
    end.
Proof.
  unfold measured_line. rewrite attr_by_length_from, attr_by_length_to.
  change (shape (by_length dist r)) with (shape r).
  change (read_token dist r "SHAPE@LENGTH")
    with (match shape r with
          | PolylineShape p => VNum (shape_length dist p)
          | _ => VNone
          end).
  destruct (shape r); reflexivity.
Qed.

Lemma add_to_routes_by_length (lines : list Row) (id_field : string)
    (line : Row) (p : Polyline) (routes : list (value * Polyline)) :
  line ∈ lines ->
  shape line = PolylineShape p ->
  Forall (fun r => route_by_length dist lines id_field (fst r) (snd r)) routes ->
  Forall (fun r => route_by_length dist lines id_field (fst r) (snd r))
         (add_to_routes (attr (by_length dist line) id_field)
            (mkPolyline (parts p) (Some 0) (Some (shape_length dist p)))
            routes).
Proof.
  intros Hin Hshape. induction routes as [|[id' q] routes IH]; intros Hall.
  - simpl. constructor; [|constructor].
    split; [reflexivity|]. exists line, p.
    split; [exact Hin|]. split; [exact Hshape|].
    split; [apply value_eqb_refl|reflexivity].
  - simpl. inversion Hall as [|? ? Hq Hrest]; subst.
    destruct (value_eqb _ id') eqn:Heq.
    + constructor; [|exact Hrest].
      destruct Hq as [Hfirst _]. split; [exact Hfirst|].
      exists line, p. split; [exact Hin|]. split; [exact Hshape|].
      split; [exact Heq|reflexivity].
    + constructor; [exact Hq|]. apply IH, Hrest.
Qed.

Lemma build_routes_by_length (lines : list Row) (id_field : string) :
  Forall (fun r => route_by_length dist lines id_field (fst r) (snd r))
         (build_routes id_field "FromMeasure" "ToMeasure"
                       (map (by_length dist) lines)).
Proof.
  unfold build_routes.
  assert (H : forall ls acc,
             (forall l, l ∈ ls -> l ∈ lines) ->
             Forall (fun r => route_by_length dist lines id_field
                                (fst r) (snd r)) acc ->
             Forall (fun r => route_by_length dist lines id_field
                                (fst r) (snd r))
               (fold_left
                  (fun routes r =>
                     match measured_line "FromMeasure" "ToMeasure" r with
                     | Some line => add_to_routes (attr r id_field) line routes
                     | None => routes
                     end)
                  (map (by_length dist) ls) acc)).
  { induction ls as [|l ls IH]; intros acc Hsub Hacc; [exact Hacc|].
    simpl. apply IH.
    - intros l' Hl'. apply Hsub, elem_of_cons. right. exact Hl'.
    - rewrite measured_line_by_length.
      destruct (shape l) as [| |p] eqn:Hshape; try exact Hacc.
      apply add_to_routes_by_length; [|exact Hshape|exact Hacc].
      apply Hsub, elem_of_cons. left. reflexivity. }
  apply H; [auto|constructor].
Qed.
End Routes.

(** ** create_route_by_length: the claims *)

Section RouteClaims.
Variable dist : Q * Q -> Q * Q -> Q.
Context {R : Rounding}.

(** A run that returns normally has gone through every step. *)
Lemma create_route_by_length_ok
    (in_features id_field out : string) (w w' : World) (r : string) :
  create_route_by_length dist in_features id_field out w = (w', Ok r) ->
  let the_line := unique_name (datasets w) "theLine" "in_memory" in
  exists d,
    datasets w !! in_features = Some d /\
    has_field (line_copy dist d) id_field = true /\
    r = out /\
    w' = without_dataset
           (with_dataset (with_dataset w the_line (line_copy dist d)) out
              (routes_dataset id_field "FromMeasure" "ToMeasure"
                              (line_copy dist d)))
           the_line.
Proof.
  intros Hrun the_line. rewrite create_route_by_length_run in Hrun.
  cbv zeta in Hrun. fold the_line in Hrun.
  destruct (datasets w !! in_features) as [d|]; [|discriminate].
  exists d. split; [reflexivity|].
  destruct (writable w the_line); [|discriminate].
  destruct (has_field (line_copy dist d) id_field); [|discriminate].
  destruct (writable _ out); [|discriminate].
  injection Hrun as <- <-. auto.
Qed.

Lemma elem_of_map {A B : Type} (f : A -> B) (l : list A) (y : B) :
  y ∈ map f l <-> exists x, y = f x /\ x ∈ l.
Proof. exact (list_elem_of_fmap f l y). Qed.

(** C3.  When create_route_by_length returns, every input line with a
    polyline geometry has been handed to CreateRoutes with from-measure 0
    and to-measure the length of its geometry, whatever attributes the line
    carried; the route feature class holds the routes built from these
    measures, and each route starts at measure 0 and ends at the length of
    a line with the route's identifier. *)
Theorem create_route_by_length_measures
    (in_features id_field out : string) (w w' : World) (r : string) :
  create_route_by_length dist in_features id_field out w = (w', Ok r) ->
  exists d,
    datasets w !! in_features = Some d /\
    (forall line p,
        line ∈ rows d -> shape line = PolylineShape p ->
        attr (by_length dist line) "FromMeasure" = VNum 0 /\
        attr (by_length dist line) "ToMeasure" = VNum (shape_length dist p) /\
        measured_line "FromMeasure" "ToMeasure" (by_length dist line)
        = Some (mkPolyline (parts p) (Some 0) (Some (shape_length dist p))))
    /\
    (out <> unique_name (datasets w) "theLine" "in_memory" ->
     datasets w' !! out
     = Some (routes_dataset id_field "FromMeasure" "ToMeasure"
                            (line_copy dist d))) /\
    (forall rd route,
        datasets w' !! out = Some rd -> route ∈ rows rd ->
        exists q,
          shape route = PolylineShape q /\
          route_by_length dist (rows d) id_field (attr route id_field) q).
Proof.
  intros Hrun.
  destruct (create_route_by_length_ok _ _ _ _ _ _ Hrun)
    as (d & Hd & _ & _ & ->).
  exists d. split; [exact Hd|].
  assert (Hout : out <> unique_name (datasets w) "theLine" "in_memory" ->
                 datasets
                   (without_dataset
                      (with_dataset
                         (with_dataset w
                            (unique_name (datasets w) "theLine" "in_memory")
                            (line_copy dist d)) out
                         (routes_dataset id_field "FromMeasure" "ToMeasure"
                            (line_copy dist d)))
                      (unique_name (datasets w) "theLine" "in_memory"))
                 !! out
                 = Some (routes_dataset id_field "FromMeasure" "ToMeasure"
                           (line_copy dist d))).
  { intros Hne. unfold without_dataset. simpl.
    rewrite lookup_delete_ne by congruence.
    apply lookup_insert_eq. }
  split; [|split; [exact Hout|]].
  - intros line p Hin Hshape.
    rewrite attr_by_length_from, attr_by_length_to, measured_line_by_length.
    change (read_token dist line "SHAPE@LENGTH")
      with (match shape line with
            | PolylineShape p => VNum (shape_length dist p)
            | _ => VNone
            end).
    rewrite Hshape. auto.
  - intros rd route Hrd Hroute.
    destruct (decide (out = unique_name (datasets w) "theLine" "in_memory"))
      as [Heq|Hne].
    { exfalso. unfold without_dataset in Hrd. simpl in Hrd.
      rewrite Heq, lookup_delete_eq in Hrd. discriminate. }
    rewrite (Hout Hne) in Hrd. injection Hrd as <-.
    simpl in Hroute. apply elem_of_map in Hroute as ([id q] & -> & Hin).
    exists q. split; [reflexivity|].
    pose proof (build_routes_by_length dist (rows d) id_field) as Hall.
    rewrite Forall_forall in Hall.
    replace (attr (route_row id_field (id, q)) id_field) with id.
    + apply (Hall (id, q)), Hin.
    + unfold attr, route_row. simpl. rewrite lookup_singleton_eq. reflexivity.
Qed.
End RouteClaims.

Lemma create_route_by_length_measures_witness :
  create_route_by_length Demo.dist "lines" "NAME" "routes" Demo.world
  = (Demo.routes_world, Ok "routes") /\
  exists d,
    datasets Demo.world !! "lines" = Some d /\
    (forall line p,
        line ∈ rows d -> shape line = PolylineShape p ->
        attr (by_length Demo.dist line) "FromMeasure" = VNum 0 /\
        attr (by_length Demo.dist line) "ToMeasure"
        = VNum (shape_length Demo.dist p) /\
        measured_line "FromMeasure" "ToMeasure" (by_length Demo.dist line)
        = Some (mkPolyline (parts p) (Some 0)
                           (Some (shape_length Demo.dist p))))
    /\
    ("routes" <> unique_name (datasets Demo.world) "theLine" "in_memory" ->
     datasets Demo.routes_world !! "routes"
     = Some (routes_dataset "NAME" "FromMeasure" "ToMeasure"
                            (line_copy Demo.dist d))) /\
    (forall rd route,
        datasets Demo.routes_world !! "routes" = Some rd -> route ∈ rows rd ->
        exists q,
          shape route = PolylineShape q /\
          route_by_length Demo.dist (rows d) "NAME" (attr route "NAME") q).
Proof.
  split; [vm_compute; reflexivity|].
  apply (create_route_by_length_measures Demo.dist "lines" "NAME" "routes"
           Demo.world Demo.routes_world "routes").
  vm_compute; reflexivity.
Defined.

(** The example of the specification: the route built from a straight line
    of 100 units runs from measure 0 to measure 100, although the line came
    with measure attributes 7 and 8. *)
Example route_of_straight_line :
  create_route_by_length Demo.dist "lines" "NAME" "routes" Demo.world
  = (Demo.routes_world, Ok "routes") /\
  attr Demo.line_A "FromMeasure" = VNum 7 /\
  attr Demo.line_A "ToMeasure" = VNum 8 /\
  shape Demo.route_A
  = PolylineShape (mkPolyline [[(0, 0); (100, 0)]] (Some 0) (Some 100)).
Proof. repeat split; vm_compute; reflexivity. Qed.

Section RouteErrors.
Variable dist : Q * Q -> Q * Q -> Q.
Context {R : Rounding}.

(** C7, amended.  create_route_by_length does not look at the number of
    parts of a line.  When the input exists, has the identifier field, and
    the output may be written, it returns normally, whatever the parts of
    the lines are; a line of several parts is handed to CreateRoutes with
    from-measure 0 and to-measure the sum of the lengths of its parts. *)
Theorem create_route_by_length_accepts_multipart
    (in_features id_field out : string) (w : World) (d : Dataset) :
  datasets w !! in_features = Some d ->
  has_field d id_field = true ->
  writable w out = true ->
  out <> unique_name (datasets w) "theLine" "in_memory" ->
  exists w',
    create_route_by_length dist in_features id_field out w = (w', Ok out) /\
    datasets w' !! out
    = Some (routes_dataset id_field "FromMeasure" "ToMeasure"
                           (line_copy dist d)) /\
    forall line p,
      line ∈ rows d -> shape line = PolylineShape p ->
      measured_line "FromMeasure" "ToMeasure" (by_length dist line)
      = Some (mkPolyline (parts p) (Some 0)
                (Some (fold_right Qplus 0 (map (part_length dist) (parts p))))).
Proof.
  intros Hd Hid Hw Hne.
  rewrite create_route_by_length_run. cbv zeta.
  rewrite Hd, writable_unique_name, has_field_line_copy, Hid.
  cbn [orb].
  assert (Hw1 : writable
                  (with_dataset w
                     (unique_name (datasets w) "theLine" "in_memory")
                     (line_copy dist d)) out = true).
  { unfold writable in *. rewrite lookup_with_dataset.
    rewrite decide_False by congruence. exact Hw. }
  rewrite Hw1. eexists. split; [reflexivity|]. split.
  - unfold without_dataset. simpl.
    rewrite lookup_delete_ne by congruence. apply lookup_insert_eq.
  - intros line p _ Hshape.
    rewrite measured_line_by_length, Hshape. reflexivity.
Qed.

(** C9, amended.  When create_route_by_length returns normally, the
    in_memory copy it made is gone: the copy's name was free before the
    run and is free after it, and every dataset other than the route
    feature class is as it was. *)
Theorem create_route_by_length_deletes_copy
    (in_features id_field out : string) (w w' : World) (r : string) :
  create_route_by_length dist in_features id_field out w = (w', Ok r) ->
  let the_line := unique_name (datasets w) "theLine" "in_memory" in
  datasets w !! the_line = None /\
  datasets w' !! the_line = None /\
  forall p, p <> out -> datasets w' !! p = datasets w !! p.
Proof.
  intros Hrun the_line.
  destruct (create_route_by_length_ok _ _ _ _ _ _ _ Hrun)
    as (d & _ & _ & _ & ->).
  fold the_line.
  assert (Hfresh : datasets w !! the_line = None)
    by apply unique_name_fresh.
  split; [exact Hfresh|]. unfold without_dataset. simpl.
  split; [apply lookup_delete_eq|].
  intros p Hp. destruct (decide (p = the_line)) as [->|Hpt].
  - rewrite lookup_delete_eq, Hfresh. reflexivity.
  - rewrite lookup_delete_ne by congruence.
    rewrite lookup_insert_ne by congruence.
    rewrite lookup_insert_ne by congruence. reflexivity.
Qed.
End RouteErrors.

(** C7, as stated, fails: a line of two parts is not rejected; the run
    returns normally and the route runs from 0 to 15, the sum of the
    lengths 10 and 5 of the parts. *)
Lemma create_route_by_length_multipart_counterexample :
  exists w',
    create_route_by_length Demo.dist "split_lines" "NAME" "routes"
                           Demo.split_world
    = (w', Ok "routes") /\
    datasets w' !! "routes"
    = Some (mkDataset
              [mkField "NAME" "String" 20]
              [mkRow (PolylineShape
                        (mkPolyline [[(0, 0); (10, 0)]; [(20, 0); (20, 5)]]
                                    (Some 0) (Some 15)))
                     {[ "NAME" := VStr "B" ]}]).
Proof. eexists. split; vm_compute; reflexivity. Qed.

Lemma create_route_by_length_accepts_multipart_witness :
  datasets Demo.split_world !! "split_lines" = Some Demo.split_lines /\
  has_field Demo.split_lines "NAME" = true /\
  writable Demo.split_world "routes" = true /\
  "routes" <> unique_name (datasets Demo.split_world) "theLine" "in_memory" /\
  exists w',
    create_route_by_length Demo.dist "split_lines" "NAME" "routes"
                           Demo.split_world
    = (w', Ok "routes") /\
    datasets w' !! "routes"
    = Some (routes_dataset "NAME" "FromMeasure" "ToMeasure"
                           (line_copy Demo.dist Demo.split_lines)) /\
    forall line p,
      line ∈ rows Demo.split_lines -> shape line = PolylineShape p ->
      measured_line "FromMeasure" "ToMeasure" (by_length Demo.dist line)
      = Some (mkPolyline (parts p) (Some 0)
                (Some (fold_right Qplus 0
                         (map (part_length Demo.dist) (parts p))))).
Proof.
  split; [reflexivity|]. split; [reflexivity|]. split; [reflexivity|].
  split; [vm_compute; discriminate|].
  apply (create_route_by_length_accepts_multipart Demo.dist "split_lines"
           "NAME" "routes" Demo.split_world Demo.split_lines);
    [reflexivity|reflexivity|reflexivity|vm_compute; discriminate].
Defined.

(** C9, as stated, fails: when CreateRoutes raises (here the identifier
    field does not exist), the in_memory copy, which did not exist before
    the run, is left in the workspace. *)
Lemma create_route_by_length_error_counterexample :
  exists w' e,
    create_route_by_length Demo.dist "lines" "MISSING" "routes" Demo.world
    = (w', Raised e) /\
    datasets Demo.world !! "in_memory/theLine" = None /\
    is_Some (datasets w' !! "in_memory/theLine").
Proof.
  eexists. eexists. split; [vm_compute; reflexivity|].
  split; [reflexivity|]. vm_compute. eauto.
Qed.

Lemma create_route_by_length_deletes_copy_witness :
  create_route_by_length Demo.dist "lines" "NAME" "routes" Demo.world
  = (Demo.routes_world, Ok "routes") /\
  (let the_line := unique_name (datasets Demo.world) "theLine" "in_memory" in
   datasets Demo.world !! the_line = None /\
   datasets Demo.routes_world !! the_line = None /\
   forall p, p <> "routes" ->
             datasets Demo.routes_world !! p = datasets Demo.world !! p).
Proof.
  split; [vm_compute; reflexivity|].
  apply (create_route_by_length_deletes_copy Demo.dist "lines" "NAME" "routes"
           Demo.world Demo.routes_world "routes").
  vm_compute; reflexivity.
Defined.

(** ** create_point_event_table *)

Lemma order_by_no_keys (l : list Row) : order_by [] l = l.
Proof.
  unfold order_by. induction l as [|r l IH]; [reflexivity|].
  cbn [fold_right]. rewrite IH. destruct l; reflexivity.
Qed.

Section EventTable.
Variable dist : Q * Q -> Q * Q -> Q.
Context {R : Rounding}.
Variable fuel : nat.
Variables out name : string.
Variable interval : Q.

(** One record goes in for each value the generator yields. *)
Lemma insert_event_run (route : Row) (m : Q) (w : World) (d : Dataset) :
  datasets w !! out = Some d ->
  (index (read_row dist [name; "SHAPE@"] route) 0 ≫= fun id =>
     insertRow out [name; "Measure"] [id; VNum m]) w
  = (with_dataset w out
       (mkDataset (fields d)
          (rows d ++ [event_row name (read_token dist route name) m])),
     Ok tt).
Proof.
  intros Hd. rewrite bind_run, index_run. cbn [read_row map lookup list_lookup].
  cbv beta iota.
  rewrite (insertRow_run _ _ _ _ d); [reflexivity|reflexivity|exact Hd].
Qed.

Lemma insert_events_gen (route : Row) (stop : Q) (n : nat) :
  forall (r : Q) (w : World) (fs : list Field) (rs : list Row),
  datasets w !! out = Some (mkDataset fs rs) ->
  for_gen (frange_next stop interval) n r
    (fun measure =>
       index (read_row dist [name; "SHAPE@"] route) 0 ≫= fun id =>
         insertRow out [name; "Measure"] [id; VNum measure]) w
  = (with_dataset w out
       (mkDataset fs
          (rs ++ map (event_row name (read_token dist route name))
                     (first_yields (frange_next stop interval) n r))),
     match collect (frange_next stop interval) n r with
     | Some _ => Ok tt
     | None => Running
     end).
Proof.
  induction n as [|n IH]; intros r w fs rs Hd.
  - simpl. rewrite app_nil_r, (with_dataset_same _ _ _ Hd). reflexivity.
  - rewrite collect_S. cbn [for_gen first_yields].
    destruct (frange_next stop interval r) as [[a r']|].
    + rewrite bind_run, (insert_event_run route a w _ Hd). cbv beta iota.
      rewrite (IH r' _ fs (rs ++ [event_row name (read_token dist route name) a])).
      * rewrite with_dataset_twice, <- app_assoc. simpl.
        destruct (collect _ n r'); reflexivity.
      * rewrite lookup_with_dataset, decide_True by reflexivity. reflexivity.
    + rewrite ret_run, app_nil_r, (with_dataset_same _ _ _ Hd). reflexivity.
Qed.

(** The loop over the routes adds the records of [route_events]. *)
Lemma insert_events_loop (routes : list Row) :
  forall (w : World) (fs : list Field) (rs : list Row),
  datasets w !! out = Some (mkDataset fs rs) ->
  for_each (map (read_row dist [name; "SHAPE@"]) routes)
           (insert_events fuel out [name; "Measure"] interval) w
  = (with_dataset w out
       (mkDataset fs
          (rs ++ fst (route_events dist fuel name interval routes))),
     snd (route_events dist fuel name interval routes)).
Proof.
  induction routes as [|route routes IH]; intros w fs rs Hd.
  - simpl. rewrite app_nil_r, (with_dataset_same _ _ _ Hd). reflexivity.
  - cbn [map for_each route_events]. rewrite bind_run.
    assert (Hstop : forall e,
               (with_dataset w out (mkDataset fs (rs ++ [])),
                @Raised unit e) = (w, Raised e)).
    { intros e. rewrite app_nil_r, (with_dataset_same _ _ _ Hd).
      reflexivity. }
    unfold insert_events at 1. rewrite bind_run, index_run.
    change (read_row dist [name; "SHAPE@"] route !! 1%nat)
      with (Some (read_token dist route "SHAPE@")).
    cbv beta iota. unfold route_range.
    change (read_token dist route "SHAPE@")
      with (match shape route with NoShape => VNone | g => VShape g end).
    destruct (shape route) as [|x y|p].
    + cbn. rewrite Hstop. reflexivity.
    + cbn. rewrite Hstop. reflexivity.
    + rewrite bind_run. cbn [firstPoint_M]. rewrite ret_run. cbv beta iota.
      rewrite bind_run.
      destruct (firstM p) as [f|]; [|cbn; rewrite Hstop; reflexivity].
      cbn [float]. rewrite ret_run. cbv beta iota.
      rewrite bind_run. cbn [lastPoint_M]. rewrite ret_run. cbv beta iota.
      rewrite bind_run.
      destruct (lastM p) as [l|]; [|cbn; rewrite Hstop; reflexivity].
      cbn [float]. rewrite ret_run. cbv beta iota.
      rewrite (insert_events_gen route l fuel f w fs rs Hd).
      destruct (collect (frange_next l interval) fuel f).
      * cbv beta iota zeta.
        rewrite (IH _ fs
                   (rs ++ map (event_row name (read_token dist route name))
                              (first_yields (frange_next l interval) fuel f))).
        -- rewrite with_dataset_twice, <- app_assoc. reflexivity.
        -- rewrite lookup_with_dataset, decide_True by reflexivity.
           reflexivity.
      * reflexivity.
Qed.
End EventTable.

Section EventTableRun.
Variable dist : Q * Q -> Q * Q -> Q.
Context {R : Rounding}.

Lemma rows_event_table (name : string) (f : Field) :
  rows (event_table name f) = [].
Proof. unfold event_table. rewrite !rows_add_field. reflexivity. Qed.

Lemma event_table_cursor_ok (name : string) (f : Field) :
  cursor_fields_ok (event_table name f) [name; "Measure"] = true.
Proof.
  unfold cursor_fields_ok, event_table. cbn [forallb].
  rewrite !has_field_add_field, !String.eqb_refl, !orb_true_r.
  reflexivity.
Qed.

(** The whole run, on every path. *)
Lemma create_point_event_table_run (fuel : nat)
    (in_routes name : string) (interval : Q) (out : string) (w : World) :
  create_point_event_table dist fuel in_routes name interval out w
  = match datasets w !! in_routes with
    | None => (w, Raised (IOError "dataset does not exist"))
    | Some d =>
        match List.filter (fun f => str_in (f_name f) name) (fields d) with
        | [] => (w, Raised IndexError)
        | f :: _ =>
            if writable w out then
              let w3 := with_dataset w out (event_table name f) in
              match datasets w3 !! in_routes with
              | Some d' =>
                  if cursor_fields_ok d' [name; "SHAPE@"] then
                    let evs :=
                      route_events dist fuel name interval (rows d') in
                    (with_dataset w out
                       (mkDataset (fields (event_table name f)) (fst evs)),
                     match snd evs with
                     | Ok _ => Ok out
                     | Raised e => Raised e
                     | Running => Running
                     end)
                  else (w3, Raised (RuntimeError "cannot find field"))
              | None => (w3, Raised (RuntimeError "cannot open table"))
              end
            else (w, Raised (ExecuteError "output already exists"))
        end
    end.
Proof.
  unfold create_point_event_table. rewrite bind_run.
  destruct (datasets w !! in_routes) as [d|] eqn:Hd.
  2:{ unfold get_field. rewrite bind_run, Describe_fields_run, Hd.
      reflexivity. }
  rewrite (get_field_run _ _ _ _ Hd).
  destruct (List.filter _ (fields d)) as [|f fs']; [reflexivity|].
  mstep; rewrite CreateTable_run.
  destruct (writable w out); [|reflexivity].
  mstep; rewrite AddField_run, lookup_with_dataset.
  rewrite decide_True by reflexivity. rewrite with_dataset_twice.
  mstep; rewrite AddField_run, lookup_with_dataset.
  rewrite decide_True by reflexivity. rewrite with_dataset_twice.
  fold (event_table name f).
  mstep; rewrite InsertCursor_run, lookup_with_dataset.
  rewrite decide_True by reflexivity. rewrite event_table_cursor_ok.
  mstep; rewrite SearchCursor_run.
  destruct (datasets (with_dataset w out (event_table name f)) !! in_routes)
    as [d'|]; [|reflexivity].
  cbn [forallb]. rewrite andb_true_r.
  destruct (cursor_fields_ok d' [name; "SHAPE@"]); [|reflexivity].
  rewrite order_by_no_keys. mstep.
  rewrite (insert_events_loop dist fuel out name interval (rows d') _
             (fields (event_table name f)) []).
  - rewrite with_dataset_twice. cbn [app].
    destruct (snd (route_events dist fuel name interval (rows d')));
      reflexivity.
  - rewrite lookup_with_dataset, decide_True by reflexivity.
    pose proof (rows_event_table name f) as Hrows.
    destruct (event_table name f). simpl in Hrows. rewrite Hrows.
    reflexivity.
Qed.
End EventTableRun.

(** ** The events of the routes *)

Section RouteEvents.
Variable dist : Q * Q -> Q * Q -> Q.
Context {R : Rounding}.
Variable name : string.
Variable interval : Q.

Lemma attr_event_row_measure (id : value) (m : Q) :
  attr (event_row name id m) "Measure" = VNum m.
Proof.
  unfold event_row, write_row, write_token at 1.
  cbn [String.eqb Ascii.eqb Bool.eqb orb]. unfold attr. cbn [attrs].
  rewrite lookup_insert_eq. reflexivity.
Qed.

(** Every record of the event table lies on its route: its measure is a
    running sum from the route's first measure and is strictly below the
    route's last measure. *)
Lemma route_events_within (fuel : nat) (routes : list Row) :
  0 < interval ->
  forall ev,
  ev ∈ fst (route_events dist fuel name interval routes) ->
  exists (route : Row) (p : Polyline) (f l m : Q) (k : nat),
    route ∈ routes /\ shape route = PolylineShape p /\
    firstM p = Some f /\ lastM p = Some l /\
    ev = event_row name (read_token dist route name) m /\
    m = strides interval k f /\ m < l.
Proof.
  intros Hpos. induction routes as [|route routes IH]; intros ev Hev.
  - inversion Hev.
  - cbn [route_events] in Hev. unfold route_range in Hev.
    assert (Hlater : ev ∈ fst (route_events dist fuel name interval routes) ->
              exists (route' : Row) (p : Polyline) (f l m : Q) (k : nat),
                route' ∈ route :: routes /\ shape route' = PolylineShape p /\
                firstM p = Some f /\ lastM p = Some l /\
                ev = event_row name (read_token dist route' name) m /\
                m = strides interval k f /\ m < l).
    { intros H. destruct (IH _ H) as (r' & p & f & l & m & k & Hin & Hrest).
      exists r', p, f, l, m, k. split; [|exact Hrest].
      apply elem_of_cons. right. exact Hin. }
    destruct (shape route) as [|x y|p] eqn:Hshape;
      try (cbn in Hev; inversion Hev; fail).
    destruct (firstM p) as [f|] eqn:Hf; [|cbn in Hev; inversion Hev].
    destruct (lastM p) as [l|] eqn:Hl; [|cbn in Hev; inversion Hev].
    cbv zeta in Hev.
    assert (Hhere : ev ∈ map (event_row name (read_token dist route name))
                         (first_yields (frange_next l interval) fuel f) ->
              exists (route' : Row) (p : Polyline) (f l m : Q) (k : nat),
                route' ∈ route :: routes /\ shape route' = PolylineShape p /\
                firstM p = Some f /\ lastM p = Some l /\
                ev = event_row name (read_token dist route' name) m /\
                m = strides interval k f /\ m < l).
    { intros H. apply elem_of_map in H as (m & -> & Hm).
      apply list_elem_of_lookup in Hm as [k Hk].
      destruct (first_yields_frange l interval Hpos fuel f k m Hk)
        as [Heq Hbelow].
      exists route, p, f, l, m, k.
      split; [apply elem_of_cons; left; reflexivity|].
      split; [exact Hshape|]. split; [exact Hf|]. split; [exact Hl|].
      split; [reflexivity|]. split; [exact Heq|exact Hbelow]. }
    destruct (collect (frange_next l interval) fuel f).
    + cbn [fst] in Hev. apply elem_of_app in Hev as [Hev|Hev]; auto.
    + cbn [fst] in Hev. auto.
Qed.

(** The loops end once the running sums of every route have reached the
    route's last measure. *)
Lemma route_events_ends (routes : list Row) :
  0 < interval ->
  (forall route f l,
      route ∈ routes -> route_range route = Ok (f, l) ->
      exists k, l <= strides interval k f) ->
  exists n, forall fuel, (n <= fuel)%nat ->
    snd (route_events dist fuel name interval routes) <> Running.
Proof.
  intros Hpos. induction routes as [|route routes IH]; intros Hreach.
  - exists 0%nat. discriminate.
  - destruct IH as [n Hn].
    { intros r f l Hin. apply Hreach, elem_of_cons. right. exact Hin. }
    destruct (route_range route) as [[f l]|e|] eqn:Hrange.
    + destruct (Hreach route f l) as [k Hk];
        [apply elem_of_cons; left; reflexivity|exact Hrange|].
      destruct (collect_frange_returns l interval Hpos k f Hk) as [ys Hys].
      exists (Nat.max (S k) n). intros fuel Hfuel.
      cbn [route_events]. rewrite Hrange.
      rewrite (collect_mono _ _ _ _ Hys fuel) by lia.
      cbn [snd]. apply Hn. lia.
    + exists 0%nat. intros fuel _. cbn [route_events]. rewrite Hrange.
      discriminate.
    + exfalso. unfold route_range in Hrange.
      destruct (shape route) as [| |p]; try discriminate.
      destruct (firstM p), (lastM p); discriminate.
Qed.
End RouteEvents.

Section EventClaims.
Variable dist : Q * Q -> Q * Q -> Q.
Context {R : Rounding}.

(** C5.  With an interval > 0, every record that create_point_event_table
    writes carries a measure [m] of a route of the input with
    [first_measure <= m < last_measure]: [m] is a running sum from the
    route's first measure, each addition of the interval rounded, and the
    step that would reach or pass the last measure is left out.  This holds
    of the table when the run has returned and of what is written while it
    has not.  The run returns once the running sums of every route have
    reached the route's last measure. *)
Theorem station_measures_within_route
    (in_routes name : string) (interval : Q) (out : string) (w : World)
    (d : Dataset) :
  monotone rnd -> idempotent rnd ->
  0 < interval ->
  datasets w !! in_routes = Some d ->
  (forall route p f,
      route ∈ rows d -> shape route = PolylineShape p ->
      firstM p = Some f -> representable f) ->
  (forall (fuel : nat) (w' : World) (r : result string),
      create_point_event_table dist fuel in_routes name interval out w
      = (w', r) ->
      (exists r0, r = Ok r0) \/ r = Running ->
      exists table,
        datasets w' !! out = Some table /\
        forall ev, ev ∈ rows table ->
          exists (route : Row) (p : Polyline) (f l m : Q) (k : nat),
            route ∈ rows d /\ shape route = PolylineShape p /\
            firstM p = Some f /\ lastM p = Some l /\
            ev = event_row name (read_token dist route name) m /\
            attr ev "Measure" = VNum m /\
            f <= m /\ m < l /\ m = strides interval k f) /\
  ((forall route f l,
       route ∈ rows d -> route_range route = Ok (f, l) ->
       exists k, l <= strides interval k f) ->
   exists n, forall fuel, (n <= fuel)%nat ->
     snd (create_point_event_table dist fuel in_routes name interval out w)
     <> Running).
Proof.
  intros Hmono Hidem Hpos Hd Hfloat. split.
  - intros fuel w' r Hrun Hr.
    rewrite create_point_event_table_run, Hd in Hrun.
    destruct (List.filter _ (fields d)) as [|f fs'].
    { injection Hrun as _ <-. destruct Hr as [[r0 Hr]|Hr]; discriminate. }
    destruct (writable w out).
    2:{ injection Hrun as _ <-. destruct Hr as [[r0 Hr]|Hr]; discriminate. }
    cbv zeta in Hrun. rewrite lookup_with_dataset in Hrun.
    destruct (decide (out = in_routes)) as [Healias|Hne].
    + (* the routes are the table just created: it has no records *)
      destruct (cursor_fields_ok _ _).
      2:{ injection Hrun as _ <-. destruct Hr as [[r0 Hr]|Hr]; discriminate. }
      rewrite rows_event_table in Hrun. cbn in Hrun.
      injection Hrun as <- _. eexists.
      split; [rewrite lookup_with_dataset, decide_True by reflexivity;
              reflexivity|].
      intros ev Hev. cbn in Hev. inversion Hev.
    + rewrite Hd in Hrun.
      destruct (cursor_fields_ok d _).
      2:{ injection Hrun as _ <-. destruct Hr as [[r0 Hr]|Hr]; discriminate. }
      injection Hrun as <- _. eexists.
      split; [rewrite lookup_with_dataset, decide_True by reflexivity;
              reflexivity|].
      intros ev Hev. cbn [rows] in Hev.
      destruct (route_events_within dist name interval fuel (rows d) Hpos ev
                  Hev)
        as (route & p & fm & lm & m & k & H1 & H2 & H3 & H4 & H5 & H6 & H7).
      exists route, p, fm, lm, m, k.
      repeat (split; [assumption|]).
      split; [rewrite H5; apply attr_event_row_measure|].
      split; [|split; assumption].
      rewrite H6.
      exact (proj1 (strides_ascend interval Hpos Hmono Hidem k fm
                      (Hfloat route p fm H1 H2 H3))).
  - intros Hreach.
    destruct (List.filter (fun f => str_in (f_name f) name) (fields d))
      as [|f fs'] eqn:Hf.
    { exists 0%nat. intros fuel _.
      rewrite create_point_event_table_run, Hd, Hf. discriminate. }
    destruct (writable w out) eqn:Hw.
    2:{ exists 0%nat. intros fuel _.
        rewrite create_point_event_table_run, Hd, Hf, Hw. discriminate. }
    destruct (decide (out = in_routes)) as [Healias|Hne].
    + exists 0%nat. intros fuel _.
      rewrite create_point_event_table_run, Hd, Hf, Hw. cbv zeta.
      rewrite lookup_with_dataset, decide_True by exact Healias.
      destruct (cursor_fields_ok _ _); [|discriminate].
      rewrite rows_event_table. discriminate.
    + destruct (route_events_ends dist name interval (rows d) Hpos Hreach)
        as [n Hn].
      exists n. intros fuel Hfuel.
      rewrite create_point_event_table_run, Hd, Hf, Hw. cbv zeta.
      rewrite lookup_with_dataset, decide_False by exact Hne. rewrite Hd.
      destruct (cursor_fields_ok d [name; "SHAPE@"]); [|discriminate].
      specialize (Hn fuel Hfuel). cbn [snd].
      destruct (snd (route_events dist fuel name interval (rows d)));
        congruence.
Qed.
End EventClaims.

Lemma station_measures_within_route_witness :
  monotone (rnd (Rounding := float64)) /\
  idempotent (rnd (Rounding := float64)) /\
  0 < 25 /\
  datasets Demo.routes_world !! "routes" = Some Demo.routes /\
  (forall route p f,
      route ∈ rows Demo.routes -> shape route = PolylineShape p ->
      firstM p = Some f -> representable f) /\
  ((forall (fuel : nat) (w' : World) (r : result string),
       create_point_event_table Demo.dist fuel "routes" "NAME" 25 "events"
         Demo.routes_world
       = (w', r) ->
       (exists r0, r = Ok r0) \/ r = Running ->
       exists table,
         datasets w' !! "events" = Some table /\
         forall ev, ev ∈ rows table ->
           exists (route : Row) (p : Polyline) (f l m : Q) (k : nat),
             route ∈ rows Demo.routes /\ shape route = PolylineShape p /\
             firstM p = Some f /\ lastM p = Some l /\
             ev = event_row "NAME" (read_token Demo.dist route "NAME") m /\
             attr ev "Measure" = VNum m /\
             f <= m /\ m < l /\ m = strides 25 k f) /\
   ((forall route f l,
        route ∈ rows Demo.routes -> route_range route = Ok (f, l) ->
        exists k, l <= strides 25 k f) ->
    exists n, forall fuel, (n <= fuel)%nat ->
      snd (create_point_event_table Demo.dist fuel "routes" "NAME" 25
             "events" Demo.routes_world)
      <> Running)).
Proof.
  assert (Hfloat : forall route p f,
             route ∈ rows Demo.routes -> shape route = PolylineShape p ->
             firstM p = Some f -> representable f).
  { intros route p f Hin Hp Hf.
    apply elem_of_cons in Hin as [->|Hin]; [|inversion Hin].
    injection Hp as <-. injection Hf as <-. vm_compute. reflexivity. }
  split; [exact float64_monotone|]. split; [exact float64_idempotent|].
  split; [reflexivity|]. split; [reflexivity|]. split; [exact Hfloat|].
  apply (station_measures_within_route Demo.dist "routes" "NAME" 25 "events"
           Demo.routes_world Demo.routes);
    [exact float64_monotone|exact float64_idempotent|reflexivity|reflexivity|
     exact Hfloat].
Defined.

(** The end-to-end example of the specification: on the route of length
    100 and with interval 25, the events are at 0, 25, 50 and 75. *)
Example events_of_straight_line :
  exists w' table,
    create_point_event_table Demo.dist 5 "routes" "NAME" 25 "events"
      Demo.routes_world
    = (w', Ok "events") /\
    datasets w' !! "events" = Some table /\
    map (fun ev => (attr ev "NAME", attr ev "Measure")) (rows table)
    = [(VStr "A", VNum 0); (VStr "A", VNum 25); (VStr "A", VNum 50);
       (VStr "A", VNum 75)].
Proof.
  eexists. eexists. split; [vm_compute; reflexivity|].
  split; vm_compute; reflexivity.
Qed.

(** ** create_cross_section *)

Lemma elem_of_insert_by (leb : Row -> Row -> bool) (r x : Row) (l : list Row) :
  x ∈ insert_by leb r l <-> x = r \/ x ∈ l.
Proof.
  induction l as [|y l IH]; simpl.
  - rewrite elem_of_cons. reflexivity.
  - destruct (leb r y).
    + rewrite elem_of_cons. reflexivity.
    + rewrite !elem_of_cons, IH. tauto.
Qed.

Lemma elem_of_order_by (keys : list string) (x : Row) (l : list Row) :
  x ∈ order_by keys l <-> x ∈ l.
Proof.
  unfold order_by. induction l as [|y l IH]; [reflexivity|].
  cbn [fold_right]. rewrite elem_of_insert_by, IH, elem_of_cons.
  reflexivity.
Qed.

Lemma length_insert_by (leb : Row -> Row -> bool) (r : Row) (l : list Row) :
  length (insert_by leb r l) = S (length l).
Proof.
  induction l as [|y l IH]; simpl; [reflexivity|].
  destruct (leb r y); simpl; [reflexivity|]. rewrite IH. reflexivity.
Qed.

Lemma length_order_by (keys : list string) (l : list Row) :
  length (order_by keys l) = length l.
Proof.
  unfold order_by. induction l as [|y l IH]; [reflexivity|].
  cbn [fold_right]. rewrite length_insert_by, IH. reflexivity.
Qed.

Section CrossSection.
Variable dist : Q * Q -> Q * Q -> Q.
Context {R : Rounding}.
Variables cos sin radians : Q -> Q.
Variables out name : string.
Variable distance : Q.

(** The loop over the stations adds the records of [sections]. *)
Lemma insert_section_loop (stations : list Row) :
  forall (w : World) (fs : list Field) (rs : list Row),
  datasets w !! out = Some (mkDataset fs rs) ->
  for_each (map (read_row dist (search_fields name)) stations)
           (insert_section cos sin radians out (insert_fields name) distance) w
  = (with_dataset w out
       (mkDataset fs
          (rs ++ fst (sections dist cos sin radians name distance stations))),
     snd (sections dist cos sin radians name distance stations)).
Proof.
  induction stations as [|station stations IH]; intros w fs rs Hd.
  - simpl. rewrite app_nil_r, (with_dataset_same _ _ _ Hd). reflexivity.
  - cbn [map for_each sections]. rewrite bind_run.
    assert (Hstop : forall e,
               (with_dataset w out (mkDataset fs (rs ++ [])),
                @Raised unit e) = (w, Raised e)).
    { intros e. rewrite app_nil_r, (with_dataset_same _ _ _ Hd).
      reflexivity. }
    unfold insert_section at 1, station_section.
    rewrite bind_run, index_run.
    change (read_row dist (search_fields name) station !! 0%nat)
      with (Some (read_token dist station "SHAPE@XY")).
    cbv beta iota. rewrite bind_run.
    destruct (read_token dist station "SHAPE@XY") as [| | |mid_x mid_y|];
      try (cbn; rewrite Hstop; reflexivity).
    cbn [unpack_xy]. rewrite ret_run. cbv beta iota.
    rewrite bind_run, index_run.
    change (read_row dist (search_fields name) station !! 3%nat)
      with (Some (read_token dist station "LOC_ANGLE")).
    cbv beta iota. rewrite bind_run.
    destruct (read_token dist station "LOC_ANGLE") as [|angle| | |];
      try (cbn; rewrite Hstop; reflexivity).
    cbn [number]. rewrite ret_run. cbv beta iota zeta.
    rewrite bind_run, index_run.
    change (read_row dist (search_fields name) station !! 1%nat)
      with (Some (read_token dist station name)).
    cbv beta iota. rewrite bind_run, index_run.
    change (read_row dist (search_fields name) station !! 2%nat)
      with (Some (read_token dist station "Measure")).
    cbv beta iota.
    rewrite (insertRow_run _ _ _ _ (mkDataset fs rs));
      [|reflexivity|exact Hd].
    cbn [fields rows].
    rewrite (IH _ fs (rs ++ [write_row (insert_fields name)
               [VShape (PolylineShape
                          (cross_section_line cos sin radians distance
                                              mid_x mid_y angle));
                read_token dist station name;
                read_token dist station "Measure"]
               (mkRow NoShape ∅)])).
    + rewrite with_dataset_twice, <- app_assoc. reflexivity.
    + rewrite lookup_with_dataset, decide_True by reflexivity. reflexivity.
Qed.
End CrossSection.

Section CrossSectionRun.
Variable dist : Q * Q -> Q * Q -> Q.
Context {R : Rounding}.
Variables cos sin radians : Q -> Q.

Lemma rows_section_table (name : string) (f : Field) :
  rows (section_table name f) = [].
Proof. unfold section_table. rewrite !rows_add_field. reflexivity. Qed.

Lemma section_table_cursor_ok (name : string) (f : Field) :
  cursor_fields_ok (section_table name f) (insert_fields name) = true.
Proof.
  unfold cursor_fields_ok, section_table, insert_fields. cbn [forallb].
  rewrite !has_field_add_field, !String.eqb_refl, !orb_true_r.
  reflexivity.
Qed.

(** The whole run, on every path. *)
Lemma create_cross_section_run
    (station name : string) (width : Q) (out : string) (w : World) :
  create_cross_section dist cos sin radians station name width out w
  = match datasets w !! station with
    | None => (w, Raised (ExecuteError "spatial reference does not exist"))
    | Some d =>
        if writable w out then
          let w1 := with_dataset w out (mkDataset [] []) in
          if decide (out = station) then (w1, Raised IndexError)
          else
            match List.filter (fun f => str_in (f_name f) name) (fields d)
            with
            | [] => (w1, Raised IndexError)
            | f :: _ =>
                if cursor_fields_ok d (search_fields name)
                   && forallb (has_field d) [name; "Measure"]
                then
                  let secs :=
                    sections dist cos sin radians name (fdiv width 2)
                             (order_by [name; "Measure"] (rows d)) in
                  (with_dataset w out
                     (mkDataset (fields (section_table name f)) (fst secs)),
                   snd secs)
                else (with_dataset w out (section_table name f),
                      Raised (RuntimeError "cannot find field"))
            end
        else (w, Raised (ExecuteError "output already exists"))
    end.
Proof.
  unfold create_cross_section. rewrite bind_run, CreateFeatureclass_run.
  destruct (datasets w !! station) as [d|] eqn:Hd; [|reflexivity].
  destruct (writable w out); [|reflexivity].
  cbv zeta. mstep.
  destruct (decide (out = station)) as [Heq|Hne].
  { rewrite (get_field_run _ _ _ (mkDataset [] [])).
    - reflexivity.
    - rewrite lookup_with_dataset, decide_True by exact Heq. reflexivity. }
  rewrite (get_field_run _ _ _ d).
  2:{ rewrite lookup_with_dataset, decide_False by exact Hne. exact Hd. }
  destruct (List.filter _ (fields d)) as [|f fs']; [reflexivity|].
  mstep; rewrite AddField_run, lookup_with_dataset.
  rewrite decide_True by reflexivity. rewrite with_dataset_twice.
  mstep; rewrite AddField_run, lookup_with_dataset.
  rewrite decide_True by reflexivity. rewrite with_dataset_twice.
  fold (section_table name f).
  mstep; rewrite InsertCursor_run, lookup_with_dataset.
  rewrite decide_True by reflexivity. rewrite section_table_cursor_ok.
  mstep; rewrite SearchCursor_run, lookup_with_dataset.
  rewrite decide_False by exact Hne. rewrite Hd.
  destruct (cursor_fields_ok d (search_fields name)
            && forallb (has_field d) [name; "Measure"]); [|reflexivity].
  cbv beta iota.
  rewrite (insert_section_loop dist cos sin radians out name (fdiv width 2) _ _
             (fields (section_table name f)) []).
  - rewrite with_dataset_twice. reflexivity.
  - rewrite lookup_with_dataset, decide_True by reflexivity.
    pose proof (rows_section_table name f) as Hrows.
    destruct (section_table name f). simpl in Hrows. rewrite Hrows.
    reflexivity.
Qed.

(** Every station has its record among the sections of a loop that ends
    normally, and every record comes from a station. *)
Lemma sections_complete (name : string) (distance : Q) (stations : list Row) :
  snd (sections dist cos sin radians name distance stations) = Ok tt ->
  forall station, station ∈ stations ->
  exists section,
    station_section dist cos sin radians name distance station = Ok section /\
    section ∈ fst (sections dist cos sin radians name distance stations).
Proof.
  induction stations as [|s stations IH]; intros Hok station Hin.
  - inversion Hin.
  - cbn [sections] in *.
    destruct (station_section dist cos sin radians name distance s)
      as [sec|e|] eqn:Hs; try discriminate.
    cbn [fst snd] in *. apply elem_of_cons in Hin as [->|Hin].
    + exists sec. split; [exact Hs|]. apply elem_of_cons. left. reflexivity.
    + destruct (IH Hok _ Hin) as (sec' & Hsec' & Hin').
      exists sec'. split; [exact Hsec'|]. apply elem_of_cons. right.
      exact Hin'.
Qed.

Lemma sections_sound (name : string) (distance : Q) (stations : list Row) :
  forall section,
  section ∈ fst (sections dist cos sin radians name distance stations) ->
  exists station,
    station ∈ stations /\
    station_section dist cos sin radians name distance station = Ok section.
Proof.
  induction stations as [|s stations IH]; intros section Hin.
  - inversion Hin.
  - cbn [sections] in Hin.
    destruct (station_section dist cos sin radians name distance s)
      as [sec|e|] eqn:Hs; try (inversion Hin; fail).
    cbn [fst] in Hin. apply elem_of_cons in Hin as [->|Hin].
    + exists s. split; [apply elem_of_cons; left; reflexivity|exact Hs].
    + destruct (IH _ Hin) as (st & Hst & Hsec).
      exists st. split; [apply elem_of_cons; right; exact Hst|exact Hsec].
Qed.

(** How the loop ends does not depend on the distance. *)
Lemma sections_result (name : string) (d1 d2 : Q) (stations : list Row) :
  snd (sections dist cos sin radians name d1 stations)
  = snd (sections dist cos sin radians name d2 stations).
Proof.
  induction stations as [|s stations IH]; [reflexivity|].
  cbn [sections]. unfold station_section.
  destruct (read_token dist s "SHAPE@XY"); try reflexivity.
  destruct (read_token dist s "LOC_ANGLE"); try reflexivity.
  cbn [snd]. exact IH.
Qed.
End CrossSectionRun.

Section CrossSectionClaims.
Variable dist : Q * Q -> Q * Q -> Q.
Context {R : Rounding}.
Variables cos sin radians : Q -> Q.

(** The record built for a located station. *)
Lemma station_section_located (name : string) (distance : Q) (station : Row)
    (mid_x mid_y b : Q) :
  shape station = PointShape mid_x mid_y ->
  attr station "LOC_ANGLE" = VNum b ->
  station_section dist cos sin radians name distance station
  = Ok (write_row (insert_fields name)
          [VShape (PolylineShape
                     (cross_section_line cos sin radians distance
                                         mid_x mid_y b));
           read_token dist station name;
           read_token dist station "Measure"]
          (mkRow NoShape ∅)).
Proof.
  intros Hshape Hangle. unfold station_section.
  change (read_token dist station "SHAPE@XY")
    with (match shape station with
          | PointShape x y => VXY x y
          | _ => VNone
          end).
  change (read_token dist station "LOC_ANGLE")
    with (attr station "LOC_ANGLE").
  rewrite Hshape, Hangle. reflexivity.
Qed.

(** A record of the loop comes from a located station. *)
Lemma station_section_ok (name : string) (distance : Q) (station section : Row) :
  station_section dist cos sin radians name distance station = Ok section ->
  exists mid_x mid_y b,
    shape station = PointShape mid_x mid_y /\
    attr station "LOC_ANGLE" = VNum b.
Proof.
  unfold station_section.
  change (read_token dist station "SHAPE@XY")
    with (match shape station with
          | PointShape x y => VXY x y
          | _ => VNone
          end).
  change (read_token dist station "LOC_ANGLE")
    with (attr station "LOC_ANGLE").
  destruct (shape station) as [|x y|p]; try discriminate.
  destruct (attr station "LOC_ANGLE") as [|b| | |]; try discriminate.
  intros _. eauto.
Qed.

(** The geometry and the measure of the record written for a station. *)
Lemma section_row_content (name : string) (g : Geometry) (id m : value) :
  name <> "SHAPE@" ->
  let section :=
    write_row (insert_fields name) [VShape g; id; m] (mkRow NoShape ∅) in
  shape section = g /\ attr section "Measure" = m.
Proof.
  intros Hname. cbv zeta. unfold insert_fields, write_row.
  change (write_token (mkRow NoShape ∅) "SHAPE@" (VShape g))
    with (mkRow g ∅).
  assert (Hs : shape (write_token (mkRow g ∅) name id) = g).
  { unfold write_token. apply String.eqb_neq in Hname. rewrite Hname.
    destruct (_ || _); reflexivity. }
  set (r := write_token (mkRow g ∅) name id) in *.
  change (write_token r "Measure" m)
    with (mkRow (shape r) (<["Measure" := m]> (attrs r))).
  split; [exact Hs|]. unfold attr. cbn [attrs].
  rewrite lookup_insert_eq. reflexivity.
Qed.

(** C4.  When create_cross_section returns, the output holds one record
    per station, and the record of a station at (mid_x, mid_y) with angle
    b is the polyline of the three points [from_point; mid_point;
    to_point], in this order, with distance = width/2,
    from_point = (mid_x + distance*cos(radians(b)),
                  mid_y + distance*sin(radians(b))) and
    to_point = (mid_x - distance*cos(radians(b)),
                mid_y - distance*sin(radians(b))), every operation being
    the script's float operation: the station is the middle vertex.  The
    record carries the station's measure. *)
Theorem cross_section_three_points
    (station_fc name : string) (width : Q) (out : string) (w w' : World) :
  name <> "SHAPE@" ->
  create_cross_section dist cos sin radians station_fc name width out w
  = (w', Ok tt) ->
  let distance := fdiv width 2 in
  let line mid_x mid_y b :=
    mkPolyline
      [[(fadd mid_x (fmul distance (cos (radians b))),
         fadd mid_y (fmul distance (sin (radians b))));
        (mid_x, mid_y);
        (fsub mid_x (fmul distance (cos (radians b))),
         fsub mid_y (fmul distance (sin (radians b))))]]
      None None in
  exists d table,
    datasets w !! station_fc = Some d /\
    datasets w' !! out = Some table /\
    length (rows table) = length (rows d) /\
    (forall station mid_x mid_y b,
        station ∈ rows d ->
        shape station = PointShape mid_x mid_y ->
        attr station "LOC_ANGLE" = VNum b ->
        exists section,
          section ∈ rows table /\
          shape section = PolylineShape (line mid_x mid_y b) /\
          attr section "Measure" = attr station "Measure") /\
    (forall section,
        section ∈ rows table ->
        exists station mid_x mid_y b,
          station ∈ rows d /\
          shape station = PointShape mid_x mid_y /\
          attr station "LOC_ANGLE" = VNum b /\
          shape section = PolylineShape (line mid_x mid_y b) /\
          attr section "Measure" = attr station "Measure").
Proof.
  intros Hname Hrun distance line.
  rewrite create_cross_section_run in Hrun.
  destruct (datasets w !! station_fc) as [d|] eqn:Hd; [|discriminate].
  destruct (writable w out); [|discriminate].
  cbv zeta in Hrun.
  destruct (decide (out = station_fc)); [discriminate|].
  destruct (List.filter _ (fields d)) as [|f fs']; [discriminate|].
  destruct (cursor_fields_ok d (search_fields name) && _); [|discriminate].
  injection Hrun as <- Hok. fold distance in Hok |- *.
  set (stations := order_by [name; "Measure"] (rows d)) in *.
  exists d. eexists. split; [reflexivity|].
  split; [rewrite lookup_with_dataset, decide_True by reflexivity;
          reflexivity|].
  cbn [rows].
  assert (Hcontent : forall station mid_x mid_y b section,
             shape station = PointShape mid_x mid_y ->
             attr station "LOC_ANGLE" = VNum b ->
             station_section dist cos sin radians name distance station
             = Ok section ->
             shape section = PolylineShape (line mid_x mid_y b) /\
             attr section "Measure" = attr station "Measure").
  { intros station mid_x mid_y b section Hshape Hangle Hsec.
    rewrite (station_section_located name distance station _ _ _
               Hshape Hangle) in Hsec.
    injection Hsec as <-. apply section_row_content, Hname. }
  split; [|split].
  - (* one record per station *)
    rewrite <- (length_order_by [name; "Measure"] (rows d)).
    fold stations. clear -Hok. revert Hok.
    induction stations as [|s stations IH]; [reflexivity|].
    cbn [sections].
    destruct (station_section dist cos sin radians name distance s);
      try discriminate.
    cbn [fst snd length]. intros Hok. rewrite (IH Hok). reflexivity.
  - intros station mid_x mid_y b Hin Hshape Hangle.
    destruct (sections_complete dist cos sin radians name distance stations
                Hok station) as (section & Hsec & Hsin).
    { apply elem_of_order_by, Hin. }
    exists section. split; [exact Hsin|].
    exact (Hcontent _ _ _ _ _ Hshape Hangle Hsec).
  - intros section Hin.
    destruct (sections_sound dist cos sin radians name distance stations
                section Hin) as (station & Hst & Hsec).
    destruct (station_section_ok _ _ _ _ Hsec)
      as (mid_x & mid_y & b & Hshape & Hangle).
    exists station, mid_x, mid_y, b.
    split; [apply elem_of_order_by in Hst; exact Hst|].
    split; [exact Hshape|]. split; [exact Hangle|].
    exact (Hcontent _ _ _ _ _ Hshape Hangle Hsec).
Qed.
End CrossSectionClaims.

Lemma cross_section_three_points_witness :
  "NAME" <> "SHAPE@" /\
  create_cross_section Demo.dist Demo.cos Demo.sin Demo.radians
    "stations" "NAME" 10 "xs" Demo.stations_world
  = (Demo.sections_world, Ok tt) /\
  (let distance := fdiv 10 2 in
   let line mid_x mid_y b :=
     mkPolyline
       [[(fadd mid_x (fmul distance (Demo.cos (Demo.radians b))),
          fadd mid_y (fmul distance (Demo.sin (Demo.radians b))));
         (mid_x, mid_y);
         (fsub mid_x (fmul distance (Demo.cos (Demo.radians b))),
          fsub mid_y (fmul distance (Demo.sin (Demo.radians b))))]]
       None None in
   exists d table,
     datasets Demo.stations_world !! "stations" = Some d /\
     datasets Demo.sections_world !! "xs" = Some table /\
     length (rows table) = length (rows d) /\
     (forall station mid_x mid_y b,
         station ∈ rows d ->
         shape station = PointShape mid_x mid_y ->
         attr station "LOC_ANGLE" = VNum b ->
         exists section,
           section ∈ rows table /\
           shape section = PolylineShape (line mid_x mid_y b) /\
           attr section "Measure" = attr station "Measure") /\
     (forall section,
         section ∈ rows table ->
         exists station mid_x mid_y b,
           station ∈ rows d /\
           shape station = PointShape mid_x mid_y /\
           attr station "LOC_ANGLE" = VNum b /\
           shape section = PolylineShape (line mid_x mid_y b) /\
           attr section "Measure" = attr station "Measure")).
Proof.
  split; [discriminate|]. split; [vm_compute; reflexivity|].
  apply (cross_section_three_points Demo.dist Demo.cos Demo.sin Demo.radians
           "stations" "NAME" 10 "xs" Demo.stations_world Demo.sections_world);
    [discriminate|vm_compute; reflexivity].
Defined.

(** The stations are read in the order of (identifier, measure), and the
    section at measure 50, of width 10 and angle 90, runs from 5 above the
    station through the station to 5 below it. *)
Example cross_sections_of_straight_line :
  exists table,
    datasets Demo.sections_world !! "xs" = Some table /\
    map (fun r => attr r "Measure") (rows table)
    = [VNum 0; VNum 25; VNum 50; VNum 75] /\
    cross_section_line Demo.cos Demo.sin Demo.radians (fdiv 10 2) 50 0 90
    = mkPolyline [[(50, 5); (50, 0); (50, -5)]] None None.
Proof.
  eexists. split; [vm_compute; reflexivity|].
  split; vm_compute; reflexivity.
Qed.

(** ** Invalid numbers and unknown fields *)

Section Validation.
Variable dist : Q * Q -> Q * Q -> Q.
Context {R : Rounding}.
Variables cos sin radians : Q -> Q.

(** A negative interval gives the records of its absolute value. *)
Lemma route_events_negative (fuel : nat) (name : string) (interval : Q)
    (routes : list Row) :
  interval < 0 ->
  route_events dist fuel name interval routes
  = route_events dist fuel name (- interval) routes.
Proof.
  intros Hneg. induction routes as [|route routes IH]; [reflexivity|].
  cbn [route_events]. destruct (route_range route) as [[f l]| |];
    try reflexivity.
  cbv zeta.
  rewrite (collect_ext (frange_next l interval) (frange_next l (- interval)))
    by (intros r; apply frange_next_neg, Hneg).
  rewrite (first_yields_ext (frange_next l interval)
             (frange_next l (- interval)))
    by (intros r; apply frange_next_neg, Hneg).
  rewrite IH. reflexivity.
Qed.

(** C6, amended.  Neither operation checks its number.  A negative
    interval is taken by create_point_event_table as its absolute value:
    the run does, to the workspace and as its outcome, what it does for
    [-interval].  How create_cross_section ends, normally or with which
    exception, is the same for every width, also a width <= 0. *)
Theorem interval_and_width_not_checked
    (fuel : nat) (in_routes name : string) (interval : Q) (out : string)
    (w : World)
    (station_fc name' : string) (width width' : Q) (out' : string)
    (w2 : World) :
  interval < 0 ->
  create_point_event_table dist fuel in_routes name interval out w
  = create_point_event_table dist fuel in_routes name (- interval) out w
  /\
  snd (create_cross_section dist cos sin radians station_fc name' width out'
         w2)
  = snd (create_cross_section dist cos sin radians station_fc name' width'
           out' w2).
Proof.
  intros Hneg. split.
  - rewrite !create_point_event_table_run.
    destruct (datasets w !! in_routes) as [d|]; [|reflexivity].
    destruct (List.filter _ (fields d)) as [|f fs']; [reflexivity|].
    destruct (writable w out); [|reflexivity].
    cbv zeta.
    destruct (datasets _ !! in_routes) as [d'|]; [|reflexivity].
    destruct (cursor_fields_ok d' _); [|reflexivity].
    rewrite (route_events_negative _ _ _ _ Hneg). reflexivity.
  - rewrite !create_cross_section_run.
    destruct (datasets w2 !! station_fc) as [d|]; [|reflexivity].
    destruct (writable w2 out'); [|reflexivity].
    cbv zeta.
    destruct (decide (out' = station_fc)); [reflexivity|].
    destruct (List.filter _ (fields d)) as [|f fs']; [reflexivity|].
    destruct (cursor_fields_ok d _ && _); [|reflexivity].
    cbn [snd]. apply sections_result.
Qed.

(** When no field's name is a substring of the requested name,
    create_point_event_table raises IndexError and has written nothing. *)
Lemma unmatched_field_raises_first (fuel : nat) (in_routes name : string)
    (interval : Q) (out : string) (w : World) (d : Dataset) :
  datasets w !! in_routes = Some d ->
  (forall g, g ∈ fields d -> ~ occurs_in (f_name g) name) ->
  create_point_event_table dist fuel in_routes name interval out w
  = (w, Raised IndexError).
Proof.
  intros Hd Hnone. rewrite create_point_event_table_run, Hd.
  pose proof (filter_head (fun f => str_in (f_name f) name) (fields d)) as H.
  destruct (List.filter _ (fields d)) as [|f fs']; [reflexivity|].
  exfalso. destruct H as (before & after & Heq & Hf & _).
  apply (Hnone f).
  - rewrite Heq. apply elem_of_app. right. apply elem_of_cons. left.
    reflexivity.
  - apply str_in_spec, Hf.
Qed.
End Validation.

(** C6, as stated, fails: an interval of -25 and a width of -10 or 0 are
    not rejected.  The event table is written with the events of interval
    25, and the cross-sections are written. *)
Lemma interval_and_width_counterexample :
  (exists w' table,
      create_point_event_table Demo.dist 5 "routes" "NAME" (-25) "events"
        Demo.routes_world
      = (w', Ok "events") /\
      datasets w' !! "events" = Some table /\
      map (fun ev => attr ev "Measure") (rows table)
      = [VNum 0; VNum 25; VNum 50; VNum 75]) /\
  (exists w' table,
      create_cross_section Demo.dist Demo.cos Demo.sin Demo.radians
        "stations" "NAME" (-10) "xs" Demo.stations_world
      = (w', Ok tt) /\
      datasets w' !! "xs" = Some table /\ length (rows table) = 4%nat) /\
  (exists w' table,
      create_cross_section Demo.dist Demo.cos Demo.sin Demo.radians
        "stations" "NAME" 0 "xs" Demo.stations_world
      = (w', Ok tt) /\
      datasets w' !! "xs" = Some table /\ length (rows table) = 4%nat).
Proof.
  split; [|split].
  - eexists. eexists. split; [vm_compute; reflexivity|].
    split; vm_compute; reflexivity.
  - eexists. eexists. split; [vm_compute; reflexivity|].
    split; vm_compute; reflexivity.
  - eexists. eexists. split; [vm_compute; reflexivity|].
    split; vm_compute; reflexivity.
Qed.

Lemma interval_and_width_not_checked_witness :
  -25 < 0 /\
  (create_point_event_table Demo.dist 5 "routes" "NAME" (-25) "events"
     Demo.routes_world
   = create_point_event_table Demo.dist 5 "routes" "NAME" (- -25) "events"
       Demo.routes_world
   /\
   snd (create_cross_section Demo.dist Demo.cos Demo.sin Demo.radians
          "stations" "NAME" (-10) "xs" Demo.stations_world)
   = snd (create_cross_section Demo.dist Demo.cos Demo.sin Demo.radians
            "stations" "NAME" 10 "xs" Demo.stations_world)).
Proof.
  split; [reflexivity|].
  apply (interval_and_width_not_checked Demo.dist Demo.cos Demo.sin
           Demo.radians 5 "routes" "NAME" (-25) "events" Demo.routes_world
           "stations" "NAME" (-10) 10 "xs" Demo.stations_world).
  reflexivity.
Defined.

(** C8: the run on the failing input.  The routes have the fields "ID" and
    "NAME" and no field "ROUTE_ID"; asked for "ROUTE_ID",
    create_point_event_table does not stop at [get_field], which answers
    with the field "ID": it creates the event table with a field
    "ROUTE_ID" of the type of "ID", and fails only when the search cursor
    does not find "ROUTE_ID". *)
Theorem unknown_field_found_after_output :
  has_field Demo.id_routes "ROUTE_ID" = false /\
  datasets Demo.id_world !! "events" = None /\
  exists w',
    create_point_event_table Demo.dist 5 "id_routes" "ROUTE_ID" 25 "events"
      Demo.id_world
    = (w', Raised (RuntimeError "cannot find field")) /\
    datasets w' !! "events"
    = Some (mkDataset [mkField "ROUTE_ID" "Integer" 4;
                       mkField "Measure" "DOUBLE" 0] []).
Proof.
  split; [reflexivity|]. split; [reflexivity|].
  eexists. split; vm_compute; reflexivity.
Qed.

(** ** The pipelines *)

(** StationPointsAndCrossSections.execute on the straight line: stations
    every 25 units, sections of width 10.  The in_memory event table and
    the event layer are still in the workspace when it returns. *)
Example stations_pipeline_leaves_event_table :
  exists w' table,
    StationPointsAndCrossSections_execute
      Demo.dist Demo.locate Demo.cos Demo.sin Demo.radians 5
      "lines" "NAME" 25 10 "routes" "stations" "xs" Demo.world
    = (w', Ok tt) /\
    datasets w' !! "xs" = Some table /\
    map (fun r => (attr r "Measure", shape r)) (rows table)
    = map (fun m =>
             (VNum m,
              PolylineShape
                (cross_section_line Demo.cos Demo.sin Demo.radians (fdiv 10 2)
                   (0 + m / 100 * (100 - 0)) (0 + m / 100 * (0 - 0)) 90)))
          [0; 25; 50; 75] /\
    is_Some (datasets w' !! "in_memory/event_table") /\
    is_Some (datasets w' !! "Point Events") /\
    datasets w' !! "in_memory/theLine" = None.
Proof.
  eexists. eexists. split; [vm_compute; reflexivity|].
  split; [vm_compute; reflexivity|]. split; [vm_compute; reflexivity|].
  split; [vm_compute; eauto|]. split; [vm_compute; eauto|].
  vm_compute; reflexivity.
Qed.

(** PointsAlongLine.execute deletes both before it returns. *)
Example points_pipeline_cleans_up :
  exists w',
    PointsAlongLine_execute Demo.dist Demo.locate 5
      "lines" "NAME" 25 "stations" "routes" Demo.world
    = (w', Ok tt) /\
    datasets w' !! "in_memory/event_table" = None /\
    datasets w' !! "Point Events" = None /\
    datasets w' !! "in_memory/theLine" = None.
Proof.
  eexists. split; [vm_compute; reflexivity|].
  repeat split; vm_compute; reflexivity.
Qed.

(** * Further properties of the scripts *)

(** ** frange *)

(** X2.  Raising [stop] only adds values at the end: for the same start
    and step, of any sign, what [frange] yields up to [stop1] is a prefix
    of what it yields up to a later [stop2]. *)
Theorem frange_prefix_of_later_stop `{Rounding} (start stop1 stop2 step : Q)
    (fuel1 fuel2 : nat) (l1 l2 : list Q) :
  stop1 <= stop2 ->
  frange fuel1 start stop1 step = Some l1 ->
  frange fuel2 start stop2 step = Some l2 ->
  l1 `prefix_of` l2.
Proof.
  intros Hstop. unfold frange. revert start fuel2 l1 l2.
  induction fuel1 as [|fuel1 IH]; intros r fuel2 l1 l2 H1 H2; [discriminate|].
  rewrite collect_S in H1. unfold frange_next at 1 in H1.
  destruct (Qlt_bool r stop1) eqn:Hlt1.
  - destruct fuel2 as [|fuel2]; [discriminate|].
    rewrite collect_S in H2. unfold frange_next at 1 in H2.
    assert (Hlt2 : Qlt_bool r stop2 = true).
    { apply Qlt_bool_iff. apply Qlt_bool_iff in Hlt1. lra. }
    rewrite Hlt2 in H2.
    destruct (collect _ fuel1 _) as [l1'|] eqn:E1; [|discriminate].
    destruct (collect _ fuel2 _) as [l2'|] eqn:E2; [|discriminate].
    injection H1 as <-. injection H2 as <-.
    apply prefix_cons. exact (IH _ _ _ _ E1 E2).
  - injection H1 as <-. apply prefix_nil.
Qed.

Lemma frange_prefix_of_later_stop_witness :
  9 <= 10 /\
  frange 4 0 9 3 = Some [0; 3; 6] /\
  frange 5 0 10 3 = Some [0; 3; 6; 9] /\
  [0; 3; 6] `prefix_of` [0; 3; 6; 9].
Proof.
  split; [discriminate|]. split; [reflexivity|]. split; [reflexivity|].
  apply (frange_prefix_of_later_stop 0 9 10 3 4 5); [discriminate|
    reflexivity|reflexivity].
Defined.

(** X3.  With a step equal to zero and [start < stop], [frange] never
    returns: whatever the number of resumptions, it is still running, and
    each resumption has yielded a value equal to [start]. *)
Theorem frange_zero_step `{Rounding} (start stop step : Q) :
  monotone rnd -> representable start ->
  step == 0 ->
  start < stop ->
  forall n : nat,
    frange n start stop step = None /\
    length (first_yields (frange_next stop step) n start) = n /\
    Forall (fun x => x == start)
           (first_yields (frange_next stop step) n start).
Proof.
  intros Hmono Hstart Hzero Hlt n. unfold frange.
  assert (Hgen : forall r, r == start ->
             collect (frange_next stop step) n r = None /\
             length (first_yields (frange_next stop step) n r) = n /\
             Forall (fun x => x == start)
                    (first_yields (frange_next stop step) n r)).
  { induction n as [|n IH]; intros r Hr.
    - repeat split. constructor.
    - assert (Hnext : frange_next stop step r = Some (r, fsub r step)).
      { unfold frange_next.
        assert (Hb : Qlt_bool r stop = true).
        { apply Qlt_bool_iff. rewrite Hr. exact Hlt. }
        assert (Hs : Qlt_bool 0 step = false).
        { apply Qlt_bool_false_iff. rewrite Hzero. apply Qle_refl. }
        rewrite Hb, Hs. reflexivity. }
      rewrite collect_S. cbn [first_yields]. rewrite Hnext.
      destruct (IH (fsub r step)) as (Hc & Hn & Hall).
      { unfold fsub. unfold representable in Hstart.
        apply Qeq_trans with (rnd start); [|exact Hstart].
        apply monotone_comp; [exact Hmono|]. rewrite Hr, Hzero. ring. }
      rewrite Hc. split; [reflexivity|]. split.
      + cbn [length]. rewrite Hn. reflexivity.
      + constructor; assumption. }
  apply Hgen. reflexivity.
Qed.

Lemma frange_zero_step_witness :
  monotone (rnd (Rounding := float64)) /\
  representable 0 /\ 0 == 0 /\ 0 < 9 /\
  forall n : nat,
    frange n 0 9 0 = None /\
    length (first_yields (frange_next 9 0) n 0) = n /\
    Forall (fun x => x == 0) (first_yields (frange_next 9 0) n 0).
Proof.
  split; [exact float64_monotone|]. split; [reflexivity|].
  split; [reflexivity|]. split; [reflexivity|].
  apply (frange_zero_step 0 9 0);
    [exact float64_monotone|reflexivity|reflexivity|reflexivity].
Defined.

(** ** get_field *)

Lemma append_empty_r (s : string) : s +:+ "" = s.
Proof.
  induction s as [|c s IH]; [reflexivity|].
  change (String c (s +:+ "") = String c s). rewrite IH. reflexivity.
Qed.

Lemma occurs_in_refl (s : string) : occurs_in s s.
Proof.
  exists "", "". change ("" +:+ s +:+ "") with (s +:+ "").
  rewrite append_empty_r. reflexivity.
Qed.

(** X4.  [get_field] answers with the field of the requested name when the
    dataset has one and no field of another name has a name contained in
    the requested one. *)
Theorem get_field_exact_name
    (w : World) (dataset requested : string) (d : Dataset) :
  datasets w !! dataset = Some d ->
  (exists f, f ∈ fields d /\ f_name f = requested) ->
  (forall g, g ∈ fields d -> occurs_in (f_name g) requested ->
             f_name g = requested) ->
  exists f,
    get_field dataset requested w = (w, Ok f) /\
    f ∈ fields d /\ f_name f = requested.
Proof.
  intros Hd (f & Hf & Hname) Honly. rewrite (get_field_run _ _ _ _ Hd).
  pose proof (filter_head (fun f => str_in (f_name f) requested) (fields d))
    as Hhead.
  destruct (List.filter _ (fields d)) as [|f' rest].
  - exfalso. specialize (Hhead f Hf). apply str_in_false in Hhead.
    apply Hhead. rewrite Hname. apply occurs_in_refl.
  - destruct Hhead as (before & after & Heq & Hin & _).
    assert (Hf' : f' ∈ fields d).
    { rewrite Heq. apply elem_of_app. right. apply elem_of_cons. left.
      reflexivity. }
    exists f'. split; [reflexivity|]. split; [exact Hf'|].
    apply Honly; [exact Hf'|]. apply str_in_spec, Hin.
Qed.

Lemma get_field_exact_name_witness :
  datasets Demo.routes_world !! "routes" = Some Demo.routes /\
  (exists f, f ∈ fields Demo.routes /\ f_name f = "NAME") /\
  (forall g, g ∈ fields Demo.routes -> occurs_in (f_name g) "NAME" ->
             f_name g = "NAME") /\
  exists f,
    get_field "routes" "NAME" Demo.routes_world = (Demo.routes_world, Ok f) /\
    f ∈ fields Demo.routes /\ f_name f = "NAME".
Proof.
  assert (H1 : exists f, f ∈ fields Demo.routes /\ f_name f = "NAME").
  { exists (mkField "NAME" "String" 20). split; [|reflexivity].
    apply elem_of_cons. left. reflexivity. }
  assert (H2 : forall g, g ∈ fields Demo.routes ->
                 occurs_in (f_name g) "NAME" -> f_name g = "NAME").
  { intros g Hg _. apply elem_of_cons in Hg as [->|Hg]; [reflexivity|].
    inversion Hg. }
  split; [reflexivity|]. split; [exact H1|]. split; [exact H2|].
  exact (get_field_exact_name Demo.routes_world "routes" "NAME" Demo.routes
           eq_refl H1 H2).
Defined.

(** ** create_point_event_table *)

Lemma with_dataset_frame (w : World) (out : string) (d : Dataset) :
  overwriteOutput (with_dataset w out d) = overwriteOutput w /\
  forall p, p <> out ->
            datasets (with_dataset w out d) !! p = datasets w !! p.
Proof.
  split; [reflexivity|]. intros p Hp.
  rewrite lookup_with_dataset, decide_False by congruence. reflexivity.
Qed.

Section EventTableMore.
Variable dist : Q * Q -> Q * Q -> Q.
Context {R : Rounding}.

(** What a run of create_point_event_table can change. *)
Lemma create_point_event_table_frame
    (fuel : nat) (in_routes name : string) (interval : Q) (out : string)
    (w : World) :
  let w' := fst (create_point_event_table dist fuel in_routes name interval
                   out w) in
  overwriteOutput w' = overwriteOutput w /\
  forall p, p <> out -> datasets w' !! p = datasets w !! p.
Proof.
  cbv zeta. rewrite create_point_event_table_run.
  destruct (datasets w !! in_routes) as [d|]; [|auto].
  destruct (List.filter _ (fields d)) as [|f fs']; [auto|].
  destruct (writable w out); [|auto].
  cbv zeta.
  destruct (datasets _ !! in_routes) as [d'|]; [|apply with_dataset_frame].
  destruct (cursor_fields_ok d' _); apply with_dataset_frame.
Qed.

(** X5.  However create_point_event_table ends (normally, with an
    exception, or still running), it has changed nothing but the output
    table: every other dataset, the routes included, and the overwrite
    setting are as before. *)
Theorem create_point_event_table_touches_only_output
    (fuel : nat) (in_routes name : string) (interval : Q) (out : string)
    (w w' : World) (r : result string) :
  create_point_event_table dist fuel in_routes name interval out w = (w', r) ->
  overwriteOutput w' = overwriteOutput w /\
  forall p, p <> out -> datasets w' !! p = datasets w !! p.
Proof.
  intros Hrun.
  pose proof (create_point_event_table_frame fuel in_routes name interval
                out w) as H.
  rewrite Hrun in H. exact H.
Qed.

(** A run that returns normally has gone through every step. *)
Lemma create_point_event_table_ok
    (fuel : nat) (in_routes name : string) (interval : Q) (out : string)
    (w w' : World) (r : string) :
  create_point_event_table dist fuel in_routes name interval out w
  = (w', Ok r) ->
  exists d f routes,
    datasets w !! in_routes = Some d /\
    first_field_in (fields d) name f /\
    (out <> in_routes -> routes = rows d) /\
    snd (route_events dist fuel name interval routes) = Ok tt /\
    w' = with_dataset w out
           (mkDataset (fields (event_table name f))
                      (fst (route_events dist fuel name interval routes))).
Proof.
  intros Hrun. rewrite create_point_event_table_run in Hrun.
  destruct (datasets w !! in_routes) as [d|] eqn:Hd; [|discriminate].
  destruct (List.filter _ (fields d)) as [|f fs'] eqn:Hf; [discriminate|].
  destruct (writable w out); [|discriminate].
  cbv zeta in Hrun. rewrite lookup_with_dataset in Hrun.
  assert (Hfirst : first_field_in (fields d) name f).
  { apply first_field_in_filter. eauto. }
  destruct (decide (out = in_routes)) as [Heq|Hne].
  - destruct (cursor_fields_ok _ _); [|discriminate].
    exists d, f, (rows (event_table name f)).
    split; [reflexivity|]. split; [exact Hfirst|].
    split; [intros H; contradiction|].
    destruct (snd (route_events dist fuel name interval _)) as [[]| |] eqn:Hs;
      try discriminate.
    split; [reflexivity|]. injection Hrun as <- _. reflexivity.
  - rewrite Hd in Hrun.
    destruct (cursor_fields_ok _ _); [|discriminate].
    exists d, f, (rows d).
    split; [reflexivity|]. split; [exact Hfirst|].
    split; [reflexivity|].
    destruct (snd (route_events dist fuel name interval _)) as [[]| |] eqn:Hs;
      try discriminate.
    split; [reflexivity|]. injection Hrun as <- _. reflexivity.
Qed.

(** X6.  The event table has, first, a field of the requested name with
    the type and the length of the field [get_field] answered with, and
    then the field Measure of type DOUBLE. *)
Theorem event_table_schema
    (fuel : nat) (in_routes name : string) (interval : Q) (out : string)
    (w w' : World) (r : string) :
  name <> "Measure" ->
  create_point_event_table dist fuel in_routes name interval out w
  = (w', Ok r) ->
  exists d f table g,
    datasets w !! in_routes = Some d /\
    first_field_in (fields d) name f /\
    datasets w' !! out = Some table /\
    fields table = [mkField name (f_type f) (f_length f); g] /\
    f_name g = "Measure" /\ f_type g = "DOUBLE".
Proof.
  intros Hname Hrun.
  destruct (create_point_event_table_ok _ _ _ _ _ _ _ _ Hrun)
    as (d & f & routes & Hd & Hf & _ & _ & ->).
  exists d, f. eexists. exists (mkField "Measure" "DOUBLE" 0).
  split; [exact Hd|]. split; [exact Hf|].
  split; [rewrite lookup_with_dataset, decide_True by reflexivity;
          reflexivity|].
  split; [|split; reflexivity].
  cbn [fields]. unfold event_table, add_field at 2. cbn [has_field fields].
  cbn [existsb]. unfold add_field. cbn [has_field fields app existsb f_name].
  apply String.eqb_neq in Hname. rewrite Hname. reflexivity.
Qed.
End EventTableMore.

Lemma create_point_event_table_touches_only_output_witness :
  create_point_event_table Demo.dist 5 "id_routes" "ROUTE_ID" 25 "events"
    Demo.id_world
  = (with_dataset Demo.id_world "events"
       (event_table "ROUTE_ID" (mkField "ID" "Integer" 4)),
     Raised (RuntimeError "cannot find field")) /\
  overwriteOutput
    (with_dataset Demo.id_world "events"
       (event_table "ROUTE_ID" (mkField "ID" "Integer" 4)))
  = overwriteOutput Demo.id_world /\
  forall p, p <> "events" ->
    datasets (with_dataset Demo.id_world "events"
                (event_table "ROUTE_ID" (mkField "ID" "Integer" 4))) !! p
    = datasets Demo.id_world !! p.
Proof.
  split; [vm_compute; reflexivity|].
  apply (create_point_event_table_touches_only_output Demo.dist 5 "id_routes"
           "ROUTE_ID" 25 "events" Demo.id_world _
           (Raised (RuntimeError "cannot find field"))).
  vm_compute; reflexivity.
Defined.

Lemma event_table_schema_witness :
  "NAME" <> "Measure" /\
  create_point_event_table Demo.dist 5 "routes" "NAME" 25 "events"
    Demo.routes_world
  = (fst (create_point_event_table Demo.dist 5 "routes" "NAME" 25 "events"
            Demo.routes_world), Ok "events") /\
  exists d f table g,
    datasets Demo.routes_world !! "routes" = Some d /\
    first_field_in (fields d) "NAME" f /\
    datasets (fst (create_point_event_table Demo.dist 5 "routes" "NAME" 25
                     "events" Demo.routes_world)) !! "events" = Some table /\
    fields table = [mkField "NAME" (f_type f) (f_length f); g] /\
    f_name g = "Measure" /\ f_type g = "DOUBLE".
Proof.
  split; [discriminate|]. split; [vm_compute; reflexivity|].
  apply (event_table_schema Demo.dist 5 "routes" "NAME" 25 "events"
           Demo.routes_world _ "events"); [discriminate|].
  vm_compute; reflexivity.
Defined.

(** A generator with a stride of zero is still running after any number
    of resumptions, once it has started below [stop]. *)
Lemma collect_zero_step_none `{Rounding} (start stop step : Q) :
  monotone rnd -> representable start ->
  step == 0 ->
  start < stop ->
  forall (fuel : nat) (r : Q),
  r == start -> collect (frange_next stop step) fuel r = None.
Proof.
  intros Hmono Hstart Hzero Hlt.
  induction fuel as [|fuel IH]; intros r Hr; [reflexivity|].
  rewrite collect_S. unfold frange_next at 1.
  assert (Hb : Qlt_bool r stop = true).
  { apply Qlt_bool_iff. rewrite Hr. exact Hlt. }
  rewrite Hb. rewrite IH; [reflexivity|].
  unfold representable in Hstart.
  apply Qeq_trans with (rnd start); [|exact Hstart].
  destruct (Qlt_bool 0 step) eqn:Hs.
  - apply Qlt_bool_iff in Hs. rewrite Hzero in Hs.
    exfalso. exact (Qlt_irrefl _ Hs).
  - unfold fsub. apply monotone_comp; [exact Hmono|].
    rewrite Hr, Hzero. ring.
Qed.

Section RouteEventsMore.
Variable dist : Q * Q -> Q * Q -> Q.
Context {R : Rounding}.
Variable name : string.
Variable interval : Q.

(** A route whose first measure is below its last one has a record at its
    first measure. *)
Lemma route_events_first (fuel : nat) (routes : list Row) (route : Row)
    (f l : Q) :
  snd (route_events dist fuel name interval routes) = Ok tt ->
  route ∈ routes ->
  route_range route = Ok (f, l) ->
  f < l ->
  event_row name (read_token dist route name) f
  ∈ fst (route_events dist fuel name interval routes).
Proof.
  intros Hok Hin Hrange Hlt.
  induction routes as [|r routes IH]; [inversion Hin|].
  cbn [route_events] in *.
  destruct (route_range r) as [[f' l']|e|] eqn:Hr; try discriminate.
  cbv zeta in *.
  destruct (collect (frange_next l' interval) fuel f') as [ys|] eqn:Hys;
    [|discriminate].
  cbn [fst snd] in *. apply elem_of_app.
  apply elem_of_cons in Hin as [->|Hin]; [left|right; exact (IH Hok Hin)].
  rewrite Hrange in Hr. injection Hr as <- <-.
  destruct fuel as [|fuel]; [discriminate|].
  cbn [first_yields]. unfold frange_next at 1.
  apply Qlt_bool_iff in Hlt. rewrite Hlt.
  cbn [map]. apply elem_of_cons. left. reflexivity.
Qed.

(** With an interval equal to zero the loops never end once a route has
    its first measure below its last one. *)
Lemma route_events_zero_interval (fuel : nat) (routes : list Row) :
  monotone rnd ->
  interval == 0 ->
  Forall (fun route => exists f l, route_range route = Ok (f, l)) routes ->
  (forall route f l,
      route ∈ routes -> route_range route = Ok (f, l) -> representable f) ->
  (exists route f l,
      route ∈ routes /\ route_range route = Ok (f, l) /\ f < l) ->
  snd (route_events dist fuel name interval routes) = Running.
Proof.
  intros Hmono Hzero Hall Hfloat (route & f & l & Hin & Hrange & Hlt).
  induction routes as [|r routes IH]; [inversion Hin|].
  inversion Hall as [|? ? (f' & l' & Hr) Hrest]; subst.
  cbn [route_events]. rewrite Hr. cbv zeta.
  destruct (collect (frange_next l' interval) fuel f') as [ys|] eqn:Hys;
    [|reflexivity].
  cbn [snd]. apply elem_of_cons in Hin as [->|Hin].
  - exfalso. rewrite Hrange in Hr. injection Hr as <- <-.
    assert (Hf : representable f).
    { apply (Hfloat r f l); [apply elem_of_cons; left; reflexivity|
                             exact Hrange]. }
    pose proof (collect_zero_step_none f l interval Hmono Hf Hzero Hlt fuel f
                  (Qeq_refl f)) as Hnone.
    congruence.
  - apply (IH Hrest); [|exact Hin].
    intros r' f'' l'' Hin'. apply Hfloat, elem_of_cons. right. exact Hin'.
Qed.
End RouteEventsMore.

Section EventTableCounts.
Variable dist : Q * Q -> Q * Q -> Q.
Context {R : Rounding}.

(** X8.  Whatever the interval, when create_point_event_table returns,
    every route whose first measure is below its last measure has a record
    at its first measure. *)
Theorem station_at_first_measure
    (fuel : nat) (in_routes name : string) (interval : Q) (out : string)
    (w w' : World) (r : string) :
  out <> in_routes ->
  create_point_event_table dist fuel in_routes name interval out w
  = (w', Ok r) ->
  exists d table,
    datasets w !! in_routes = Some d /\
    datasets w' !! out = Some table /\
    forall route p f l,
      route ∈ rows d -> shape route = PolylineShape p ->
      firstM p = Some f -> lastM p = Some l -> f < l ->
      exists ev,
        ev ∈ rows table /\
        ev = event_row name (read_token dist route name) f /\
        attr ev "Measure" = VNum f.
Proof.
  intros Hne Hrun.
  destruct (create_point_event_table_ok _ _ _ _ _ _ _ _ _ Hrun)
    as (d & f0 & routes & Hd & _ & Hroutes & Hok & ->).
  rewrite (Hroutes Hne) in *.
  exists d. eexists. split; [exact Hd|].
  split; [rewrite lookup_with_dataset, decide_True by reflexivity;
          reflexivity|].
  intros route p f l Hin Hshape Hf Hl Hlt. cbn [rows].
  eexists. split; [|split; [reflexivity|apply attr_event_row_measure]].
  apply (route_events_first dist name interval fuel (rows d) route f l);
    try assumption.
  unfold route_range. rewrite Hshape, Hf, Hl. reflexivity.
Qed.

(** X9.  An interval equal to zero is not refused and the run never
    returns: when the routes have the identifier field and measures, and
    one of them has its first measure below its last one,
    create_point_event_table is still running after any number of
    resumptions of its generators. *)
Theorem zero_interval_never_returns
    (in_routes name : string) (interval : Q) (out : string)
    (w : World) (d : Dataset) :
  monotone rnd ->
  interval == 0 ->
  datasets w !! in_routes = Some d ->
  out <> in_routes ->
  writable w out = true ->
  has_field d name = true ->
  Forall (fun route => exists f l, route_range route = Ok (f, l)) (rows d) ->
  (forall route f l,
      route ∈ rows d -> route_range route = Ok (f, l) -> representable f) ->
  (exists route f l,
      route ∈ rows d /\ route_range route = Ok (f, l) /\ f < l) ->
  forall fuel,
    snd (create_point_event_table dist fuel in_routes name interval out w)
    = Running.
Proof.
  intros Hmono Hzero Hd Hne Hw Hfield Hall Hfloat Hsome fuel.
  rewrite create_point_event_table_run, Hd.
  pose proof (filter_head (fun f => str_in (f_name f) name) (fields d))
    as Hhead.
  destruct (List.filter _ (fields d)) as [|f fs'].
  { exfalso. unfold has_field in Hfield.
    apply existsb_exists in Hfield as (g & Hg & Heq).
    apply String.eqb_eq in Heq.
    apply list_elem_of_In in Hg. specialize (Hhead g Hg).
    apply str_in_false in Hhead. apply Hhead. rewrite Heq.
    apply occurs_in_refl. }
  rewrite Hw. cbv zeta.
  rewrite lookup_with_dataset, decide_False by exact Hne. rewrite Hd.
  assert (Hok : cursor_fields_ok d [name; "SHAPE@"] = true).
  { unfold cursor_fields_ok. cbn [forallb]. rewrite Hfield, orb_true_r.
    reflexivity. }
  rewrite Hok. cbn [snd].
  rewrite (route_events_zero_interval dist name interval fuel (rows d)
             Hmono Hzero Hall Hfloat Hsome).
  reflexivity.
Qed.
End EventTableCounts.

Lemma station_at_first_measure_witness :
  "events" <> "routes" /\
  create_point_event_table Demo.dist 5 "routes" "NAME" 40 "events"
    Demo.routes_world
  = (fst (create_point_event_table Demo.dist 5 "routes" "NAME" 40 "events"
            Demo.routes_world), Ok "events") /\
  exists d table,
    datasets Demo.routes_world !! "routes" = Some d /\
    datasets (fst (create_point_event_table Demo.dist 5 "routes" "NAME" 40
                     "events" Demo.routes_world)) !! "events" = Some table /\
    forall route p f l,
      route ∈ rows d -> shape route = PolylineShape p ->
      firstM p = Some f -> lastM p = Some l -> f < l ->
      exists ev,
        ev ∈ rows table /\
        ev = event_row "NAME" (read_token Demo.dist route "NAME") f /\
        attr ev "Measure" = VNum f.
Proof.
  split; [discriminate|]. split; [vm_compute; reflexivity|].
  apply (station_at_first_measure Demo.dist 5 "routes" "NAME" 40 "events"
           Demo.routes_world _ "events");
    [discriminate|vm_compute; reflexivity].
Defined.

Lemma zero_interval_never_returns_witness :
  monotone (rnd (Rounding := float64)) /\
  0 == 0 /\
  datasets Demo.routes_world !! "routes" = Some Demo.routes /\
  "events" <> "routes" /\
  writable Demo.routes_world "events" = true /\
  has_field Demo.routes "NAME" = true /\
  Forall (fun route => exists f l, route_range route = Ok (f, l))
         (rows Demo.routes) /\
  (forall route f l,
      route ∈ rows Demo.routes -> route_range route = Ok (f, l) ->
      representable f) /\
  (exists route f l,
      route ∈ rows Demo.routes /\ route_range route = Ok (f, l) /\ f < l) /\
  forall fuel,
    snd (create_point_event_table Demo.dist fuel "routes" "NAME" 0 "events"
           Demo.routes_world)
    = Running.
Proof.
  assert (Hall : Forall (fun route => exists f l, route_range route = Ok (f, l))
                        (rows Demo.routes)).
  { constructor; [|constructor]. exists 0, 100. reflexivity. }
  assert (Hsome : exists route f l,
             route ∈ rows Demo.routes /\ route_range route = Ok (f, l)
             /\ f < l).
  { exists Demo.route_A, 0, 100. split; [|split; reflexivity].
    apply elem_of_cons. left. reflexivity. }
  assert (Hfloat : forall route f l,
             route ∈ rows Demo.routes -> route_range route = Ok (f, l) ->
             representable f).
  { intros route f l Hin Hrange.
    apply elem_of_cons in Hin as [->|Hin]; [|inversion Hin].
    injection Hrange as <- _. vm_compute. reflexivity. }
  split; [exact float64_monotone|].
  split; [reflexivity|]. split; [reflexivity|]. split; [discriminate|].
  split; [reflexivity|]. split; [reflexivity|].
  split; [exact Hall|]. split; [exact Hfloat|]. split; [exact Hsome|].
  apply (zero_interval_never_returns Demo.dist "routes" "NAME" 0 "events"
           Demo.routes_world Demo.routes);
    [exact float64_monotone|reflexivity|reflexivity|discriminate|reflexivity|
     reflexivity|exact Hall|exact Hfloat|exact Hsome].
Defined.

(** ** CreateLineEventTable *)

Section LineEventTable.
Variable dist : Q * Q -> Q * Q -> Q.
Context {R : Rounding}.

(** The loop over the routes adds the records of [line_events]. *)
Lemma insert_line_event_loop (out name : string) (routes : list Row) :
  forall (w : World) (fs : list Field) (rs : list Row),
  datasets w !! out = Some (mkDataset fs rs) ->
  for_each (map (read_row dist [name; "SHAPE@"]) routes)
           (insert_line_event out (line_event_fields name)) w
  = (with_dataset w out
       (mkDataset fs (rs ++ fst (line_events dist name routes))),
     snd (line_events dist name routes)).
Proof.
  induction routes as [|route routes IH]; intros w fs rs Hd.
  - simpl. rewrite app_nil_r, (with_dataset_same _ _ _ Hd). reflexivity.
  - cbn [map for_each line_events]. rewrite bind_run.
    assert (Hstop : forall e,
               (with_dataset w out (mkDataset fs (rs ++ [])),
                @Raised unit e) = (w, Raised e)).
    { intros e. rewrite app_nil_r, (with_dataset_same _ _ _ Hd).
      reflexivity. }
    unfold insert_line_event at 1. rewrite bind_run, index_run.
    change (read_row dist [name; "SHAPE@"] route !! 1%nat)
      with (Some (read_token dist route "SHAPE@")).
    cbv beta iota. unfold route_range.
    change (read_token dist route "SHAPE@")
      with (match shape route with NoShape => VNone | g => VShape g end).
    destruct (shape route) as [|x y|p].
    + cbn. rewrite Hstop. reflexivity.
    + cbn. rewrite Hstop. reflexivity.
    + rewrite bind_run. cbn [firstPoint_M]. rewrite ret_run. cbv beta iota.
      rewrite bind_run.
      destruct (firstM p) as [f|]; [|cbn; rewrite Hstop; reflexivity].
      cbn [float]. rewrite ret_run. cbv beta iota.
      rewrite bind_run. cbn [lastPoint_M]. rewrite ret_run. cbv beta iota.
      rewrite bind_run.
      destruct (lastM p) as [l|]; [|cbn; rewrite Hstop; reflexivity].
      cbn [float]. rewrite ret_run. cbv beta iota.
      rewrite bind_run, index_run.
      change (read_row dist [name; "SHAPE@"] route !! 0%nat)
        with (Some (read_token dist route name)).
      cbv beta iota.
      rewrite (insertRow_run _ _ _ _ (mkDataset fs rs));
        [|reflexivity|exact Hd].
      cbn [fields rows]. fold (line_event_row name (read_token dist route name) f l).
      rewrite (IH _ fs (rs ++ [line_event_row name
                                 (read_token dist route name) f l])).
      * rewrite with_dataset_twice, <- app_assoc. reflexivity.
      * rewrite lookup_with_dataset, decide_True by reflexivity. reflexivity.
Qed.

Lemma rows_line_event_table (name : string) (f : Field) :
  rows (line_event_table name f) = [].
Proof. unfold line_event_table. rewrite !rows_add_field. reflexivity. Qed.

Lemma line_event_table_cursor_ok (name : string) (f : Field) :
  cursor_fields_ok (line_event_table name f) (line_event_fields name) = true.
Proof.
  unfold cursor_fields_ok, line_event_table, line_event_fields.
  cbn [forallb].
  rewrite !has_field_add_field, !String.eqb_refl, !orb_true_r.
  reflexivity.
Qed.

(** The whole run, on every path. *)
Lemma CreateLineEventTable_execute_run
    (in_routes name out : string) (w : World) :
  CreateLineEventTable_execute dist in_routes name out w
  = match datasets w !! in_routes with
    | None => (w, Raised (IOError "dataset does not exist"))
    | Some d =>
        match List.filter (fun f => str_in (f_name f) name) (fields d) with
        | [] => (w, Raised IndexError)
        | f :: _ =>
            if writable w out then
              let w3 := with_dataset w out (line_event_table name f) in
              match datasets w3 !! in_routes with
              | Some d' =>
                  if cursor_fields_ok d' [name; "SHAPE@"] then
                    let evs := line_events dist name (rows d') in
                    (with_dataset w out
                       (mkDataset (fields (line_event_table name f))
                                  (fst evs)),
                     snd evs)
                  else (w3, Raised (RuntimeError "cannot find field"))
              | None => (w3, Raised (RuntimeError "cannot open table"))
              end
            else (w, Raised (ExecuteError "output already exists"))
        end
    end.
Proof.
  unfold CreateLineEventTable_execute. rewrite bind_run.
  destruct (datasets w !! in_routes) as [d|] eqn:Hd.
  2:{ unfold get_field. rewrite bind_run, Describe_fields_run, Hd.
      reflexivity. }
  rewrite (get_field_run _ _ _ _ Hd).
  destruct (List.filter _ (fields d)) as [|f fs']; [reflexivity|].
  mstep; rewrite CreateTable_run.
  destruct (writable w out); [|reflexivity].
  mstep; rewrite AddField_run, lookup_with_dataset.
  rewrite decide_True by reflexivity. rewrite with_dataset_twice.
  mstep; rewrite AddField_run, lookup_with_dataset.
  rewrite decide_True by reflexivity. rewrite with_dataset_twice.
  mstep; rewrite AddField_run, lookup_with_dataset.
  rewrite decide_True by reflexivity. rewrite with_dataset_twice.
  fold (line_event_table name f).
  mstep; rewrite InsertCursor_run, lookup_with_dataset.
  rewrite decide_True by reflexivity. rewrite line_event_table_cursor_ok.
  mstep; rewrite SearchCursor_run.
  destruct (datasets (with_dataset w out (line_event_table name f))
              !! in_routes) as [d'|]; [|reflexivity].
  cbn [forallb]. rewrite andb_true_r.
  destruct (cursor_fields_ok d' [name; "SHAPE@"]); [|reflexivity].
  rewrite order_by_no_keys. cbv beta iota zeta.
  rewrite (insert_line_event_loop out name (rows d') _
             (fields (line_event_table name f)) []).
  - rewrite with_dataset_twice. reflexivity.
  - rewrite lookup_with_dataset, decide_True by reflexivity.
    pose proof (rows_line_event_table name f) as Hrows.
    destruct (line_event_table name f). simpl in Hrows. rewrite Hrows.
    reflexivity.
Qed.

(** A loop that ends normally has added one record for each route, in
    the order of the routes. *)
Lemma line_events_lookup (name : string) (routes : list Row) :
  snd (line_events dist name routes) = Ok tt ->
  length (fst (line_events dist name routes)) = length routes /\
  forall i route,
    routes !! i = Some route ->
    exists f l,
      route_range route = Ok (f, l) /\
      fst (line_events dist name routes) !! i
      = Some (line_event_row name (read_token dist route name) f l).
Proof.
  induction routes as [|r routes IH]; intros Hok.
  - split; [reflexivity|]. intros i route H. discriminate.
  - cbn [line_events] in *.
    destruct (route_range r) as [[f l]|e|] eqn:Hr; try discriminate.
    cbn [fst snd] in *. destruct (IH Hok) as [Hlen Hall].
    split; [cbn [length]; rewrite Hlen; reflexivity|].
    intros [|i] route Hi.
    + injection Hi as <-. exists f, l. split; [exact Hr|reflexivity].
    + apply (Hall i route Hi).
Qed.

(** The first route that cannot be read ends the loop: the records of
    the routes before it are all that was added. *)
Lemma line_events_stop (name : string) (routes : list Row) (e : exn) :
  snd (line_events dist name routes) = Raised e ->
  exists before route after,
    routes = before ++ route :: after /\
    route_range route = Raised e /\
    length (fst (line_events dist name routes)) = length before.
Proof.
  induction routes as [|r routes IH]; intros Hstop; [discriminate|].
  cbn [line_events] in *.
  destruct (route_range r) as [[f l]|e'|] eqn:Hr.
  - cbn [fst snd] in *. destruct (IH Hstop) as (b & x & a & -> & Hx & Hlen).
    exists (r :: b), x, a. split; [reflexivity|]. split; [exact Hx|].
    cbn [length]. rewrite Hlen. reflexivity.
  - cbn [snd] in Hstop. injection Hstop as ->.
    exists [], r, routes. split; [reflexivity|]. split; [exact Hr|].
    reflexivity.
  - discriminate.
Qed.

Lemma attr_line_event_row (name : string) (id : value) (f l : Q) :
  attr (line_event_row name id f l) "FromMeasure" = VNum f /\
  attr (line_event_row name id f l) "ToMeasure" = VNum l /\
  (is_token name = false -> name <> "FromMeasure" -> name <> "ToMeasure" ->
   attr (line_event_row name id f l) name = id).
Proof.
  unfold line_event_row, line_event_fields. cbn [write_row].
  set (r := write_token (mkRow NoShape ∅) name id).
  change (write_token (write_token r "FromMeasure" (VNum f)) "ToMeasure"
            (VNum l))
    with (mkRow (shape r)
            (<["ToMeasure" := VNum l]>
               (<["FromMeasure" := VNum f]> (attrs r)))).
  unfold attr. cbn [attrs].
  split; [|split].
  - rewrite lookup_insert_ne by discriminate.
    rewrite lookup_insert_eq. reflexivity.
  - rewrite lookup_insert_eq. reflexivity.
  - intros Htok Hf Hl.
    rewrite lookup_insert_ne by congruence.
    rewrite lookup_insert_ne by congruence.
    unfold r, write_token. unfold is_token in Htok.
    apply orb_false_iff in Htok as [Htok H3].
    apply orb_false_iff in Htok as [H1 H2].
    rewrite H1, H2, H3. cbn [orb attrs].
    rewrite lookup_insert_eq. reflexivity.
Qed.
End LineEventTable.

Lemma route_range_ok (route : Row) (f l : Q) :
  route_range route = Ok (f, l) <->
  exists p, shape route = PolylineShape p /\
            firstM p = Some f /\ lastM p = Some l.
Proof.
  unfold route_range. split.
  - destruct (shape route) as [|x y|p]; try discriminate.
    destruct (firstM p) as [f'|] eqn:Hf; try discriminate.
    destruct (lastM p) as [l'|] eqn:Hl; try discriminate.
    intros H. injection H as -> ->. eauto.
  - intros (p & -> & -> & ->). reflexivity.
Qed.

Lemma route_range_raised (route : Row) :
  (exists f l, route_range route = Ok (f, l)) \/
  route_range route = Raised TypeError \/
  route_range route = Raised AttributeError.
Proof.
  unfold route_range. destruct (shape route) as [|x y|p]; auto.
  destruct (firstM p) as [f|]; auto.
  destruct (lastM p) as [l|]; eauto.
Qed.

Section LineEventTableMore.
Variable dist : Q * Q -> Q * Q -> Q.
Context {R : Rounding}.

Lemma read_token_field (r : Row) (name : string) :
  is_token name = false -> read_token dist r name = attr r name.
Proof.
  unfold is_token, read_token. intros H.
  apply orb_false_iff in H as [H H3].
  apply orb_false_iff in H as [H1 H2].
  rewrite H1, H2, H3. reflexivity.
Qed.

(** A record of the loop comes from a route. *)
Lemma line_events_sound (name : string) (routes : list Row) (ev : Row) :
  ev ∈ fst (line_events dist name routes) ->
  exists route f l,
    route ∈ routes /\ route_range route = Ok (f, l) /\
    ev = line_event_row name (read_token dist route name) f l.
Proof.
  induction routes as [|r routes IH]; intros Hin; [inversion Hin|].
  cbn [line_events] in Hin.
  destruct (route_range r) as [[f l]|e|] eqn:Hr; try (inversion Hin; fail).
  cbn [fst] in Hin. apply elem_of_cons in Hin as [->|Hin].
  - exists r, f, l. split; [apply elem_of_cons; left; reflexivity|].
    split; [exact Hr|reflexivity].
  - destruct (IH Hin) as (route & f' & l' & Hroute & Hrange & Hev).
    exists route, f', l'. split; [apply elem_of_cons; right; exact Hroute|].
    split; assumption.
Qed.

(** A route that cannot be read ends the loop with an exception. *)
Lemma line_events_raises (name : string) (routes : list Row) (route : Row) :
  route ∈ routes ->
  (forall f l, route_range route <> Ok (f, l)) ->
  exists e, snd (line_events dist name routes) = Raised e /\
            (e = TypeError \/ e = AttributeError).
Proof.
  induction routes as [|r routes IH]; intros Hin Hbad; [inversion Hin|].
  cbn [line_events].
  destruct (route_range_raised r) as [(f & l & Hr)|[Hr|Hr]]; rewrite Hr.
  - cbn [snd]. apply elem_of_cons in Hin as [->|Hin].
    + exfalso. exact (Hbad f l Hr).
    + exact (IH Hin Hbad).
  - exists TypeError. auto.
  - exists AttributeError. auto.
Qed.

(** The loop ends normally or with one of the two exceptions of
    [route_range]; it is never left running. *)
Lemma line_events_raises_from_routes (name : string) (routes : list Row) :
  snd (line_events dist name routes) = Ok tt \/
  exists e, snd (line_events dist name routes) = Raised e /\
            (e = TypeError \/ e = AttributeError).
Proof.
  induction routes as [|r routes IH]; [left; reflexivity|].
  cbn [line_events].
  destruct (route_range_raised r) as [(f & l & Hr)|[Hr|Hr]]; rewrite Hr.
  - exact IH.
  - right. exists TypeError. auto.
  - right. exists AttributeError. auto.
Qed.

(** A run that returns normally has gone through every step. *)
Lemma CreateLineEventTable_execute_ok
    (in_routes name out : string) (w w' : World) :
  out <> in_routes ->
  CreateLineEventTable_execute dist in_routes name out w = (w', Ok tt) ->
  exists d f,
    datasets w !! in_routes = Some d /\
    first_field_in (fields d) name f /\
    snd (line_events dist name (rows d)) = Ok tt /\
    w' = with_dataset w out
           (mkDataset (fields (line_event_table name f))
                      (fst (line_events dist name (rows d)))).
Proof.
  intros Hne Hrun. rewrite CreateLineEventTable_execute_run in Hrun.
  destruct (datasets w !! in_routes) as [d|] eqn:Hd; [|discriminate].
  destruct (List.filter _ (fields d)) as [|f fs'] eqn:Hf; [discriminate|].
  destruct (writable w out); [|discriminate].
  cbv zeta in Hrun. rewrite lookup_with_dataset in Hrun.
  rewrite decide_False in Hrun by exact Hne. rewrite Hd in Hrun.
  destruct (cursor_fields_ok _ _); [|discriminate].
  exists d, f. split; [reflexivity|].
  split; [apply first_field_in_filter; eauto|].
  injection Hrun as <- Hok. split; [exact Hok|reflexivity].
Qed.

(** X10.  When CreateLineEventTable.execute returns, the output table has
    one record per route, in the order of the routes, and the record of a
    route carries the measure of the route's first point as FromMeasure,
    the measure of its last point as ToMeasure, and the route's
    identifier. *)
Theorem line_event_per_route
    (in_routes name out : string) (w w' : World) :
  out <> in_routes ->
  CreateLineEventTable_execute dist in_routes name out w = (w', Ok tt) ->
  exists d table,
    datasets w !! in_routes = Some d /\
    datasets w' !! out = Some table /\
    length (rows table) = length (rows d) /\
    forall i route,
      rows d !! i = Some route ->
      exists p f l ev,
        shape route = PolylineShape p /\
        firstM p = Some f /\ lastM p = Some l /\
        rows table !! i = Some ev /\
        attr ev "FromMeasure" = VNum f /\
        attr ev "ToMeasure" = VNum l /\
        (is_token name = false ->
         name <> "FromMeasure" -> name <> "ToMeasure" ->
         attr ev name = attr route name).
Proof.
  intros Hne Hrun.
  destruct (CreateLineEventTable_execute_ok _ _ _ _ _ Hne Hrun)
    as (d & f0 & Hd & _ & Hok & ->).
  exists d. eexists. split; [exact Hd|].
  split; [rewrite lookup_with_dataset, decide_True by reflexivity;
          reflexivity|].
  cbn [rows]. destruct (line_events_lookup dist name (rows d) Hok)
    as [Hlen Hall].
  split; [exact Hlen|].
  intros i route Hi. destruct (Hall i route Hi) as (f & l & Hr & Hev).
  apply route_range_ok in Hr as (p & Hp & Hf & Hl).
  exists p, f, l. eexists. split; [exact Hp|]. split; [exact Hf|].
  split; [exact Hl|]. split; [exact Hev|].
  destruct (attr_line_event_row name (read_token dist route name) f l)
    as (H1 & H2 & H3).
  split; [exact H1|]. split; [exact H2|].
  intros Htok Hnf Hnl. rewrite (H3 Htok Hnf Hnl).
  apply read_token_field, Htok.
Qed.

(** X11.  CreateLineEventTable.execute has no cleanup: when a route has
    no polyline geometry or no measure at one of its ends, the run raises
    TypeError or AttributeError at the first such route and leaves the
    output table behind, holding the records of the routes before that one
    only. *)
Theorem line_event_table_left_incomplete
    (in_routes name out : string) (w : World) (d : Dataset) (route : Row) :
  datasets w !! in_routes = Some d ->
  out <> in_routes ->
  writable w out = true ->
  has_field d name = true ->
  route ∈ rows d ->
  (forall f l, route_range route <> Ok (f, l)) ->
  exists e table before bad after,
    CreateLineEventTable_execute dist in_routes name out w
    = (with_dataset w out table, Raised e) /\
    (e = TypeError \/ e = AttributeError) /\
    rows d = before ++ bad :: after /\
    route_range bad = Raised e /\
    length (rows table) = length before /\
    (length (rows table) < length (rows d))%nat.
Proof.
  intros Hd Hne Hw Hfield Hin Hbad.
  rewrite CreateLineEventTable_execute_run, Hd.
  pose proof (filter_head (fun f => str_in (f_name f) name) (fields d))
    as Hhead.
  destruct (List.filter _ (fields d)) as [|f fs'].
  { exfalso. unfold has_field in Hfield.
    apply existsb_exists in Hfield as (g & Hg & Heq).
    apply String.eqb_eq in Heq.
    apply list_elem_of_In in Hg. specialize (Hhead g Hg).
    apply str_in_false in Hhead. apply Hhead. rewrite Heq.
    apply occurs_in_refl. }
  rewrite Hw. cbv zeta.
  rewrite lookup_with_dataset, decide_False by exact Hne. rewrite Hd.
  assert (Hok : cursor_fields_ok d [name; "SHAPE@"] = true).
  { unfold cursor_fields_ok. cbn [forallb]. rewrite Hfield, orb_true_r.
    reflexivity. }
  rewrite Hok.
  destruct (line_events_raises name (rows d) route Hin Hbad)
    as (e & He & Hwhich).
  destruct (line_events_stop dist name (rows d) e He)
    as (before & bad & after & Hsplit & Hrange & Hlen).
  exists e. eexists. exists before, bad, after.
  rewrite He. split; [reflexivity|]. split; [exact Hwhich|].
  split; [exact Hsplit|]. split; [exact Hrange|].
  cbn [rows]. split; [exact Hlen|].
  rewrite Hlen, Hsplit, length_app. cbn [length]. lia.
Qed.

(** X12.  However CreateLineEventTable.execute ends, it has changed
    nothing but the output table, and when the input does not exist, no
    field name occurs in the requested name, or the output may not be
    written, it has changed nothing at all. *)
Theorem line_event_table_touches_only_output
    (in_routes name out : string) (w w' : World) (r : result unit) :
  CreateLineEventTable_execute dist in_routes name out w = (w', r) ->
  overwriteOutput w' = overwriteOutput w /\
  (forall p, p <> out -> datasets w' !! p = datasets w !! p) /\
  (r = Raised (IOError "dataset does not exist") \/
   r = Raised IndexError \/
   r = Raised (ExecuteError "output already exists") -> w' = w).
Proof.
  intros Hrun. rewrite CreateLineEventTable_execute_run in Hrun.
  destruct (datasets w !! in_routes) as [d|];
    [|injection Hrun as <- _; auto].
  destruct (List.filter _ (fields d)) as [|f fs'];
    [injection Hrun as <- _; auto|].
  destruct (writable w out); [|injection Hrun as <- _; auto].
  cbv zeta in Hrun.
  assert (Hframe : forall t (x : result unit),
             (with_dataset w out t, x) = (w', r) ->
             (x = Raised (IOError "dataset does not exist") \/
              x = Raised IndexError \/
              x = Raised (ExecuteError "output already exists") -> False) ->
             overwriteOutput w' = overwriteOutput w /\
             (forall p, p <> out -> datasets w' !! p = datasets w !! p) /\
             (r = Raised (IOError "dataset does not exist") \/
              r = Raised IndexError \/
              r = Raised (ExecuteError "output already exists") -> w' = w)).
  { intros t x Heq Hx. injection Heq as <- <-.
    destruct (with_dataset_frame w out t) as [H1 H2].
    split; [exact H1|]. split; [exact H2|].
    intros H. exfalso. exact (Hx H). }
  destruct (datasets _ !! in_routes) as [d'|].
  2:{ apply (Hframe _ _ Hrun). intros [H|[H|H]]; discriminate. }
  destruct (cursor_fields_ok d' _).
  2:{ apply (Hframe _ _ Hrun). intros [H|[H|H]]; discriminate. }
  apply (Hframe _ _ Hrun). intros Hx.
  destruct (line_events_raises_from_routes name (rows d')) as [H|H].
  - rewrite H in Hx. destruct Hx as [Hx|[Hx|Hx]]; discriminate.
  - destruct H as (e & H & [-> | ->]); rewrite H in Hx;
      destruct Hx as [Hx|[Hx|Hx]]; discriminate.
Qed.
End LineEventTableMore.

Lemma line_event_per_route_witness :
  "line_events" <> "routes" /\
  CreateLineEventTable_execute Demo.dist "routes" "NAME" "line_events"
    Demo.routes_world
  = (fst (CreateLineEventTable_execute Demo.dist "routes" "NAME"
            "line_events" Demo.routes_world), Ok tt) /\
  exists d table,
    datasets Demo.routes_world !! "routes" = Some d /\
    datasets (fst (CreateLineEventTable_execute Demo.dist "routes" "NAME"
                     "line_events" Demo.routes_world)) !! "line_events"
    = Some table /\
    length (rows table) = length (rows d) /\
    forall i route,
      rows d !! i = Some route ->
      exists p f l ev,
        shape route = PolylineShape p /\
        firstM p = Some f /\ lastM p = Some l /\
        rows table !! i = Some ev /\
        attr ev "FromMeasure" = VNum f /\
        attr ev "ToMeasure" = VNum l /\
        (is_token "NAME" = false ->
         "NAME" <> "FromMeasure" -> "NAME" <> "ToMeasure" ->
         attr ev "NAME" = attr route "NAME").
Proof.
  split; [discriminate|]. split; [vm_compute; reflexivity|].
  apply (line_event_per_route Demo.dist "routes" "NAME" "line_events"
           Demo.routes_world);
    [discriminate|vm_compute; reflexivity].
Defined.

Lemma line_event_table_left_incomplete_witness :
  datasets Demo.world !! "lines" = Some Demo.lines /\
  "line_events" <> "lines" /\
  writable Demo.world "line_events" = true /\
  has_field Demo.lines "NAME" = true /\
  Demo.line_A ∈ rows Demo.lines /\
  (forall f l, route_range Demo.line_A <> Ok (f, l)) /\
  exists e table before bad after,
    CreateLineEventTable_execute Demo.dist "lines" "NAME" "line_events"
      Demo.world
    = (with_dataset Demo.world "line_events" table, Raised e) /\
    (e = TypeError \/ e = AttributeError) /\
    rows Demo.lines = before ++ bad :: after /\
    route_range bad = Raised e /\
    length (rows table) = length before /\
    (length (rows table) < length (rows Demo.lines))%nat.
Proof.
  assert (Hin : Demo.line_A ∈ rows Demo.lines).
  { apply elem_of_cons. left. reflexivity. }
  assert (Hbad : forall f l, route_range Demo.line_A <> Ok (f, l)).
  { intros f l. discriminate. }
  split; [reflexivity|]. split; [discriminate|]. split; [reflexivity|].
  split; [reflexivity|]. split; [exact Hin|]. split; [exact Hbad|].
  apply (line_event_table_left_incomplete Demo.dist "lines" "NAME"
           "line_events" Demo.world Demo.lines Demo.line_A);
    [reflexivity|discriminate|reflexivity|reflexivity|exact Hin|exact Hbad].
Defined.

Lemma line_event_table_touches_only_output_witness :
  CreateLineEventTable_execute Demo.dist "routes" "NAME" "line_events"
    Demo.routes_world
  = (fst (CreateLineEventTable_execute Demo.dist "routes" "NAME"
            "line_events" Demo.routes_world), Ok tt) /\
  overwriteOutput
    (fst (CreateLineEventTable_execute Demo.dist "routes" "NAME"
            "line_events" Demo.routes_world))
  = overwriteOutput Demo.routes_world /\
  (forall p, p <> "line_events" ->
             datasets (fst (CreateLineEventTable_execute Demo.dist "routes"
                              "NAME" "line_events" Demo.routes_world)) !! p
             = datasets Demo.routes_world !! p) /\
  (Ok tt = Raised (IOError "dataset does not exist") \/
   Ok tt = Raised IndexError \/
   Ok tt = Raised (ExecuteError "output already exists") ->
   fst (CreateLineEventTable_execute Demo.dist "routes" "NAME"
          "line_events" Demo.routes_world)
   = Demo.routes_world).
Proof.
  split; [vm_compute; reflexivity|].
  apply (line_event_table_touches_only_output Demo.dist "routes" "NAME"
           "line_events" Demo.routes_world _ (Ok tt)).
  vm_compute; reflexivity.
Defined.

(** ** create_route_by_length, further *)

Section RouteByLengthMore.
Variable dist : Q * Q -> Q * Q -> Q.
Context {R : Rounding}.

(** What a run of create_route_by_length can change. *)
Lemma create_route_by_length_frame
    (in_features id_field out : string) (w : World) :
  let the_line := unique_name (datasets w) "theLine" "in_memory" in
  let w' := fst (create_route_by_length dist in_features id_field out w) in
  overwriteOutput w' = overwriteOutput w /\
  forall p, p <> out -> p <> the_line ->
            datasets w' !! p = datasets w !! p.
Proof.
  intros the_line. cbv zeta.
  rewrite create_route_by_length_run. cbv zeta. fold the_line.
  destruct (datasets w !! in_features) as [d|]; [|auto].
  destruct (writable w the_line); [|auto].
  destruct (has_field (line_copy dist d) id_field).
  2:{ split; [reflexivity|]. intros p _ Hp. cbn [fst].
      rewrite lookup_with_dataset, decide_False by congruence.
      reflexivity. }
  destruct (writable _ out).
  2:{ split; [reflexivity|]. intros p _ Hp. cbn [fst].
      rewrite lookup_with_dataset, decide_False by congruence.
      reflexivity. }
  split; [reflexivity|]. intros p Hout Hp.
  unfold without_dataset. simpl.
  rewrite lookup_delete_ne by congruence.
  rewrite lookup_insert_ne by congruence.
  rewrite lookup_insert_ne by congruence. reflexivity.
Qed.

(** X13.  However create_route_by_length ends, every dataset that was
    there before the run, other than the route feature class, is as it
    was: the measures are written to the in_memory copy, never to the
    input lines.  Besides the route feature class, only the name of the
    copy can have changed, and the overwrite setting is as before. *)
Theorem create_route_by_length_keeps_other_datasets
    (in_features id_field out : string) (w w' : World) (r : result string) :
  create_route_by_length dist in_features id_field out w = (w', r) ->
  let the_line := unique_name (datasets w) "theLine" "in_memory" in
  overwriteOutput w' = overwriteOutput w /\
  (forall p, p <> out -> p <> the_line ->
             datasets w' !! p = datasets w !! p) /\
  (forall p d, p <> out -> datasets w !! p = Some d ->
               datasets w' !! p = Some d).
Proof.
  intros Hrun the_line.
  assert (Hfresh : datasets w !! the_line = None)
    by apply unique_name_fresh.
  pose proof (create_route_by_length_frame in_features id_field out w)
    as Hframe.
  cbv zeta in Hframe. rewrite Hrun in Hframe. fold the_line in Hframe.
  destruct Hframe as [Hflag Hothers].
  split; [exact Hflag|]. split; [exact Hothers|].
  intros p d Hout Hp. rewrite Hothers; [exact Hp|exact Hout|].
  intros ->. rewrite Hfresh in Hp. discriminate.
Qed.

(** X14.  The line events of routes made by create_route_by_length: when
    CreateLineEventTable.execute is run on the route feature class that
    create_route_by_length has written, every record of the table has
    FromMeasure 0 and, as ToMeasure, the length of an input line. *)
Theorem line_events_of_routes_by_length
    (in_features id_field out_routes out_table : string)
    (w w1 w2 : World) (r : string) :
  create_route_by_length dist in_features id_field out_routes w
  = (w1, Ok r) ->
  out_routes <> unique_name (datasets w) "theLine" "in_memory" ->
  out_table <> out_routes ->
  CreateLineEventTable_execute dist out_routes id_field out_table w1
  = (w2, Ok tt) ->
  exists d table,
    datasets w !! in_features = Some d /\
    datasets w2 !! out_table = Some table /\
    forall ev,
      ev ∈ rows table ->
      attr ev "FromMeasure" = VNum 0 /\
      exists line p,
        line ∈ rows d /\ shape line = PolylineShape p /\
        attr ev "ToMeasure" = VNum (shape_length dist p).
Proof.
  intros Hroutes Hline Hne Hevents.
  destruct (create_route_by_length_ok _ _ _ _ _ _ _ Hroutes)
    as (d & Hd & _ & _ & ->).
  destruct (CreateLineEventTable_execute_ok _ _ _ _ _ _ Hne Hevents)
    as (rd & f0 & Hrd & _ & _ & ->).
  unfold without_dataset in Hrd. simpl in Hrd.
  rewrite lookup_delete_ne in Hrd by congruence.
  rewrite lookup_insert_eq in Hrd. injection Hrd as <-.
  exists d. eexists. split; [exact Hd|].
  split; [rewrite lookup_with_dataset, decide_True by reflexivity;
          reflexivity|].
  cbn [rows]. intros ev Hev.
  apply line_events_sound in Hev as (route & f & l & Hroute & Hrange & ->).
  apply elem_of_map in Hroute as ([id q] & -> & Hin).
  pose proof (build_routes_by_length dist (rows d) id_field) as Hall.
  rewrite Forall_forall in Hall.
  destruct (Hall (id, q) Hin) as (Hfirst & line & p & Hl & Hp & _ & Hlast).
  cbn [fst snd] in *.
  apply route_range_ok in Hrange as (q' & Hq & Hf & Hlm).
  cbn in Hq. injection Hq as <-.
  rewrite Hfirst in Hf. injection Hf as <-.
  rewrite Hlast in Hlm. injection Hlm as <-.
  destruct (attr_line_event_row id_field
              (read_token dist (route_row id_field (id, q)) id_field)
              0 (shape_length dist p)) as (H1 & H2 & _).
  split; [exact H1|]. exists line, p. auto.
Qed.
End RouteByLengthMore.

Lemma create_route_by_length_keeps_other_datasets_witness :
  create_route_by_length Demo.dist "lines" "ID" "routes" Demo.world
  = (fst (create_route_by_length Demo.dist "lines" "ID" "routes" Demo.world),
     Raised (ExecuteError "field does not exist")) /\
  (let the_line := unique_name (datasets Demo.world) "theLine" "in_memory" in
   overwriteOutput
     (fst (create_route_by_length Demo.dist "lines" "ID" "routes" Demo.world))
   = overwriteOutput Demo.world /\
   (forall p, p <> "routes" -> p <> the_line ->
              datasets (fst (create_route_by_length Demo.dist "lines" "ID"
                               "routes" Demo.world)) !! p
              = datasets Demo.world !! p) /\
   (forall p d, p <> "routes" -> datasets Demo.world !! p = Some d ->
                datasets (fst (create_route_by_length Demo.dist "lines" "ID"
                                 "routes" Demo.world)) !! p
                = Some d)).
Proof.
  split; [vm_compute; reflexivity|].
  apply (create_route_by_length_keeps_other_datasets Demo.dist "lines" "ID"
           "routes" Demo.world _
           (Raised (ExecuteError "field does not exist"))).
  vm_compute; reflexivity.
Defined.

Lemma line_events_of_routes_by_length_witness :
  create_route_by_length Demo.dist "lines" "NAME" "routes" Demo.world
  = (Demo.routes_world, Ok "routes") /\
  "routes" <> unique_name (datasets Demo.world) "theLine" "in_memory" /\
  "line_events" <> "routes" /\
  CreateLineEventTable_execute Demo.dist "routes" "NAME" "line_events"
    Demo.routes_world
  = (fst (CreateLineEventTable_execute Demo.dist "routes" "NAME"
            "line_events" Demo.routes_world), Ok tt) /\
  exists d table,
    datasets Demo.world !! "lines" = Some d /\
    datasets (fst (CreateLineEventTable_execute Demo.dist "routes" "NAME"
                     "line_events" Demo.routes_world)) !! "line_events"
    = Some table /\
    forall ev,
      ev ∈ rows table ->
      attr ev "FromMeasure" = VNum 0 /\
      exists line p,
        line ∈ rows d /\ shape line = PolylineShape p /\
        attr ev "ToMeasure" = VNum (shape_length Demo.dist p).
Proof.
  split; [vm_compute; reflexivity|].
  split; [vm_compute; discriminate|].
  split; [discriminate|].
  split; [vm_compute; reflexivity|].
  apply (line_events_of_routes_by_length Demo.dist "lines" "NAME" "routes"
           "line_events" Demo.world Demo.routes_world _ "routes");
    [vm_compute; reflexivity|vm_compute; discriminate|discriminate|
     vm_compute; reflexivity].
Defined.

(** ** create_cross_section, further *)

(** A dataset with a field of the requested name has a field whose name
    occurs in it. *)
Lemma has_field_filter (d : Dataset) (name : string) :
  has_field d name = true ->
  exists f fs,
    List.filter (fun f => str_in (f_name f) name) (fields d) = f :: fs.
Proof.
  intros Hfield.
  pose proof (filter_head (fun f => str_in (f_name f) name) (fields d))
    as Hhead.
  destruct (List.filter _ (fields d)) as [|f fs']; [|eauto].
  exfalso. unfold has_field in Hfield.
  apply existsb_exists in Hfield as (g & Hg & Heq).
  apply String.eqb_eq in Heq.
  apply list_elem_of_In in Hg. specialize (Hhead g Hg).
  apply str_in_false in Hhead. apply Hhead. rewrite Heq.
  apply occurs_in_refl.
Qed.

Lemma value_compare_antisym (a b : value) :
  value_compare b a = CompOpp (value_compare a b).
Proof.
  destruct a, b; try reflexivity; simpl.
  - symmetry. apply Qcompare_antisym.
  - apply String.compare_antisym.
Qed.

(** ORDER BY is total: of two records, one sorts no later than the
    other. *)
Lemma row_leb_total (keys : list string) (r1 r2 : Row) :
  row_leb keys r1 r2 = false -> row_leb keys r2 r1 = true.
Proof.
  induction keys as [|k keys IH]; [discriminate|].
  cbn [row_leb]. rewrite (value_compare_antisym (attr r1 k) (attr r2 k)).
  destruct (value_compare (attr r1 k) (attr r2 k)); simpl; auto;
    discriminate.
Qed.

Lemma insert_by_head (leb : Row -> Row -> bool) (r : Row) (l : list Row) :
  head (insert_by leb r l) = Some r \/ head (insert_by leb r l) = head l.
Proof.
  destruct l as [|x l]; [left; reflexivity|]. simpl.
  destruct (leb r x); [left|right]; reflexivity.
Qed.

Lemma insert_by_sorted (keys : list string) (r : Row) (l : list Row) :
  (forall i s1 s2, l !! i = Some s1 -> l !! S i = Some s2 ->
                   row_leb keys s1 s2 = true) ->
  forall i s1 s2,
    insert_by (row_leb keys) r l !! i = Some s1 ->
    insert_by (row_leb keys) r l !! S i = Some s2 ->
    row_leb keys s1 s2 = true.
Proof.
  induction l as [|x l IH]; intros Hl i s1 s2 H1 H2.
  - destruct i; discriminate.
  - cbn [insert_by] in *.
    destruct (row_leb keys r x) eqn:Hrx.
    + destruct i as [|i].
      * injection H1 as <-. injection H2 as <-. exact Hrx.
      * exact (Hl i s1 s2 H1 H2).
    + destruct i as [|i].
      * injection H1 as <-.
        change (insert_by (row_leb keys) r l !! 0%nat = Some s2) in H2.
        rewrite <- head_lookup in H2.
        destruct (insert_by_head (row_leb keys) r l) as [H|H];
          rewrite H in H2.
        -- injection H2 as <-. apply row_leb_total, Hrx.
        -- apply (Hl 0%nat x s2); [reflexivity|].
           destruct l; [discriminate|exact H2].
      * apply (IH (fun j => Hl (S j)) i s1 s2 H1 H2).
Qed.

Lemma order_by_sorted (keys : list string) (l : list Row) :
  forall i s1 s2,
    order_by keys l !! i = Some s1 -> order_by keys l !! S i = Some s2 ->
    row_leb keys s1 s2 = true.
Proof.
  unfold order_by. induction l as [|x l IH]; intros i s1 s2.
  - destruct i; discriminate.
  - cbn [fold_right]. apply insert_by_sorted, IH.
Qed.

Lemma insert_by_perm (leb : Row -> Row -> bool) (r : Row) (l : list Row) :
  insert_by leb r l ≡ₚ r :: l.
Proof.
  induction l as [|x l IH]; [reflexivity|]. simpl.
  destruct (leb r x); [reflexivity|].
  rewrite IH. apply Permutation_swap.
Qed.

Lemma order_by_perm (keys : list string) (l : list Row) :
  order_by keys l ≡ₚ l.
Proof.
  unfold order_by. induction l as [|x l IH]; [reflexivity|].
  cbn [fold_right]. rewrite insert_by_perm, IH. reflexivity.
Qed.

Section CrossSectionMore.
Variable dist : Q * Q -> Q * Q -> Q.
Context {R : Rounding}.
Variables cos sin radians : Q -> Q.

(** The record of a station, or TypeError. *)
Lemma station_section_cases (name : string) (distance : Q) (station : Row) :
  (exists section,
      station_section dist cos sin radians name distance station
      = Ok section) \/
  station_section dist cos sin radians name distance station
  = Raised TypeError.
Proof.
  unfold station_section.
  destruct (read_token dist station "SHAPE@XY"); auto.
  destruct (read_token dist station "LOC_ANGLE"); eauto.
Qed.

Lemma sections_cases (name : string) (distance : Q) (stations : list Row) :
  snd (sections dist cos sin radians name distance stations) = Ok tt \/
  snd (sections dist cos sin radians name distance stations)
  = Raised TypeError.
Proof.
  induction stations as [|s stations IH]; [left; reflexivity|].
  cbn [sections].
  destruct (station_section_cases name distance s) as [(sec & H)|H];
    rewrite H; [exact IH|right; reflexivity].
Qed.

(** The loop writes one record per station, until a station fails. *)
Lemma sections_pairs (name : string) (distance : Q) (stations : list Row) :
  exists done,
    done `prefix_of` stations /\
    Forall2 (fun station section =>
               station_section dist cos sin radians name distance station
               = Ok section)
            done (fst (sections dist cos sin radians name distance stations))
    /\
    (snd (sections dist cos sin radians name distance stations) = Ok tt ->
     done = stations) /\
    (forall station,
        station ∈ stations ->
        (forall section,
            station_section dist cos sin radians name distance station
            <> Ok section) ->
        snd (sections dist cos sin radians name distance stations)
        = Raised TypeError /\
        (length done < length stations)%nat).
Proof.
  induction stations as [|s stations IH].
  - exists []. split; [reflexivity|]. split; [constructor|].
    split; [reflexivity|]. intros station H. inversion H.
  - destruct IH as (done & Hpre & Hall & Hok & Hbad).
    cbn [sections].
    destruct (station_section_cases name distance s) as [(sec & H)|H];
      rewrite H.
    + exists (s :: done). cbn [fst snd].
      split; [apply prefix_cons, Hpre|].
      split; [constructor; assumption|].
      split; [intros Hs; rewrite (Hok Hs); reflexivity|].
      intros station Hin Hno. apply elem_of_cons in Hin as [->|Hin].
      * exfalso. exact (Hno sec H).
      * destruct (Hbad station Hin Hno) as [H1 H2].
        split; [exact H1|]. cbn [length]. lia.
    + exists []. cbn [fst snd].
      split; [apply prefix_nil|]. split; [constructor|].
      split; [discriminate|].
      intros station _ _. split; [reflexivity|]. cbn [length]. lia.
Qed.

(** What a run of create_cross_section can change. *)
Lemma create_cross_section_frame
    (station_fc name : string) (width : Q) (out : string) (w : World) :
  let w' := fst (create_cross_section dist cos sin radians station_fc name
                   width out w) in
  overwriteOutput w' = overwriteOutput w /\
  forall p, p <> out -> datasets w' !! p = datasets w !! p.
Proof.
  cbv zeta. rewrite create_cross_section_run.
  destruct (datasets w !! station_fc) as [d|]; [|auto].
  destruct (writable w out); [|auto].
  cbv zeta.
  destruct (decide (out = station_fc)); [apply with_dataset_frame|].
  destruct (List.filter _ (fields d)) as [|f fs'];
    [apply with_dataset_frame|].
  destruct (cursor_fields_ok d (search_fields name) && _);
    apply with_dataset_frame.
Qed.

(** X15.  However create_cross_section ends, it has changed nothing but
    its output feature class: the stations, every other dataset and the
    overwrite setting are as before. *)
Theorem create_cross_section_touches_only_output
    (station_fc name : string) (width : Q) (out : string)
    (w w' : World) (r : result unit) :
  create_cross_section dist cos sin radians station_fc name width out w
  = (w', r) ->
  overwriteOutput w' = overwriteOutput w /\
  forall p, p <> out -> datasets w' !! p = datasets w !! p.
Proof.
  intros Hrun.
  pose proof (create_cross_section_frame station_fc name width out w) as H.
  rewrite Hrun in H. exact H.
Qed.

(** X16.  create_cross_section creates its output before it looks for
    the identifier field: asked for a field in whose name no field name of
    the stations occurs, it raises IndexError and leaves behind an output
    feature class with no fields and no records. *)
Theorem cross_section_field_checked_after_output
    (station_fc name : string) (width : Q) (out : string)
    (w : World) (d : Dataset) :
  datasets w !! station_fc = Some d ->
  out <> station_fc ->
  writable w out = true ->
  (forall g, g ∈ fields d -> ~ occurs_in (f_name g) name) ->
  exists w',
    create_cross_section dist cos sin radians station_fc name width out w
    = (w', Raised IndexError) /\
    datasets w' !! out = Some (mkDataset [] []) /\
    datasets w' !! station_fc = Some d.
Proof.
  intros Hd Hne Hw Hnone. rewrite create_cross_section_run, Hd, Hw.
  cbv zeta. rewrite decide_False by exact Hne.
  pose proof (filter_head (fun f => str_in (f_name f) name) (fields d)) as H.
  destruct (List.filter _ (fields d)) as [|f fs'].
  - eexists. split; [reflexivity|].
    rewrite !lookup_with_dataset, decide_True by reflexivity.
    rewrite decide_False by congruence. auto.
  - exfalso. destruct H as (before & after & Heq & Hf & _).
    apply (Hnone f).
    + rewrite Heq. apply elem_of_app. right. apply elem_of_cons. left.
      reflexivity.
    + apply str_in_spec, Hf.
Qed.

(** X18.  A station whose LOC_ANGLE is not a number stops
    create_cross_section with TypeError; the output feature class stays
    behind with fewer records than there are stations. *)
Theorem cross_section_stops_at_station_without_angle
    (station_fc name : string) (width : Q) (out : string)
    (w : World) (d : Dataset) (station : Row) :
  datasets w !! station_fc = Some d ->
  out <> station_fc ->
  writable w out = true ->
  has_field d name = true ->
  has_field d "Measure" = true ->
  has_field d "LOC_ANGLE" = true ->
  station ∈ rows d ->
  (forall b, attr station "LOC_ANGLE" <> VNum b) ->
  exists table,
    create_cross_section dist cos sin radians station_fc name width out w
    = (with_dataset w out table, Raised TypeError) /\
    (length (rows table) < length (rows d))%nat.
Proof.
  intros Hd Hne Hw Hname Hmeasure Hangle Hin Hbad.
  rewrite create_cross_section_run, Hd, Hw. cbv zeta.
  rewrite decide_False by exact Hne.
  destruct (has_field_filter d name Hname) as (f & fs' & ->).
  assert (Hok : cursor_fields_ok d (search_fields name)
                && forallb (has_field d) [name; "Measure"] = true).
  { unfold cursor_fields_ok, search_fields. cbn [forallb].
    rewrite Hname, Hmeasure, Hangle, !orb_true_r. reflexivity. }
  rewrite Hok.
  destruct (sections_pairs name (fdiv width 2)
              (order_by [name; "Measure"] (rows d)))
    as (done & Hpre & Hall & _ & Hstop).
  destruct (Hstop station) as [Hraised Hlen].
  { apply elem_of_order_by, Hin. }
  { intros section Hsec.
    destruct (station_section_ok _ _ _ _ _ _ _ _ Hsec)
      as (x & y & b & _ & Hb).
    exact (Hbad b Hb). }
  eexists. split; [rewrite Hraised; reflexivity|].
  cbn [rows]. rewrite <- (Forall2_length _ _ _ Hall).
  rewrite length_order_by in Hlen. exact Hlen.
Qed.

(** X19.  The cross-sections are written in the order of the cursor's
    ORDER BY clause, not in the order of the station feature class: the
    records of the output are, one by one, those of the stations taken by
    identifier and then by measure. *)
Theorem cross_sections_ordered_by_route_and_measure
    (station_fc name : string) (width : Q) (out : string) (w w' : World) :
  create_cross_section dist cos sin radians station_fc name width out w
  = (w', Ok tt) ->
  exists d table stations,
    datasets w !! station_fc = Some d /\
    datasets w' !! out = Some table /\
    stations ≡ₚ rows d /\
    (forall i s1 s2,
        stations !! i = Some s1 -> stations !! S i = Some s2 ->
        row_leb [name; "Measure"] s1 s2 = true) /\
    Forall2 (fun station section =>
               station_section dist cos sin radians name (fdiv width 2) station
               = Ok section)
            stations (rows table).
Proof.
  intros Hrun.
  rewrite create_cross_section_run in Hrun.
  destruct (datasets w !! station_fc) as [d|] eqn:Hd; [|discriminate].
  destruct (writable w out); [|discriminate].
  cbv zeta in Hrun.
  destruct (decide (out = station_fc)); [discriminate|].
  destruct (List.filter _ (fields d)) as [|f fs']; [discriminate|].
  destruct (cursor_fields_ok d (search_fields name) && _); [|discriminate].
  injection Hrun as <- Hok.
  exists d. eexists. exists (order_by [name; "Measure"] (rows d)).
  split; [reflexivity|].
  split; [rewrite lookup_with_dataset, decide_True by reflexivity;
          reflexivity|].
  split; [apply order_by_perm|]. split; [apply order_by_sorted|].
  cbn [rows].
  destruct (sections_pairs name (fdiv width 2)
              (order_by [name; "Measure"] (rows d)))
    as (done & _ & Hall & Hdone & _).
  rewrite (Hdone Hok) in Hall. exact Hall.
Qed.
End CrossSectionMore.

Lemma create_cross_section_touches_only_output_witness :
  create_cross_section Demo.dist Demo.cos Demo.sin Demo.radians
    "stations" "NAME" 10 "xs" Demo.stations_world
  = (Demo.sections_world, Ok tt) /\
  overwriteOutput Demo.sections_world = overwriteOutput Demo.stations_world /\
  forall p, p <> "xs" ->
            datasets Demo.sections_world !! p
            = datasets Demo.stations_world !! p.
Proof.
  split; [vm_compute; reflexivity|].
  apply (create_cross_section_touches_only_output Demo.dist Demo.cos Demo.sin
           Demo.radians "stations" "NAME" 10 "xs" Demo.stations_world
           Demo.sections_world (Ok tt)).
  vm_compute; reflexivity.
Defined.

Lemma cross_section_field_checked_after_output_witness :
  datasets Demo.stations_world !! "stations" = Some Demo.stations /\
  "xs" <> "stations" /\
  writable Demo.stations_world "xs" = true /\
  (forall g, g ∈ fields Demo.stations -> ~ occurs_in (f_name g) "ID") /\
  exists w',
    create_cross_section Demo.dist Demo.cos Demo.sin Demo.radians
      "stations" "ID" 10 "xs" Demo.stations_world
    = (w', Raised IndexError) /\
    datasets w' !! "xs" = Some (mkDataset [] []) /\
    datasets w' !! "stations" = Some Demo.stations.
Proof.
  assert (Hnone : forall g, g ∈ fields Demo.stations ->
                            ~ occurs_in (f_name g) "ID").
  { intros g Hg. apply str_in_false.
    repeat (apply elem_of_cons in Hg as [->|Hg]; [reflexivity|]).
    inversion Hg. }
  split; [reflexivity|]. split; [discriminate|]. split; [reflexivity|].
  split; [exact Hnone|].
  apply (cross_section_field_checked_after_output Demo.dist Demo.cos Demo.sin
           Demo.radians "stations" "ID" 10 "xs" Demo.stations_world
           Demo.stations);
    [reflexivity|discriminate|reflexivity|exact Hnone].
Defined.

Lemma cross_section_stops_at_station_without_angle_witness :
  datasets Demo.bare_world !! "stations" = Some Demo.bare_stations /\
  "xs" <> "stations" /\
  writable Demo.bare_world "xs" = true /\
  has_field Demo.bare_stations "NAME" = true /\
  has_field Demo.bare_stations "Measure" = true /\
  has_field Demo.bare_stations "LOC_ANGLE" = true /\
  Demo.bare_station ∈ rows Demo.bare_stations /\
  (forall b, attr Demo.bare_station "LOC_ANGLE" <> VNum b) /\
  exists table,
    create_cross_section Demo.dist Demo.cos Demo.sin Demo.radians
      "stations" "NAME" 10 "xs" Demo.bare_world
    = (with_dataset Demo.bare_world "xs" table, Raised TypeError) /\
    (length (rows table) < length (rows Demo.bare_stations))%nat.
Proof.
  assert (Hin : Demo.bare_station ∈ rows Demo.bare_stations).
  { apply elem_of_cons. right. apply elem_of_cons. left. reflexivity. }
  assert (Hbad : forall b, attr Demo.bare_station "LOC_ANGLE" <> VNum b).
  { intros b. vm_compute. discriminate. }
  split; [reflexivity|]. split; [discriminate|]. split; [reflexivity|].
  split; [reflexivity|]. split; [reflexivity|]. split; [reflexivity|].
  split; [exact Hin|]. split; [exact Hbad|].
  apply (cross_section_stops_at_station_without_angle Demo.dist Demo.cos
           Demo.sin Demo.radians "stations" "NAME" 10 "xs" Demo.bare_world
           Demo.bare_stations Demo.bare_station);
    [reflexivity|discriminate|reflexivity|reflexivity|reflexivity|
     reflexivity|exact Hin|exact Hbad].
Defined.

Lemma cross_sections_ordered_by_route_and_measure_witness :
  create_cross_section Demo.dist Demo.cos Demo.sin Demo.radians
    "stations" "NAME" 10 "xs" Demo.stations_world
  = (Demo.sections_world, Ok tt) /\
  exists d table stations,
    datasets Demo.stations_world !! "stations" = Some d /\
    datasets Demo.sections_world !! "xs" = Some table /\
    stations ≡ₚ rows d /\
    (forall i s1 s2,
        stations !! i = Some s1 -> stations !! S i = Some s2 ->
        row_leb ["NAME"; "Measure"] s1 s2 = true) /\
    Forall2 (fun station section =>
               station_section Demo.dist Demo.cos Demo.sin Demo.radians
                               "NAME" (fdiv 10 2) station
               = Ok section)
            stations (rows table).
Proof.
  split; [vm_compute; reflexivity|].
  apply (cross_sections_ordered_by_route_and_measure Demo.dist Demo.cos
           Demo.sin Demo.radians "stations" "NAME" 10 "xs"
           Demo.stations_world Demo.sections_world).
  vm_compute; reflexivity.
Defined.

(** ** The two pipelines *)

Lemma bind_ok_inv {A B : Type} (m : M A) (k : A -> M B) (w w' : World)
    (b : B) :
  (m ≫= k) w = (w', Ok b) ->
  exists w1 a, m w = (w1, Ok a) /\ k a w1 = (w', Ok b).
Proof.
  rewrite bind_run. destruct (m w) as [w1 [a|e|]]; try discriminate.
  intros H. eauto.
Qed.

Lemma keeps_bind {A B : Type} (m : M A) (k : A -> M B) :
  keeps_overwriteOutput m ->
  (forall a, keeps_overwriteOutput (k a)) ->
  keeps_overwriteOutput (m ≫= k).
Proof.
  intros Hm Hk w. rewrite bind_run. specialize (Hm w).
  destruct (m w) as [w1 [a|e|]]; cbn [fst] in *; try exact Hm.
  rewrite (Hk a w1). exact Hm.
Qed.

Lemma keeps_ret {A : Type} (a : A) : keeps_overwriteOutput (mret a : M A).
Proof. intros w. reflexivity. Qed.

Lemma unique_suffix_stem (used : string -> bool) (stem : string)
    (fuel : nat) :
  forall n, exists k : nat,
    unique_suffix used stem fuel n = stem +:+ pretty k.
Proof.
  induction fuel as [|fuel IH]; intros n; simpl; [eauto|].
  destruct (used (stem +:+ pretty n)); [apply IH|eauto].
Qed.

(** The name [CreateUniqueName] answers with starts with the workspace
    and the base name. *)
Lemma unique_name_stem (m : gmap string Dataset) (base workspace : string) :
  exists suffix,
    unique_name m base workspace = (workspace +:+ "/" +:+ base) +:+ suffix.
Proof.
  unfold unique_name. cbv zeta.
  destruct (m !! (workspace +:+ "/" +:+ base)).
  - destruct (unique_suffix_stem
                (fun p => match m !! p with Some _ => true | None => false end)
                (workspace +:+ "/" +:+ base) (S (size m)) 0) as [k Hk].
    exists (pretty k). exact Hk.
  - exists "". symmetry. apply append_empty_r.
Qed.

Lemma CopyFeatures_frame (src dst : string) (w : World) :
  let w' := fst (CopyFeatures src dst w) in
  overwriteOutput w' = overwriteOutput w /\
  forall p, p <> dst -> datasets w' !! p = datasets w !! p.
Proof.
  cbv zeta. rewrite CopyFeatures_run.
  destruct (datasets w !! src); [|auto].
  destruct (writable w dst); [apply with_dataset_frame|auto].
Qed.

Lemma delete_if_exists_run (p : string) (w : World) :
  delete_if_exists p w
  = (match datasets w !! p with
     | Some _ => without_dataset w p
     | None => w
     end, Ok tt).
Proof.
  unfold delete_if_exists. rewrite bind_run, Exists_run.
  destruct (datasets w !! p) eqn:Hp; [|reflexivity].
  rewrite Delete_run, Hp. reflexivity.
Qed.

Lemma delete_if_exists_lookup (p q : string) (w : World) :
  datasets (fst (delete_if_exists p w)) !! q
  = if decide (q = p) then None else datasets w !! q.
Proof.
  rewrite delete_if_exists_run. cbn [fst].
  destruct (datasets w !! p) eqn:Hp.
  - unfold without_dataset. cbn [datasets].
    destruct (decide (q = p)) as [->|Hq].
    + apply lookup_delete_eq.
    + apply lookup_delete_ne. congruence.
  - destruct (decide (q = p)) as [->|Hq]; [exact Hp|reflexivity].
Qed.

Section Pipelines.
Variable dist : Q * Q -> Q * Q -> Q.
Context {R : Rounding}.
Variable locate : Polyline -> Q -> option (Q * Q * Q).
Variables cos sin radians : Q -> Q.

Lemma MakeRouteEventLayer_run
    (in_routes route_id_field in_table event_id_field measure_field
     out_layer : string) (w : World) :
  MakeRouteEventLayer locate in_routes route_id_field in_table event_id_field
                      measure_field out_layer w
  = match datasets w !! in_routes with
    | None => (w, Raised (ExecuteError "routes do not exist"))
    | Some routes =>
        match datasets w !! in_table with
        | None => (w, Raised (ExecuteError "table does not exist"))
        | Some events =>
            if has_field routes route_id_field
               && has_field events event_id_field
               && has_field events measure_field
            then
              if writable w out_layer then
                (with_dataset w out_layer
                   (mkDataset
                      (fields events ++ [mkField "LOC_ANGLE" "DOUBLE" 8])
                      (omap (locate_event locate route_id_field
                                          event_id_field measure_field
                                          (rows routes))
                            (rows events))),
                 Ok tt)
              else (w, Raised (ExecuteError "output already exists"))
            else (w, Raised (ExecuteError "field does not exist"))
        end
    end.
Proof.
  unfold MakeRouteEventLayer. rewrite bind_run, lookup_dataset_run.
  destruct (datasets w !! in_routes) as [routes|]; [|reflexivity].
  cbv beta iota. rewrite bind_run, lookup_dataset_run.
  destruct (datasets w !! in_table) as [events|]; [|reflexivity].
  cbv beta iota.
  destruct (has_field routes route_id_field
            && has_field events event_id_field
            && has_field events measure_field); [|reflexivity].
  rewrite bind_run, check_output_run.
  destruct (writable w out_layer); reflexivity.
Qed.

Lemma MakeRouteEventLayer_frame
    (in_routes route_id_field in_table event_id_field measure_field
     out_layer : string) (w : World) :
  let w' := fst (MakeRouteEventLayer locate in_routes route_id_field in_table
                   event_id_field measure_field out_layer w) in
  overwriteOutput w' = overwriteOutput w /\
  forall p, p <> out_layer -> datasets w' !! p = datasets w !! p.
Proof.
  cbv zeta. rewrite MakeRouteEventLayer_run.
  destruct (datasets w !! in_routes) as [routes|]; [|auto].
  destruct (datasets w !! in_table) as [events|]; [|auto].
  destruct (has_field routes route_id_field && _ && _); [|auto].
  destruct (writable w out_layer); [apply with_dataset_frame|auto].
Qed.

(** The steps that the two pipelines share, after the overwrite setting
    has been switched on, keep that setting. *)
Lemma keeps_create_route_by_length (in_features id_field out : string) :
  keeps_overwriteOutput (create_route_by_length dist in_features id_field out).
Proof. intros w. apply create_route_by_length_frame. Qed.

Lemma keeps_create_point_event_table (fuel : nat)
    (in_routes name : string) (interval : Q) (out : string) :
  keeps_overwriteOutput
    (create_point_event_table dist fuel in_routes name interval out).
Proof. intros w. apply create_point_event_table_frame. Qed.

Lemma keeps_create_cross_section
    (station_fc name : string) (width : Q) (out : string) :
  keeps_overwriteOutput
    (create_cross_section dist cos sin radians station_fc name width out).
Proof. intros w. apply create_cross_section_frame. Qed.

Lemma keeps_MakeRouteEventLayer
    (in_routes route_id_field in_table event_id_field measure_field
     out_layer : string) :
  keeps_overwriteOutput
    (MakeRouteEventLayer locate in_routes route_id_field in_table
                         event_id_field measure_field out_layer).
Proof. intros w. apply MakeRouteEventLayer_frame. Qed.

Lemma keeps_CopyFeatures (src dst : string) :
  keeps_overwriteOutput (CopyFeatures src dst).
Proof. intros w. apply CopyFeatures_frame. Qed.

Lemma keeps_delete_if_exists (p : string) :
  keeps_overwriteOutput (delete_if_exists p).
Proof.
  intros w. rewrite delete_if_exists_run. cbn [fst].
  destruct (datasets w !! p); reflexivity.
Qed.

Lemma keeps_CreateUniqueName (base workspace : string) :
  keeps_overwriteOutput (CreateUniqueName base workspace).
Proof. intros w. reflexivity. Qed.

Ltac keeps_step :=
  lazymatch goal with
  | |- keeps_overwriteOutput (_ ≫= _) => apply keeps_bind; [|intros ?]
  | |- keeps_overwriteOutput (create_route_by_length _ _ _ _) =>
      apply keeps_create_route_by_length
  | |- keeps_overwriteOutput (create_point_event_table _ _ _ _ _ _) =>
      apply keeps_create_point_event_table
  | |- keeps_overwriteOutput (create_cross_section _ _ _ _ _ _ _ _) =>
      apply keeps_create_cross_section
  | |- keeps_overwriteOutput (MakeRouteEventLayer _ _ _ _ _ _ _) =>
      apply keeps_MakeRouteEventLayer
  | |- keeps_overwriteOutput (CopyFeatures _ _) => apply keeps_CopyFeatures
  | |- keeps_overwriteOutput (delete_if_exists _) =>
      apply keeps_delete_if_exists
  | |- keeps_overwriteOutput (CreateUniqueName _ _) =>
      apply keeps_CreateUniqueName
  end.

(** X20.  Both pipelines switch arcpy.env.overwriteOutput on and never
    restore it: once its parameters are read, however a run of
    PointsAlongLine.execute or of StationPointsAndCrossSections.execute
    ends, and whatever the setting was before, overwriting is on
    afterwards. *)
Theorem pipelines_leave_overwriting_on
    (fuel : nat) (in_line_features route_id_field : string)
    (interval width : Q)
    (out_route out_points out_xs : string) (w : World) :
  overwriteOutput
    (fst (PointsAlongLine_execute dist locate fuel in_line_features
            route_id_field interval out_points out_route w)) = true /\
  overwriteOutput
    (fst (StationPointsAndCrossSections_execute dist locate cos sin radians
            fuel in_line_features route_id_field interval width
            out_route out_points out_xs w)) = true.
Proof.
  split.
  - unfold PointsAlongLine_execute. rewrite bind_run.
    change (set_overwriteOutput true w) with (mkWorld (datasets w) true, Ok tt).
    cbv beta iota.
    match goal with
    | |- overwriteOutput (fst (?m ?w0)) = true =>
        assert (H : keeps_overwriteOutput m); [|exact (H w0)]
    end.
    repeat keeps_step.
  - unfold StationPointsAndCrossSections_execute. rewrite bind_run.
    change (set_overwriteOutput true w) with (mkWorld (datasets w) true, Ok tt).
    cbv beta iota.
    match goal with
    | |- overwriteOutput (fst (?m ?w0)) = true =>
        assert (H : keeps_overwriteOutput m); [|exact (H w0)]
    end.
    repeat keeps_step.
Qed.
End Pipelines.

Section PipelineResults.
Variable dist : Q * Q -> Q * Q -> Q.
Context {R : Rounding}.
Variable locate : Polyline -> Q -> option (Q * Q * Q).
Variables cos sin radians : Q -> Q.

(** After a normal return of create_route_by_length only the route
    feature class differs, and it is there unless it was given the name of
    the copy. *)
Lemma create_route_by_length_ok_frame
    (in_features id_field out : string) (w w' : World) (r : string) :
  create_route_by_length dist in_features id_field out w = (w', Ok r) ->
  forall p, p <> out -> datasets w' !! p = datasets w !! p.
Proof.
  intros Hrun.
  destruct (create_route_by_length_ok _ _ _ _ _ _ _ Hrun)
    as (d & _ & _ & _ & ->).
  assert (Hfresh : datasets w !! unique_name (datasets w) "theLine" "in_memory"
                   = None) by apply unique_name_fresh.
  intros p Hp. unfold without_dataset. simpl.
  destruct (decide (p = unique_name (datasets w) "theLine" "in_memory"))
    as [->|Hpt].
  - rewrite lookup_delete_eq, Hfresh. reflexivity.
  - rewrite lookup_delete_ne by congruence.
    rewrite lookup_insert_ne by congruence.
    rewrite lookup_insert_ne by congruence. reflexivity.
Qed.

Lemma exists_in_with_dataset (w : World) (p q : string) (d : Dataset) :
  exists_in w p -> exists_in (with_dataset w q d) p.
Proof.
  unfold exists_in. rewrite lookup_with_dataset.
  destruct (decide (q = p)); eauto.
Qed.

Lemma exists_in_with_dataset_eq (w : World) (p : string) (d : Dataset) :
  exists_in (with_dataset w p d) p.
Proof.
  unfold exists_in. rewrite lookup_with_dataset, decide_True by reflexivity.
  eauto.
Qed.

Lemma MakeRouteEventLayer_ok
    (in_routes route_id_field in_table event_id_field measure_field
     out_layer : string) (w w' : World) :
  MakeRouteEventLayer locate in_routes route_id_field in_table event_id_field
                      measure_field out_layer w = (w', Ok tt) ->
  exists t, w' = with_dataset w out_layer t.
Proof.
  rewrite MakeRouteEventLayer_run.
  destruct (datasets w !! in_routes) as [routes|]; [|discriminate].
  destruct (datasets w !! in_table) as [events|]; [|discriminate].
  destruct (has_field routes route_id_field && _ && _); [|discriminate].
  destruct (writable w out_layer); [|discriminate].
  intros H. injection H as <-. eauto.
Qed.

Lemma CopyFeatures_ok (src dst : string) (w w' : World) :
  CopyFeatures src dst w = (w', Ok tt) ->
  exists t, datasets w !! src = Some t /\ w' = with_dataset w dst t.
Proof.
  rewrite CopyFeatures_run.
  destruct (datasets w !! src) as [t|]; [|discriminate].
  destruct (writable w dst); [|discriminate].
  intros H. injection H as <-. eauto.
Qed.

Lemma create_cross_section_ok_exists
    (station_fc name : string) (width : Q) (out : string) (w w' : World) :
  create_cross_section dist cos sin radians station_fc name width out w
  = (w', Ok tt) ->
  exists t, w' = with_dataset w out t.
Proof.
  rewrite create_cross_section_run.
  destruct (datasets w !! station_fc) as [d|]; [|discriminate].
  destruct (writable w out); [|discriminate].
  cbv zeta.
  destruct (decide (out = station_fc)); [discriminate|].
  destruct (List.filter _ (fields d)) as [|f fs']; [discriminate|].
  destruct (cursor_fields_ok d (search_fields name) && _); [|discriminate].
  intros H. injection H as <- _. eauto.
Qed.

(** The steps the two pipelines share, when each returns normally: the
    routes, the event table under a fresh in_memory name, the layer
    "Point Events" and its copy. *)
Lemma stations_made
    (fuel : nat) (in_line_features route_id_field : string) (interval : Q)
    (out_route out_points : string) (w0 w1 w2 w3 w4 : World)
    (r1 r2 : string) :
  let event_tbl := unique_name (datasets w1) "event_table" "in_memory" in
  create_route_by_length dist in_line_features route_id_field out_route w0
  = (w1, Ok r1) ->
  create_point_event_table dist fuel out_route route_id_field interval
                           event_tbl w1 = (w2, Ok r2) ->
  MakeRouteEventLayer locate out_route route_id_field event_tbl
                      route_id_field "Measure" "Point Events" w2
  = (w3, Ok tt) ->
  CopyFeatures "Point Events" out_points w3 = (w4, Ok tt) ->
  datasets w0 !! event_tbl = None /\
  event_tbl <> out_route /\
  exists_in w4 event_tbl /\
  exists_in w4 "Point Events" /\
  forall p, p <> out_route -> p <> event_tbl -> p <> "Point Events" ->
            p <> out_points -> datasets w4 !! p = datasets w0 !! p.
Proof.
  intros event_tbl H1 H2 H3 H4.
  assert (Hfresh : datasets w1 !! event_tbl = None)
    by apply unique_name_fresh.
  pose proof (create_route_by_length_ok_frame _ _ _ _ _ _ H1) as F1.
  destruct (create_point_event_table_ok _ _ _ _ _ _ _ _ _ H2)
    as (d & f & routes & Hd & _ & _ & _ & E2).
  assert (Hne : event_tbl <> out_route).
  { intros Heq. rewrite Heq in Hfresh. rewrite Hfresh in Hd. discriminate. }
  destruct (MakeRouteEventLayer_ok _ _ _ _ _ _ _ _ H3) as (t3 & E3).
  destruct (CopyFeatures_ok _ _ _ _ H4) as (t4 & _ & E4).
  split; [rewrite <- (F1 _ Hne); exact Hfresh|].
  split; [exact Hne|].
  split.
  { rewrite E4, E3, E2. do 2 apply exists_in_with_dataset.
    apply exists_in_with_dataset_eq. }
  split.
  { rewrite E4, E3. apply exists_in_with_dataset, exists_in_with_dataset_eq. }
  intros p Hp1 Hp2 Hp3 Hp4. rewrite E4, E3, E2.
  rewrite !lookup_with_dataset.
  rewrite !decide_False by congruence. apply F1, Hp1.
Qed.

(** X21.  When PointsAlongLine.execute returns, its cleanup has removed
    the event table and the layer: apart from the two outputs, every
    dataset is as it was before the run, except that no dataset named
    "Point Events" is left, whether or not one was there before. *)
Theorem PointsAlongLine_leaves_only_outputs
    (fuel : nat) (in_line_features route_id_field : string) (interval : Q)
    (out_points out_route : string) (w w' : World) :
  PointsAlongLine_execute dist locate fuel in_line_features route_id_field
                          interval out_points out_route w = (w', Ok tt) ->
  datasets w' !! "Point Events" = None /\
  forall p, p <> out_points -> p <> out_route -> p <> "Point Events" ->
            datasets w' !! p = datasets w !! p.
Proof.
  intros Hrun. unfold PointsAlongLine_execute in Hrun.
  apply bind_ok_inv in Hrun as (w0 & [] & H0 & Hrun).
  apply bind_ok_inv in Hrun as (w1 & r1 & H1 & Hrun).
  apply bind_ok_inv in Hrun as (w1' & event_tbl & Hname & Hrun).
  rewrite CreateUniqueName_run in Hname. injection Hname as <- <-.
  apply bind_ok_inv in Hrun as (w2 & r2 & H2 & Hrun).
  apply bind_ok_inv in Hrun as (w3 & [] & H3 & Hrun).
  apply bind_ok_inv in Hrun as (w4 & [] & H4 & Hrun).
  apply bind_ok_inv in Hrun as (w5 & [] & H5 & H6).
  destruct (stations_made _ _ _ _ _ _ _ _ _ _ _ _ _ H1 H2 H3 H4)
    as (Hfresh & _ & _ & _ & Hothers).
  injection H0 as <-. cbn [datasets] in *.
  assert (E5 : w5 = fst (delete_if_exists
                           (unique_name (datasets w1) "event_table"
                                        "in_memory") w4))
    by (rewrite H5; reflexivity).
  assert (E6 : w' = fst (delete_if_exists "Point Events" w5))
    by (rewrite H6; reflexivity).
  split.
  - rewrite E6, delete_if_exists_lookup, decide_True by reflexivity.
    reflexivity.
  - intros p Hp1 Hp2 Hp3.
    rewrite E6, delete_if_exists_lookup, decide_False by exact Hp3.
    rewrite E5, delete_if_exists_lookup.
    destruct (decide (p = _)) as [->|Hp4].
    + symmetry. exact Hfresh.
    + apply Hothers; assumption.
Qed.

(** X22.  StationPointsAndCrossSections.execute has no cleanup: when it
    returns, the in_memory event table it made under a name that was free
    before the run is still there, and so is the layer "Point Events". *)
Theorem StationPointsAndCrossSections_leaves_event_table
    (fuel : nat) (in_line_features route_id_field : string)
    (interval width : Q) (out_route out_points out_xs : string)
    (w w' : World) :
  StationPointsAndCrossSections_execute dist locate cos sin radians fuel
    in_line_features route_id_field interval width out_route out_points
    out_xs w = (w', Ok tt) ->
  exists suffix,
    let event_tbl := "in_memory/event_table" +:+ suffix in
    datasets w !! event_tbl = None /\
    event_tbl <> out_route /\
    exists_in w' event_tbl /\
    exists_in w' "Point Events".
Proof.
  intros Hrun. unfold StationPointsAndCrossSections_execute in Hrun.
  apply bind_ok_inv in Hrun as (w0 & [] & H0 & Hrun).
  apply bind_ok_inv in Hrun as (w1 & r1 & H1 & Hrun).
  apply bind_ok_inv in Hrun as (w1' & event_tbl & Hname & Hrun).
  rewrite CreateUniqueName_run in Hname. injection Hname as <- <-.
  apply bind_ok_inv in Hrun as (w2 & r2 & H2 & Hrun).
  apply bind_ok_inv in Hrun as (w3 & [] & H3 & Hrun).
  apply bind_ok_inv in Hrun as (w4 & [] & H4 & H5).
  destruct (stations_made _ _ _ _ _ _ _ _ _ _ _ _ _ H1 H2 H3 H4)
    as (Hfresh & Hne & Htbl & Hlayer & _).
  injection H0 as <-. cbn [datasets] in *.
  destruct (create_cross_section_ok_exists _ _ _ _ _ _ H5) as (t & ->).
  destruct (unique_name_stem (datasets w1) "event_table" "in_memory")
    as (suffix & Hname).
  change ("in_memory" +:+ "/" +:+ "event_table")
    with "in_memory/event_table" in Hname.
  exists suffix. cbv zeta. rewrite <- Hname.
  split; [exact Hfresh|]. split; [exact Hne|].
  split; apply exists_in_with_dataset; assumption.
Qed.
End PipelineResults.

Lemma PointsAlongLine_leaves_only_outputs_witness :
  PointsAlongLine_execute Demo.dist Demo.locate 5
    "lines" "NAME" 25 "stations" "routes" Demo.world
  = (fst (PointsAlongLine_execute Demo.dist Demo.locate 5
            "lines" "NAME" 25 "stations" "routes" Demo.world), Ok tt) /\
  datasets (fst (PointsAlongLine_execute Demo.dist Demo.locate 5
                   "lines" "NAME" 25 "stations" "routes" Demo.world))
    !! "Point Events" = None /\
  forall p, p <> "stations" -> p <> "routes" -> p <> "Point Events" ->
            datasets (fst (PointsAlongLine_execute Demo.dist Demo.locate 5
                             "lines" "NAME" 25 "stations" "routes"
                             Demo.world)) !! p
            = datasets Demo.world !! p.
Proof.
  split; [vm_compute; reflexivity|].
  apply (PointsAlongLine_leaves_only_outputs Demo.dist Demo.locate 5
           "lines" "NAME" 25 "stations" "routes" Demo.world).
  vm_compute; reflexivity.
Defined.

Lemma StationPointsAndCrossSections_leaves_event_table_witness :
  StationPointsAndCrossSections_execute
    Demo.dist Demo.locate Demo.cos Demo.sin Demo.radians 5
    "lines" "NAME" 25 10 "routes" "stations" "xs" Demo.world
  = (fst (StationPointsAndCrossSections_execute
            Demo.dist Demo.locate Demo.cos Demo.sin Demo.radians 5
            "lines" "NAME" 25 10 "routes" "stations" "xs" Demo.world),
     Ok tt) /\
  exists suffix,
    let event_tbl := "in_memory/event_table" +:+ suffix in
    datasets Demo.world !! event_tbl = None /\
    event_tbl <> "routes" /\
    exists_in (fst (StationPointsAndCrossSections_execute
                      Demo.dist Demo.locate Demo.cos Demo.sin Demo.radians 5
                      "lines" "NAME" 25 10 "routes" "stations" "xs"
                      Demo.world)) event_tbl /\
    exists_in (fst (StationPointsAndCrossSections_execute
                      Demo.dist Demo.locate Demo.cos Demo.sin Demo.radians 5
                      "lines" "NAME" 25 10 "routes" "stations" "xs"
                      Demo.world)) "Point Events".
Proof.
  split; [vm_compute; reflexivity|].
  apply (StationPointsAndCrossSections_leaves_event_table
           Demo.dist Demo.locate Demo.cos Demo.sin Demo.radians 5
           "lines" "NAME" 25 10 "routes" "stations" "xs" Demo.world).
  vm_compute; reflexivity.
Defined.

(** ** updateParameters *)

Lemma default_value_idem (v : string) (p : Param) :
  default_value v (default_value v p) = default_value v p.
Proof.
  unfold default_value. destruct (p_altered p) eqn:E.
  - rewrite E. reflexivity.
  - reflexivity.
Qed.

Lemma default_value_altered (v : string) (p : Param) :
  p_altered (default_value v p) = p_altered p.
Proof. unfold default_value. destruct (p_altered p) eqn:E; auto. Qed.

(** One default: the list keeps its length, the parameter [i] becomes
    [default_value v], the others stay. *)
Lemma set_default_ok (i : nat) (v : string) (ps ps' : list Param) :
  set_default i v ps = Ok ps' ->
  length ps' = length ps /\
  (exists p, ps !! i = Some p /\ ps' !! i = Some (default_value v p)) /\
  forall j, j <> i -> ps' !! j = ps !! j.
Proof.
  unfold set_default, default_value.
  destruct (ps !! i) as [p|] eqn:Hp; [|discriminate].
  destruct (p_altered p) eqn:Ha; intros H; injection H as <-.
  - split; [reflexivity|]. split; [|reflexivity].
    exists p. rewrite Ha. auto.
  - split; [apply length_insert|]. split.
    + exists p. rewrite Ha. split; [reflexivity|].
      apply list_lookup_insert_eq. apply lookup_lt_Some in Hp. exact Hp.
    + intros j Hj. apply list_lookup_insert_ne. congruence.
Qed.

(** A parameter that already has its default makes the step a no-op. *)
Lemma set_default_fixed (i : nat) (v : string) (ps : list Param) (p : Param) :
  ps !! i = Some (default_value v p) ->
  set_default i v ps = Ok ps.
Proof.
  intros Hp. unfold set_default. rewrite Hp.
  destruct (p_altered (default_value v p)) eqn:Ha; [reflexivity|].
  f_equal. apply list_insert_id.
  rewrite Hp. f_equal. unfold default_value in *.
  destruct (p_altered p) eqn:E; [cbv beta iota in Ha; congruence|].
  reflexivity.
Qed.

Section ParameterProperties.
Variable catalogPath : string -> option string.
Variable scratchGDB : string.
Variable os_path_split : string -> string * string.
Variable os_path_join : string -> string -> string.

(** A run of StationPointsAndCrossSections.updateParameters that returns,
    parameter by parameter. *)
Lemma stations_update_ok (ps ps' : list Param) :
  StationPointsAndCrossSections_updateParameters
    catalogPath scratchGDB os_path_split os_path_join ps = Ok ps' ->
  exists p0,
    ps !! 0%nat = Some p0 /\
    match input_layer p0 with
    | None => ps' = ps
    | Some layer =>
        length ps' = length ps /\
        (exists p4 p5 p6,
            ps !! 4%nat = Some p4 /\ ps !! 5%nat = Some p5 /\
            ps !! 6%nat = Some p6 /\
            ps' !! 4%nat
            = Some (default_value
                      (os_path_join
                         (default_folder catalogPath scratchGDB
                                         os_path_split layer) "out_route")
                      p4) /\
            ps' !! 5%nat
            = Some (default_value
                      (os_path_join
                         (default_folder catalogPath scratchGDB
                                         os_path_split layer) "out_points")
                      p5) /\
            ps' !! 6%nat
            = Some (default_value
                      (os_path_join
                         (default_folder catalogPath scratchGDB
                                         os_path_split layer) "out_xsection")
                      p6)) /\
        forall j, j <> 4%nat -> j <> 5%nat -> j <> 6%nat ->
                  ps' !! j = ps !! j
    end.
Proof.
  unfold StationPointsAndCrossSections_updateParameters.
  destruct (ps !! 0%nat) as [p0|]; [|discriminate].
  intros H. exists p0. split; [reflexivity|].
  destruct (input_layer p0) as [layer|]; [|injection H as <-; reflexivity].
  cbv zeta in H.
  destruct (set_default 4 _ ps) as [ps1|e|] eqn:H4; try discriminate.
  destruct (set_default 5 _ ps1) as [ps2|e|] eqn:H5; try discriminate.
  apply set_default_ok in H4 as (L4 & (p4 & P4 & Q4) & O4).
  apply set_default_ok in H5 as (L5 & (p5 & P5 & Q5) & O5).
  apply set_default_ok in H as (L6 & (p6 & P6 & Q6) & O6).
  split; [congruence|]. split.
  - exists p4, p5, p6.
    rewrite (O4 5%nat) in P5 by discriminate.
    rewrite (O5 6%nat), (O4 6%nat) in P6 by discriminate.
    split; [exact P4|]. split; [exact P5|]. split; [exact P6|].
    rewrite (O6 4%nat), (O5 4%nat), (O6 5%nat) by discriminate.
    auto.
  - intros j J4 J5 J6. rewrite (O6 j J6), (O5 j J5), (O4 j J4). reflexivity.
Qed.

(** The same for PointsAlongLine.updateParameters. *)
Lemma points_update_ok (ps ps' : list Param) :
  PointsAlongLine_updateParameters
    catalogPath scratchGDB os_path_split os_path_join ps = Ok ps' ->
  exists p0,
    ps !! 0%nat = Some p0 /\
    match input_layer p0 with
    | None => ps' = ps
    | Some layer =>
        length ps' = length ps /\
        (exists p3 p4,
            ps !! 3%nat = Some p3 /\ ps !! 4%nat = Some p4 /\
            ps' !! 3%nat
            = Some (default_value
                      (os_path_join
                         (default_folder catalogPath scratchGDB
                                         os_path_split layer) "out_points")
                      p3) /\
            ps' !! 4%nat
            = Some (default_value
                      (os_path_join
                         (default_folder catalogPath scratchGDB
                                         os_path_split layer) "out_route")
                      p4)) /\
        forall j, j <> 3%nat -> j <> 4%nat -> ps' !! j = ps !! j
    end.
Proof.
  unfold PointsAlongLine_updateParameters.
  destruct (ps !! 0%nat) as [p0|]; [|discriminate].
  intros H. exists p0. split; [reflexivity|].
  destruct (input_layer p0) as [layer|]; [|injection H as <-; reflexivity].
  cbv zeta in H.
  destruct (set_default 3 _ ps) as [ps1|e|] eqn:H3; try discriminate.
  apply set_default_ok in H3 as (L3 & (p3 & P3 & Q3) & O3).
  apply set_default_ok in H as (L4 & (p4 & P4 & Q4) & O4).
  split; [congruence|]. split.
  - exists p3, p4. rewrite (O3 4%nat) in P4 by discriminate.
    split; [exact P3|]. split; [exact P4|].
    rewrite (O4 3%nat) by discriminate. auto.
  - intros j J3 J4. rewrite (O4 j J4), (O3 j J3). reflexivity.
Qed.

Lemma default_value_keeps (v : string) (p : Param) :
  p_altered (default_value v p) = p_altered p /\
  (p_altered p = true -> default_value v p = p).
Proof.
  split; [apply default_value_altered|].
  unfold default_value. intros ->. reflexivity.
Qed.

(** X23.  Neither updateParameters overwrites what the user has set: the
    parameter list keeps its length, every parameter keeps its altered
    flag, and a parameter that is altered, or that is not one of the
    output parameters (4, 5, 6 of StationPointsAndCrossSections; 3, 4 of
    PointsAlongLine), keeps its value. *)
Theorem updateParameters_keeps_user_values :
  (forall ps ps',
      StationPointsAndCrossSections_updateParameters
    catalogPath scratchGDB os_path_split os_path_join ps = Ok ps' ->
      keeps_user_values [4; 5; 6]%nat ps ps') /\
  (forall ps ps',
      PointsAlongLine_updateParameters
    catalogPath scratchGDB os_path_split os_path_join ps = Ok ps' ->
      keeps_user_values [3; 4]%nat ps ps').
Proof.
  split; intros ps ps' H.
  - apply stations_update_ok in H as (p0 & _ & H).
    destruct (input_layer p0) as [layer|].
    2:{ subst ps'. split; [reflexivity|]. intros i p Hp. exists p. auto. }
    destruct H as (Hlen & (p4 & p5 & p6 & P4 & P5 & P6 & Q4 & Q5 & Q6) & Ho).
    split; [exact Hlen|]. intros i p Hp.
    destruct (decide (i = 4%nat)) as [->|J4];
      [|destruct (decide (i = 5%nat)) as [->|J5];
        [|destruct (decide (i = 6%nat)) as [->|J6]]].
    + rewrite P4 in Hp. injection Hp as <-. eexists. split; [exact Q4|].
      destruct (default_value_keeps
                  (os_path_join
                     (default_folder catalogPath scratchGDB os_path_split
                                     layer) "out_route") p4) as [Ha Hk].
      split; [exact Ha|]. intros [Hp|Hp]; [exact (Hk Hp)|].
      exfalso. apply Hp. set_solver.
    + rewrite P5 in Hp. injection Hp as <-. eexists. split; [exact Q5|].
      destruct (default_value_keeps
                  (os_path_join
                     (default_folder catalogPath scratchGDB os_path_split
                                     layer) "out_points") p5) as [Ha Hk].
      split; [exact Ha|]. intros [Hp|Hp]; [exact (Hk Hp)|].
      exfalso. apply Hp. set_solver.
    + rewrite P6 in Hp. injection Hp as <-. eexists. split; [exact Q6|].
      destruct (default_value_keeps
                  (os_path_join
                     (default_folder catalogPath scratchGDB os_path_split
                                     layer) "out_xsection") p6)
        as [Ha Hk].
      split; [exact Ha|]. intros [Hp|Hp]; [exact (Hk Hp)|].
      exfalso. apply Hp. set_solver.
    + exists p. rewrite (Ho i J4 J5 J6). auto.
  - apply points_update_ok in H as (p0 & _ & H).
    destruct (input_layer p0) as [layer|].
    2:{ subst ps'. split; [reflexivity|]. intros i p Hp. exists p. auto. }
    destruct H as (Hlen & (p3 & p4 & P3 & P4 & Q3 & Q4) & Ho).
    split; [exact Hlen|]. intros i p Hp.
    destruct (decide (i = 3%nat)) as [->|J3];
      [|destruct (decide (i = 4%nat)) as [->|J4]].
    + rewrite P3 in Hp. injection Hp as <-. eexists. split; [exact Q3|].
      destruct (default_value_keeps
                  (os_path_join
                     (default_folder catalogPath scratchGDB os_path_split
                                     layer) "out_points") p3) as [Ha Hk].
      split; [exact Ha|]. intros [Hp|Hp]; [exact (Hk Hp)|].
      exfalso. apply Hp. set_solver.
    + rewrite P4 in Hp. injection Hp as <-. eexists. split; [exact Q4|].
      destruct (default_value_keeps
                  (os_path_join
                     (default_folder catalogPath scratchGDB os_path_split
                                     layer) "out_route") p4) as [Ha Hk].
      split; [exact Ha|]. intros [Hp|Hp]; [exact (Hk Hp)|].
      exfalso. apply Hp. set_solver.
    + exists p. rewrite (Ho i J3 J4). auto.
Qed.

(** X24.  The defaults of StationPointsAndCrossSections.updateParameters:
    once the input has a value, each output parameter the user has not
    altered is set to out_route, out_points or out_xsection, joined to the
    folder of the input's catalog path or, when the input has none, to the
    scratch geodatabase.  While the input has no value nothing is set. *)
Theorem stations_updateParameters_defaults (ps ps' : list Param) :
  StationPointsAndCrossSections_updateParameters
    catalogPath scratchGDB os_path_split os_path_join ps = Ok ps' ->
  exists p0,
    ps !! 0%nat = Some p0 /\
    (input_layer p0 = None -> ps' = ps) /\
    forall layer,
      input_layer p0 = Some layer ->
      exists path,
        match catalogPath layer with
        | Some p => path = fst (os_path_split p)
        | None => path = scratchGDB
        end /\
        forall i name p,
          (i, name) ∈ [(4%nat, "out_route"); (5%nat, "out_points");
                       (6%nat, "out_xsection")] ->
          ps !! i = Some p -> p_altered p = false ->
          ps' !! i = Some (mkParam (Some (os_path_join path name)) false).
Proof.
  intros H. apply stations_update_ok in H as (p0 & H0 & H).
  exists p0. split; [exact H0|].
  destruct (input_layer p0) as [layer0|]; [|split; [auto|discriminate]].
  split; [discriminate|]. intros layer Hl. injection Hl as ->.
  destruct H as (_ & (p4 & p5 & p6 & P4 & P5 & P6 & Q4 & Q5 & Q6) & _).
  exists (default_folder catalogPath scratchGDB os_path_split layer). split.
  { unfold default_folder. destruct (catalogPath layer); reflexivity. }
  intros i name p Hin Hp Ha.
  assert (Hd : forall v, default_value v p = mkParam (Some v) false).
  { intros v. unfold default_value. rewrite Ha. reflexivity. }
  repeat (apply elem_of_cons in Hin as [Hin|Hin];
          [injection Hin as -> ->|]); [| | |inversion Hin].
  - rewrite P4 in Hp. injection Hp as <-. rewrite Q4, Hd. reflexivity.
  - rewrite P5 in Hp. injection Hp as <-. rewrite Q5, Hd. reflexivity.
  - rewrite P6 in Hp. injection Hp as <-. rewrite Q6, Hd. reflexivity.
Qed.

(** X25.  The defaults of PointsAlongLine.updateParameters: out_points
    for parameter 3 and out_route for parameter 4, under the same folder
    rule. *)
Theorem points_updateParameters_defaults (ps ps' : list Param) :
  PointsAlongLine_updateParameters
    catalogPath scratchGDB os_path_split os_path_join ps = Ok ps' ->
  exists p0,
    ps !! 0%nat = Some p0 /\
    (input_layer p0 = None -> ps' = ps) /\
    forall layer,
      input_layer p0 = Some layer ->
      exists path,
        match catalogPath layer with
        | Some p => path = fst (os_path_split p)
        | None => path = scratchGDB
        end /\
        forall i name p,
          (i, name) ∈ [(3%nat, "out_points"); (4%nat, "out_route")] ->
          ps !! i = Some p -> p_altered p = false ->
          ps' !! i = Some (mkParam (Some (os_path_join path name)) false).
Proof.
  intros H. apply points_update_ok in H as (p0 & H0 & H).
  exists p0. split; [exact H0|].
  destruct (input_layer p0) as [layer0|]; [|split; [auto|discriminate]].
  split; [discriminate|]. intros layer Hl. injection Hl as ->.
  destruct H as (_ & (p3 & p4 & P3 & P4 & Q3 & Q4) & _).
  exists (default_folder catalogPath scratchGDB os_path_split layer). split.
  { unfold default_folder. destruct (catalogPath layer); reflexivity. }
  intros i name p Hin Hp Ha.
  assert (Hd : forall v, default_value v p = mkParam (Some v) false).
  { intros v. unfold default_value. rewrite Ha. reflexivity. }
  repeat (apply elem_of_cons in Hin as [Hin|Hin];
          [injection Hin as -> ->|]); [| |inversion Hin].
  - rewrite P3 in Hp. injection Hp as <-. rewrite Q3, Hd. reflexivity.
  - rewrite P4 in Hp. injection Hp as <-. rewrite Q4, Hd. reflexivity.
Qed.

(** X26.  Both updateParameters are idempotent: called again on the
    parameters they have returned, they return them unchanged. *)
Theorem updateParameters_idempotent :
  (forall ps ps', StationPointsAndCrossSections_updateParameters
    catalogPath scratchGDB os_path_split os_path_join ps = Ok ps' ->
                  StationPointsAndCrossSections_updateParameters
    catalogPath scratchGDB os_path_split os_path_join ps' = Ok ps') /\
  (forall ps ps', PointsAlongLine_updateParameters
    catalogPath scratchGDB os_path_split os_path_join ps = Ok ps' ->
                  PointsAlongLine_updateParameters
    catalogPath scratchGDB os_path_split os_path_join ps' = Ok ps').
Proof.
  split; intros ps ps' H.
  - apply stations_update_ok in H as (p0 & H0 & H).
    destruct (input_layer p0) as [layer|] eqn:Hl.
    2:{ subst ps'. unfold StationPointsAndCrossSections_updateParameters.
        rewrite H0, Hl. reflexivity. }
    destruct H as (_ & (p4 & p5 & p6 & _ & _ & _ & Q4 & Q5 & Q6) & Ho).
    unfold StationPointsAndCrossSections_updateParameters.
    rewrite (Ho 0%nat), H0, Hl by discriminate. cbv zeta.
    rewrite (set_default_fixed 4 _ ps' p4 Q4).
    rewrite (set_default_fixed 5 _ ps' p5 Q5).
    apply (set_default_fixed 6 _ ps' p6 Q6).
  - apply points_update_ok in H as (p0 & H0 & H).
    destruct (input_layer p0) as [layer|] eqn:Hl.
    2:{ subst ps'. unfold PointsAlongLine_updateParameters.
        rewrite H0, Hl. reflexivity. }
    destruct H as (_ & (p3 & p4 & _ & _ & Q3 & Q4) & Ho).
    unfold PointsAlongLine_updateParameters.
    rewrite (Ho 0%nat), H0, Hl by discriminate. cbv zeta.
    rewrite (set_default_fixed 3 _ ps' p3 Q3).
    apply (set_default_fixed 4 _ ps' p4 Q4).
Qed.
End ParameterProperties.

Lemma updateParameters_keeps_user_values_witness :
  StationPointsAndCrossSections_updateParameters
    DemoTool.catalogPath DemoTool.scratchGDB DemoTool.os_path_split
    DemoTool.os_path_join DemoTool.station_parameters
  = Ok [mkParam (Some "lines") true; DemoTool.unset; DemoTool.unset;
        DemoTool.unset; mkParam (Some "data.gdb/out_route") false;
        mkParam (Some "my_stations") true;
        mkParam (Some "data.gdb/out_xsection") false] /\
  keeps_user_values [4; 5; 6]%nat DemoTool.station_parameters
    [mkParam (Some "lines") true; DemoTool.unset; DemoTool.unset;
     DemoTool.unset; mkParam (Some "data.gdb/out_route") false;
     mkParam (Some "my_stations") true;
     mkParam (Some "data.gdb/out_xsection") false] /\
  PointsAlongLine_updateParameters
    DemoTool.catalogPath DemoTool.scratchGDB DemoTool.os_path_split
    DemoTool.os_path_join DemoTool.point_parameters
  = Ok [mkParam (Some "sketch") true; DemoTool.unset; DemoTool.unset;
        mkParam (Some "scratch.gdb/out_points") false;
        mkParam (Some "scratch.gdb/out_route") false] /\
  keeps_user_values [3; 4]%nat DemoTool.point_parameters
    [mkParam (Some "sketch") true; DemoTool.unset; DemoTool.unset;
     mkParam (Some "scratch.gdb/out_points") false;
     mkParam (Some "scratch.gdb/out_route") false].
Proof.
  split; [reflexivity|]. split.
  - apply (proj1 (updateParameters_keeps_user_values
                    DemoTool.catalogPath DemoTool.scratchGDB
                    DemoTool.os_path_split DemoTool.os_path_join)).
    reflexivity.
  - split; [reflexivity|].
    apply (proj2 (updateParameters_keeps_user_values
                    DemoTool.catalogPath DemoTool.scratchGDB
                    DemoTool.os_path_split DemoTool.os_path_join)).
    reflexivity.
Defined.

Lemma stations_updateParameters_defaults_witness :
  StationPointsAndCrossSections_updateParameters
    DemoTool.catalogPath DemoTool.scratchGDB DemoTool.os_path_split
    DemoTool.os_path_join DemoTool.station_parameters
  = Ok [mkParam (Some "lines") true; DemoTool.unset; DemoTool.unset;
        DemoTool.unset; mkParam (Some "data.gdb/out_route") false;
        mkParam (Some "my_stations") true;
        mkParam (Some "data.gdb/out_xsection") false] /\
  exists p0,
    DemoTool.station_parameters !! 0%nat = Some p0 /\
    (input_layer p0 = None ->
     [mkParam (Some "lines") true; DemoTool.unset; DemoTool.unset;
      DemoTool.unset; mkParam (Some "data.gdb/out_route") false;
      mkParam (Some "my_stations") true;
      mkParam (Some "data.gdb/out_xsection") false]
     = DemoTool.station_parameters) /\
    forall layer,
      input_layer p0 = Some layer ->
      exists path,
        match DemoTool.catalogPath layer with
        | Some p => path = fst (DemoTool.os_path_split p)
        | None => path = DemoTool.scratchGDB
        end /\
        forall i name p,
          (i, name) ∈ [(4%nat, "out_route"); (5%nat, "out_points");
                       (6%nat, "out_xsection")] ->
          DemoTool.station_parameters !! i = Some p ->
          p_altered p = false ->
          [mkParam (Some "lines") true; DemoTool.unset; DemoTool.unset;
           DemoTool.unset; mkParam (Some "data.gdb/out_route") false;
           mkParam (Some "my_stations") true;
           mkParam (Some "data.gdb/out_xsection") false] !! i
          = Some (mkParam (Some (DemoTool.os_path_join path name)) false).
Proof.
  split; [reflexivity|].
  apply (stations_updateParameters_defaults
           DemoTool.catalogPath DemoTool.scratchGDB DemoTool.os_path_split
           DemoTool.os_path_join DemoTool.station_parameters).
  reflexivity.
Defined.

Lemma points_updateParameters_defaults_witness :
  PointsAlongLine_updateParameters
    DemoTool.catalogPath DemoTool.scratchGDB DemoTool.os_path_split
    DemoTool.os_path_join DemoTool.point_parameters
  = Ok [mkParam (Some "sketch") true; DemoTool.unset; DemoTool.unset;
        mkParam (Some "scratch.gdb/out_points") false;
        mkParam (Some "scratch.gdb/out_route") false] /\
  exists p0,
    DemoTool.point_parameters !! 0%nat = Some p0 /\
    (input_layer p0 = None ->
     [mkParam (Some "sketch") true; DemoTool.unset; DemoTool.unset;
      mkParam (Some "scratch.gdb/out_points") false;
      mkParam (Some "scratch.gdb/out_route") false]
     = DemoTool.point_parameters) /\
    forall layer,
      input_layer p0 = Some layer ->
      exists path,
        match DemoTool.catalogPath layer with
        | Some p => path = fst (DemoTool.os_path_split p)
        | None => path = DemoTool.scratchGDB
        end /\
        forall i name p,
          (i, name) ∈ [(3%nat, "out_points"); (4%nat, "out_route")] ->
          DemoTool.point_parameters !! i = Some p ->
          p_altered p = false ->
          [mkParam (Some "sketch") true; DemoTool.unset; DemoTool.unset;
           mkParam (Some "scratch.gdb/out_points") false;
           mkParam (Some "scratch.gdb/out_route") false] !! i
          = Some (mkParam (Some (DemoTool.os_path_join path name)) false).
Proof.
  split; [reflexivity|].
  apply (points_updateParameters_defaults
           DemoTool.catalogPath DemoTool.scratchGDB DemoTool.os_path_split
           DemoTool.os_path_join DemoTool.point_parameters).
  reflexivity.
Defined.

Lemma updateParameters_idempotent_witness :
  StationPointsAndCrossSections_updateParameters
    DemoTool.catalogPath DemoTool.scratchGDB DemoTool.os_path_split
    DemoTool.os_path_join DemoTool.station_parameters
  = Ok [mkParam (Some "lines") true; DemoTool.unset; DemoTool.unset;
        DemoTool.unset; mkParam (Some "data.gdb/out_route") false;
        mkParam (Some "my_stations") true;
        mkParam (Some "data.gdb/out_xsection") false] /\
  StationPointsAndCrossSections_updateParameters
    DemoTool.catalogPath DemoTool.scratchGDB DemoTool.os_path_split
    DemoTool.os_path_join
    [mkParam (Some "lines") true; DemoTool.unset; DemoTool.unset;
     DemoTool.unset; mkParam (Some "data.gdb/out_route") false;
     mkParam (Some "my_stations") true;
     mkParam (Some "data.gdb/out_xsection") false]
  = Ok [mkParam (Some "lines") true; DemoTool.unset; DemoTool.unset;
        DemoTool.unset; mkParam (Some "data.gdb/out_route") false;
        mkParam (Some "my_stations") true;
        mkParam (Some "data.gdb/out_xsection") false] /\
  PointsAlongLine_updateParameters
    DemoTool.catalogPath DemoTool.scratchGDB DemoTool.os_path_split
    DemoTool.os_path_join DemoTool.point_parameters
  = Ok [mkParam (Some "sketch") true; DemoTool.unset; DemoTool.unset;
        mkParam (Some "scratch.gdb/out_points") false;
        mkParam (Some "scratch.gdb/out_route") false] /\
  PointsAlongLine_updateParameters
    DemoTool.catalogPath DemoTool.scratchGDB DemoTool.os_path_split
    DemoTool.os_path_join
    [mkParam (Some "sketch") true; DemoTool.unset; DemoTool.unset;
     mkParam (Some "scratch.gdb/out_points") false;
     mkParam (Some "scratch.gdb/out_route") false]
  = Ok [mkParam (Some "sketch") true; DemoTool.unset; DemoTool.unset;
        mkParam (Some "scratch.gdb/out_points") false;
        mkParam (Some "scratch.gdb/out_route") false].
Proof.
  split; [reflexivity|]. split.
  - apply (proj1 (updateParameters_idempotent
                    DemoTool.catalogPath DemoTool.scratchGDB
                    DemoTool.os_path_split DemoTool.os_path_join)
             DemoTool.station_parameters).
    reflexivity.
  - split; [reflexivity|].
    apply (proj2 (updateParameters_idempotent
                    DemoTool.catalogPath DemoTool.scratchGDB
                    DemoTool.os_path_split DemoTool.os_path_join)
             DemoTool.point_parameters).
    reflexivity.
Defined.

(** ** Stations on routes measured by length *)

Section StationsByLength.
Variable dist : Q * Q -> Q * Q -> Q.
Context {R : Rounding}.

(** X27.  Stationing starts at zero: when create_point_event_table, with
    an interval > 0, is run on the routes that create_route_by_length has
    written (as both pipelines do), every record of the event table has a
    measure that is reached from 0 by adding the interval a whole number
    of times, each sum rounded as the script's additions are, 0 itself
    included, and that is below the length of an input line. *)
Theorem stations_of_routes_by_length
    (fuel : nat) (in_features id_field out_routes out_table : string)
    (interval : Q) (w w1 w2 : World) (r r2 : string) :
  create_route_by_length dist in_features id_field out_routes w
  = (w1, Ok r) ->
  out_routes <> unique_name (datasets w) "theLine" "in_memory" ->
  0 < interval ->
  out_table <> out_routes ->
  create_point_event_table dist fuel out_routes id_field interval out_table w1
  = (w2, Ok r2) ->
  exists d table,
    datasets w !! in_features = Some d /\
    datasets w2 !! out_table = Some table /\
    forall ev,
      ev ∈ rows table ->
      exists (m : Q) (k : nat) (line : Row) (p : Polyline),
        attr ev "Measure" = VNum m /\
        m = strides interval k 0 /\
        line ∈ rows d /\ shape line = PolylineShape p /\
        m < shape_length dist p.
Proof.
  intros Hroutes Hline Hpos Hne Hevents.
  destruct (create_route_by_length_ok _ _ _ _ _ _ _ Hroutes)
    as (d & Hd & _ & _ & ->).
  destruct (create_point_event_table_ok _ _ _ _ _ _ _ _ _ Hevents)
    as (rd & f0 & routes & Hrd & _ & Hsame & _ & ->).
  specialize (Hsame Hne). subst routes.
  unfold without_dataset in Hrd. simpl in Hrd.
  rewrite lookup_delete_ne in Hrd by congruence.
  rewrite lookup_insert_eq in Hrd. injection Hrd as <-.
  exists d. eexists. split; [exact Hd|].
  split; [rewrite lookup_with_dataset, decide_True by reflexivity;
          reflexivity|].
  cbn [rows]. intros ev Hev.
  apply (route_events_within dist id_field interval fuel _ Hpos) in Hev
    as (route & q & f & l & m & k & Hroute & Hq & Hf & Hl & -> & Hm & Hlt).
  apply elem_of_map in Hroute as ([id q'] & -> & Hin).
  cbn in Hq. injection Hq as <-.
  pose proof (build_routes_by_length dist (rows d) id_field) as Hall.
  rewrite Forall_forall in Hall.
  destruct (Hall (id, q') Hin) as (Hfirst & line & p & Hin' & Hp & _ & Hlast).
  cbn [fst snd] in *.
  rewrite Hfirst in Hf. injection Hf as <-.
  rewrite Hlast in Hl. injection Hl as <-.
  exists m, k, line, p.
  split; [apply attr_event_row_measure|].
  split; [exact Hm|]. auto.
Qed.
End StationsByLength.

Lemma stations_of_routes_by_length_witness :
  create_route_by_length Demo.dist "lines" "NAME" "routes" Demo.world
  = (Demo.routes_world, Ok "routes") /\
  "routes" <> unique_name (datasets Demo.world) "theLine" "in_memory" /\
  0 < 25 /\
  "events" <> "routes" /\
  create_point_event_table Demo.dist 5 "routes" "NAME" 25 "events"
    Demo.routes_world
  = (fst (create_point_event_table Demo.dist 5 "routes" "NAME" 25 "events"
            Demo.routes_world), Ok "events") /\
  exists d table,
    datasets Demo.world !! "lines" = Some d /\
    datasets (fst (create_point_event_table Demo.dist 5 "routes" "NAME" 25
                     "events" Demo.routes_world)) !! "events" = Some table /\
    forall ev,
      ev ∈ rows table ->
      exists (m : Q) (k : nat) (line : Row) (p : Polyline),
        attr ev "Measure" = VNum m /\
        m = strides 25 k 0 /\
        line ∈ rows d /\ shape line = PolylineShape p /\
        m < shape_length Demo.dist p.
Proof.
  split; [vm_compute; reflexivity|].
  split; [vm_compute; discriminate|].
  split; [reflexivity|]. split; [discriminate|].
  split; [vm_compute; reflexivity|].
  apply (stations_of_routes_by_length Demo.dist 5 "lines" "NAME" "routes"
           "events" 25 Demo.world Demo.routes_world _ "routes" "events");
    [vm_compute; reflexivity|vm_compute; discriminate|reflexivity|
     discriminate|vm_compute; reflexivity].
Defined.

(** ** The tools that wrap one function *)

Section Wrappers.
Variable dist : Q * Q -> Q * Q -> Q.
Context {R : Rounding}.

(** CreatePointEventTable.execute and CreateRouteByLength.execute leave
    the workspace of the function they call and end as it ends; only the
    returned name is dropped. *)
Lemma CreatePointEventTable_execute_run (fuel : nat)
    (in_routes name : string) (interval : Q) (out : string) (w : World) :
  CreatePointEventTable_execute dist fuel in_routes name interval out w
  = (fst (create_point_event_table dist fuel in_routes name interval out w),
     match snd (create_point_event_table dist fuel in_routes name interval
                  out w) with
     | Ok _ => Ok tt
     | Raised e => Raised e
     | Running => Running
     end).
Proof.
  unfold CreatePointEventTable_execute. rewrite bind_run.
  destruct (create_point_event_table dist fuel in_routes name interval out w)
    as [w' [r|e|]]; reflexivity.
Qed.

Lemma CreateRouteByLength_execute_run
    (in_features id_field out : string) (w : World) :
  CreateRouteByLength_execute dist in_features id_field out w
  = (fst (create_route_by_length dist in_features id_field out w),
     match snd (create_route_by_length dist in_features id_field out w) with
     | Ok _ => Ok tt
     | Raised e => Raised e
     | Running => Running
     end).
Proof.
  unfold CreateRouteByLength_execute. rewrite bind_run.
  destruct (create_route_by_length dist in_features id_field out w)
    as [w' [r|e|]]; reflexivity.
Qed.
End Wrappers.
